(** * Nova VST Host: WebSocket frame codec, handshake path, plugin registry
      and message handlers

    A shallow embedding of [WebSocketServer.cpp], [PluginManager.{h,cpp}] and
    [MainComponent.cpp], with the properties of the protocol and session layer
    stated over it.

    Conventions.
    - A [juce::String] is a [string]: the bytes of its UTF-8 storage.  JUCE
      strings are NUL-terminated, so a well-formed one holds no NUL byte
      ([is_text]).
    - A raw buffer ([const char*], [std::vector<char>]) is a [list ascii].
    - A C++ [int] is a [Z]; conversions to [int], [char] and [unsigned char]
      are written out ([to_int], [to_char], [uchar]).
    - [std::map<juce::String, T>] is a [gmap string T].  The iteration order of
      the C++ map (by key) is not reproduced; nothing below depends on it. *)

From Stdlib Require Import ZArith Lia Ascii String List.
From stdpp Require Import gmap strings list fin_maps pretty.

Local Open Scope Z_scope.

(** ** Machine integers and characters *)

Module Machine.

(** Conversion of a mathematical value to a 32-bit two's complement [int]. *)
Definition to_int (z : Z) : Z := (z + 2 ^ 31) mod 2 ^ 32 - 2 ^ 31.

(** [(unsigned char) c]: the value of a byte, in [0, 256). *)
Definition uchar (c : ascii) : Z := Z.of_N (N_of_ascii c).

(** [(char) z]: the low eight bits of [z]. *)
Definition to_char (z : Z) : ascii := ascii_of_N (Z.to_N (z mod 256)).

(** [a ^ b] on two [char]s, bit by bit. *)
Definition char_xor (a b : ascii) : ascii :=
  match a, b with
  | Ascii a0 a1 a2 a3 a4 a5 a6 a7, Ascii b0 b1 b2 b3 b4 b5 b6 b7 =>
      Ascii (xorb a0 b0) (xorb a1 b1) (xorb a2 b2) (xorb a3 b3)
            (xorb a4 b4) (xorb a5 b5) (xorb a6 b6) (xorb a7 b7)
  end.

(** [x >> n] on an [int].  C++ ([expr.shift]) defines the result only for
    [0 <= n < 32]: a count that is negative or not smaller than the width of
    the promoted left operand is undefined behaviour, rendered as [None]. *)
Definition int_shr (x n : Z) : option Z :=
  if (0 <=? n) && (n <? 32) then Some (Z.shiftr x n) else None.

(** What the shift instructions of x86-64 and ARM64 compute for a 32-bit
    operand: they take the count modulo 32.  Not C++ semantics; it shows what a
    compiled [x >> n] yields on those machines where C++ defines nothing. *)
Definition shr_count_mod_32 (x n : Z) : option Z := Some (Z.shiftr x (n mod 32)).

(** The shift on integers without a width, which a 64-bit [length] would
    behave as. *)
Definition shr_unbounded (x n : Z) : option Z := Some (Z.shiftr x n).

(** [x + y] on two [int]s; signed overflow is undefined behaviour. *)
Definition int_add (x y : Z) : option Z :=
  let r := x + y in
  if (- 2 ^ 31 <=? r) && (r <? 2 ^ 31) then Some r else None.

Definition NUL : ascii := "000"%char.

(** Carriage return and line feed. *)
Definition CRLF : string := String "013" (String "010" EmptyString).

End Machine.
Import Machine.

(** ** The parts of [juce::String] the server uses

    JUCE is a library the repository links against; these definitions follow
    its documented behaviour. *)

Module Juce.

(** A string without NUL bytes. *)
Fixpoint is_text (s : string) : bool :=
  match s with
  | EmptyString => true
  | String c s' => negb (uchar c =? 0) && is_text s'
  end.

(** A string of 7-bit characters (and no NUL). *)
Fixpoint is_ascii_text (s : string) : bool :=
  match s with
  | EmptyString => true
  | String c s' => negb (uchar c =? 0) && (uchar c <? 128) && is_ascii_text s'
  end.

(** [CharPointer_UTF8::length()], which JUCE documents as "the number of
    characters in this string" (the number of bytes is [sizeInBytes()]): a
    byte with its top bit set opens a sequence, and the continuation bytes
    ([10xxxxxx]) that follow it are skipped, not counted.  [in_seq] tells
    whether the previous counted byte had its top bit set. *)
Fixpoint utf8_length_from (in_seq : bool) (s : string) : nat :=
  match s with
  | EmptyString => 0%nat
  | String c s' =>
      let n := uchar c in
      if in_seq && (Z.land n 0xC0 =? 0x80)
      then utf8_length_from true s'
      else S (utf8_length_from (negb (Z.land n 0x80 =? 0)) s')
  end.

Definition utf8_length (s : string) : nat := utf8_length_from false s.

(** [utf8.getAddress()[i]]: the [i]-th byte of the storage; the byte after
    the last one is the terminating NUL. *)
Definition char_at (s : string) (i : nat) : ascii :=
  match String.get i s with Some c => c | None => NUL end.

(** [String::operator+= (char)]: appends the one-byte C string [{ch, 0}];
    for [ch = 0] that string is empty and nothing is appended. *)
Definition append_char (s : string) (ch : ascii) : string :=
  if uchar ch =? 0 then s else s +:+ String ch EmptyString.

(** The string built by appending the bytes of [l] one at a time. *)
Definition from_bytes (l : list ascii) : string := fold_left append_char l "".

End Juce.
Import Juce.

(** ** Frame codec ([WebSocketServer.cpp]) *)

(** [data[i]] of a received buffer; the caller's buffer is zero-initialised. *)
Definition data_at (data : list ascii) (i : Z) : ascii :=
  nth (Z.to_nat i) data NUL.

(** The loop of [sendWebSocketFrame] that writes the eight length bytes,
    [(char) ((length >> (i * 8)) & 0xFF)] for [i] from 7 down to 0, over the
    shift [shr] it is run with. *)
Definition extended_length (shr : Z -> Z -> option Z) (length : Z)
  : option (list ascii) :=
  mapM (λ i, b ← shr length (i * 8); Some (to_char (Z.land b 0xFF)))
       [7; 6; 5; 4; 3; 2; 1; 0].

(** [sendWebSocketFrame]: the bytes handed to [socket.write], or [None] when
    the computation runs into undefined behaviour. *)
Definition sendWebSocketFrame (message : string) : option (list ascii) :=
  let utf8 := message in
  let length := to_int (Z.of_nat (utf8_length utf8)) in
  let frame := [to_char 0x81] in
  frame ←
    (if length <? 126 then
       Some (frame ++ [to_char length])
     else if length <? 65536 then
       hi ← int_shr length 8;
       Some (frame ++ [to_char 126; to_char hi; to_char (Z.land length 0xFF)])
     else
       ext ← extended_length int_shr length;
       Some (frame ++ [to_char 127] ++ ext));
  Some (frame ++ map (λ i, char_at utf8 i) (seq 0 (Z.to_nat length))).

(** The header part of [decodeWebSocketFrame]: whether the frame is masked,
    the payload length, the position of the masking key and the payload
    offset; [None] stands for each early [return {}] of that part. *)
Definition decodeHeader (data : list ascii) (length : Z)
  : option (bool * Z * Z * Z) :=
  if length <? 2 then None else
  let firstByte := uchar (data_at data 0) in
  let secondByte := uchar (data_at data 1) in
  let opcode := Z.land firstByte 0x0F in
  if negb (opcode =? 0x01) && negb (opcode =? 0x02) then None else
  let masked := negb (Z.land secondByte 0x80 =? 0) in
  let payloadLength := Z.land secondByte 0x7F in
  let offset := 2 in
  '(payloadLength, offset) ←
    (if payloadLength =? 126 then
       if length <? 4 then None else
       Some (to_int (Z.lor (Z.shiftl (uchar (data_at data 2)) 8)
                           (uchar (data_at data 3))), 4)
     else if payloadLength =? 127 then
       if length <? 10 then None else
       Some (to_int (Z.lor (Z.lor (Z.lor
                (Z.shiftl (uchar (data_at data 6)) 24)
                (Z.shiftl (uchar (data_at data 7)) 16))
                (Z.shiftl (uchar (data_at data 8)) 8))
                (uchar (data_at data 9))), 10)
     else Some (payloadLength, offset));
  if masked then
    if length <? offset + 4 then None
    else Some (masked, payloadLength, offset, offset + 4)
  else Some (masked, payloadLength, 0, offset).

(** One turn of the payload loop of [decodeWebSocketFrame]. *)
Definition decode_step (data : list ascii) (masked : bool) (maskKey offset : Z)
    (result : string) (i : nat) : string :=
  let c := data_at data (offset + Z.of_nat i) in
  let c := if masked then char_xor c (data_at data (maskKey + Z.of_nat i mod 4))
           else c in
  append_char result c.

(** [decodeWebSocketFrame].  [Some ""] is the source's "no message" ([return
    {}]); [None] means that the call has no defined result: [offset +
    payloadLength] overflows, or [preallocateBytes] is asked for a negative
    number of bytes (converted to [size_t], more than can be allocated). *)
Definition decodeWebSocketFrame (data : list ascii) (length : Z) : option string :=
  match decodeHeader data length with
  | None => Some ""
  | Some (masked, payloadLength, maskKey, offset) =>
      frameEnd ← int_add offset payloadLength;
      if length <? frameEnd then Some "" else
      toReserve ← int_add payloadLength 1;
      if toReserve <? 0 then None else
      Some (fold_left (decode_step data masked maskKey offset)
                      (seq 0 (Z.to_nat payloadLength)) "")
  end.

(** ** Frames as a peer puts them on the wire (RFC 6455)

    The decoder's input in the properties below: first byte [b0], the 7-bit,
    16-bit or 64-bit length form, the optional masking key and the payload
    (masked with it). *)

Definition mask_payload (key payload : list ascii) : list ascii :=
  imap (λ i c, char_xor c (nth (i mod 4) key NUL)) payload.

Definition wire_length (maskBit n : Z) : list ascii :=
  if n <? 126 then [to_char (Z.lor maskBit n)]
  else if n <? 65536 then
    [to_char (Z.lor maskBit 126); to_char (Z.shiftr n 8); to_char (Z.land n 0xFF)]
  else
    to_char (Z.lor maskBit 127) ::
    map (λ i, to_char (Z.land (Z.shiftr n (i * 8)) 0xFF)) [7; 6; 5; 4; 3; 2; 1; 0].

(** The opcode nibble of a first byte says text (1) or binary (2). *)
Definition data_opcode_ok (b0 : ascii) : Prop :=
  Z.land (uchar b0) 0x0F = 1 ∨ Z.land (uchar b0) 0x0F = 2.

(** The first byte [b] with its FIN bit (the top bit) set to [fin]. *)
Definition with_fin (fin : bool) (b : ascii) : ascii :=
  let 'Ascii b0 b1 b2 b3 b4 b5 b6 _ := b in Ascii b0 b1 b2 b3 b4 b5 b6 fin.

Definition wire_frame (b0 : ascii) (key : option (list ascii))
    (payload : list ascii) : list ascii :=
  let n := Z.of_nat (List.length payload) in
  match key with
  | None => b0 :: wire_length 0 n ++ payload
  | Some k => b0 :: wire_length 0x80 n ++ k ++ mask_payload k payload
  end.


(** An unmasked frame in the 64-bit length form whose four high length bytes
    are [high] and whose four low ones are the payload length. *)
Definition long_frame (b0 : ascii) (high payload : list ascii) : list ascii :=
  let n := Z.of_nat (List.length payload) in
  [b0; to_char 127] ++ high
  ++ map (λ i, to_char (Z.land (Z.shiftr n (i * 8)) 0xFF)) [3; 2; 1; 0]
  ++ payload.

(** ** More of [juce::String] and [juce::StringArray]

    Comparisons that ignore case fold the letters [A]-[Z]; character indices
    are byte indices (the strings compared and cut below are protocol text). *)

Module JuceText.

Definition to_lower (c : ascii) : ascii :=
  let n := uchar c in
  if (65 <=? n) && (n <=? 90) then to_char (n + 32) else c.

Fixpoint toLowerCase (s : string) : string :=
  match s with
  | EmptyString => EmptyString
  | String c s' => String (to_lower c) (toLowerCase s')
  end.

(** [String::startsWith]. *)
Fixpoint startsWith (s prefix : string) : bool :=
  match prefix, s with
  | EmptyString, _ => true
  | String p prefix', String c s' => Ascii.eqb c p && startsWith s' prefix'
  | String _ _, EmptyString => false
  end.

Definition startsWithIgnoreCase (s prefix : string) : bool :=
  startsWith (toLowerCase s) (toLowerCase prefix).

(** [String::contains]: some suffix of [s] starts with [sub]. *)
Fixpoint contains (s sub : string) : bool :=
  startsWith s sub ||
  match s with
  | EmptyString => false
  | String _ s' => contains s' sub
  end.

Definition containsIgnoreCase (s sub : string) : bool :=
  contains (toLowerCase s) (toLowerCase sub).

Definition isEmpty (s : string) : bool :=
  match s with EmptyString => true | _ => false end.

(** [String::substring (start)]: the text from index [start] on. *)
Fixpoint substring (start : nat) (s : string) : string :=
  match start, s with
  | O, _ => s
  | S n, String _ s' => substring n s'
  | S _, EmptyString => EmptyString
  end.

Fixpoint trimStart (s : string) : string :=
  match s with
  | String c s' => if Ascii.is_space c then trimStart s' else s
  | EmptyString => EmptyString
  end.

(** [String::trim]: white space removed at both ends. *)
Definition trim (s : string) : string :=
  String.rev (trimStart (String.rev (trimStart s))).

(** [StringArray::fromLines]: lines end at a line feed, a carriage return
    or a carriage return and line feed; text that ends with a line end has a
    last, empty line; the empty text has no line.  [line] holds the
    characters of the current line, last one first. *)
Fixpoint fromLines_from (line : string) (s : string) : list string :=
  match s with
  | EmptyString => [String.rev line]
  | String c s' =>
      if Ascii.eqb c "010" then String.rev line :: fromLines_from "" s'
      else if Ascii.eqb c "013" then
        match s' with
        | String c' s'' =>
            if Ascii.eqb c' "010" then String.rev line :: fromLines_from "" s''
            else String.rev line :: fromLines_from "" s'
        | EmptyString => String.rev line :: fromLines_from "" s'
        end
      else fromLines_from (String c line) s'
  end.

Definition fromLines (s : string) : list string :=
  if isEmpty s then [] else fromLines_from "" s.

(** [StringArray::fromTokens (s, "_", "")]: the pieces of [s] between
    underscores, empty pieces included; the empty text has no piece. *)
Fixpoint fromTokens_from (token : string) (s : string) : list string :=
  match s with
  | EmptyString => [String.rev token]
  | String c s' =>
      if Ascii.eqb c "_" then String.rev token :: fromTokens_from "" s'
      else fromTokens_from (String c token) s'
  end.

Definition fromTokens (s : string) : list string :=
  if isEmpty s then [] else fromTokens_from "" s.

(** [String (buffer, maxChars)]: at most [maxChars] bytes of a C string.
    The constructor is for 7-bit characters ([is_7bit]); the string is then
    those bytes. *)
Fixpoint fromBuffer (buffer : list ascii) (maxChars : nat) : string :=
  match maxChars, buffer with
  | S n, c :: buffer' =>
      if uchar c =? 0 then EmptyString else String c (fromBuffer buffer' n)
  | _, _ => EmptyString
  end.

(** No underscore occurs in [s]. *)
Fixpoint no_underscore (s : string) : bool :=
  match s with
  | EmptyString => true
  | String c s' => negb (Ascii.eqb c "_") && no_underscore s'
  end.

Definition is_7bit (buffer : list ascii) : bool :=
  forallb (λ c, uchar c <? 128) buffer.

End JuceText.
Import JuceText.

(** ** Connection registry and handshake ([WebSocketServer.cpp]) *)

Module Server.

(** A [Client]: what has been written to its socket, its id and its flag. *)
Record Client := {
  socket_written : list (list ascii);
  id : string;
  isWebSocket : bool
}.

(** The calls queued with [MessageManager::callAsync], one per listener. *)
Inductive Notification :=
| onClientConnected (listener : nat) (clientId : string)
| onClientDisconnected (listener : nat) (clientId : string).

Record WebSocketServer := {
  clients : gmap string Client;
  listeners : list nat;
  notifications : list Notification
}.

Definition write (client : Client) (bytes : list ascii) : Client :=
  {| socket_written := socket_written client ++ [bytes];
     id := id client; isWebSocket := isWebSocket client |}.

Definition set_isWebSocket (client : Client) (b : bool) : Client :=
  {| socket_written := socket_written client; id := id client; isWebSocket := b |}.

Section Handshake.

(** SHA-1 of the text, then Base64 (BCrypt and [juce::Base64]). *)
Variable sha1_base64 : string -> string.

Definition websocket_guid : string := "258EAFA5-E914-47DA-95CA-C5AB0DC85B11".

(** The key the loop over the request's lines ends with. *)
Definition extract_key (request : string) : string :=
  match List.find (λ line, startsWithIgnoreCase line "Sec-WebSocket-Key:")
                  (fromLines request) with
  | Some line => trim (substring 18 line)
  | None => ""
  end.

Definition handshake_response (key : string) : string :=
  "HTTP/1.1 101 Switching Protocols" +:+ CRLF
  +:+ "Upgrade: websocket" +:+ CRLF
  +:+ "Connection: Upgrade" +:+ CRLF
  +:+ "Sec-WebSocket-Accept: " +:+ sha1_base64 (key +:+ websocket_guid) +:+ CRLF
  +:+ CRLF.

(** [performWebSocketHandshake]: the client after the call; nothing is
    written when no key was found. *)
Definition performWebSocketHandshake (client : Client) (request : string) : Client :=
  let key := extract_key request in
  if isEmpty key then client else
  let response := handshake_response key in
  write client (take (utf8_length response) (list_ascii_of_string response)).

(** The test [handleNewConnection] makes on the request. *)
Definition has_upgrade_header (request : string) : bool :=
  contains request "Upgrade: websocket"
  || containsIgnoreCase request "upgrade: websocket".

(** Some line of the request starts with [Sec-WebSocket-Key:]. *)
Definition has_key_header (request : string) : bool :=
  existsb (λ line, startsWithIgnoreCase line "Sec-WebSocket-Key:")
          (fromLines request).

(** The id [handleNewConnection] gives a connection accepted at time [now]
    (milliseconds): the text [client_] and the number in decimal. *)
Definition assigned_id (now : Z) : string := "client_" +:+ pretty now.

(** [handleNewConnection] for a socket on which [waitUntilReady] returned
    [ready] and [read] returned [bytesRead] after filling [buffer];
    [now] is [Time::currentTimeMillis()]. *)
Definition handleNewConnection (now ready bytesRead : Z) (buffer : list ascii)
    (server : WebSocketServer) : WebSocketServer :=
  let clientId := assigned_id now in
  let client := {| socket_written := []; id := clientId; isWebSocket := false |} in
  if negb (ready =? 1) then server else
  if 0 <? bytesRead then
    let request := fromBuffer buffer (Z.to_nat bytesRead) in
    if has_upgrade_header request then
      let client := performWebSocketHandshake client request in
      let client := set_isWebSocket client true in
      {| clients := <[clientId := client]> (clients server);
         listeners := listeners server;
         notifications :=
           notifications server
           ++ map (λ listener, onClientConnected listener clientId) (listeners server) |}
    else server
  else server.

End Handshake.

(** [send], given the text [JSON::toString] made of the message: the frame
    is written to the socket of the client registered under [clientId], and
    nothing happens when there is none or it is not a WebSocket.  [None] when
    [sendWebSocketFrame] has no defined result. *)
Definition send (clientId jsonStr : string) (server : WebSocketServer)
  : option WebSocketServer :=
  match clients server !! clientId with
  | None => Some server
  | Some client =>
      if negb (isWebSocket client) then Some server else
      frame ← sendWebSocketFrame jsonStr;
      Some {| clients := <[clientId := write client frame]> (clients server);
              listeners := listeners server;
              notifications := notifications server |}
  end.

(** Every registered client has an id the server assigned. *)
Definition ids_assigned (server : WebSocketServer) : Prop :=
  ∀ k, is_Some (clients server !! k) -> ∃ now, k = assigned_id now.

End Server.
Import Server.


(** ** Session registry ([PluginManager.h], [PluginManager.cpp]) *)

Record PluginDescription := {
  name : string;
  manufacturerName : string;
  category : string;
  fileOrIdentifier : string
}.

(** The collaborators the registry and the handlers call into: the JUCE
    plug-in format, a loaded plug-in ([juce::AudioPluginInstance]), its
    editor, and the image codec. *)
Class PluginHost := {
  Processor : Type;
  Editor : Type;
  Double : Type;
  Float : Type;
  Image : Type;
  findAllTypesForFile : string -> list PluginDescription;
  (** [formatManager.createPluginInstance (desc, sampleRate, 512, error)];
      [None] is the null pointer. *)
  createPluginInstance : PluginDescription -> Double -> option Processor;
  prepareToPlay : Processor -> Double -> Z -> Processor;
  setNonRealtime : Processor -> bool -> Processor;
  hasEditor : Processor -> bool;
  createEditor : Processor -> option Editor;
  getNumParameters : Processor -> Z;
  getParameterName : Processor -> Z -> string;
  setParameter : Processor -> Z -> Float -> Processor;
  processBlock : Processor -> list (list Float) -> Processor * list (list Float);
  (** [paintEntireComponent] into a fresh image of the editor's size. *)
  paintEntireComponent : Editor -> Image;
  (** JPEG at quality 0.75, then Base64. *)
  jpegBase64 : Image -> string;
  (** Narrowing [(float)] and [(double)] conversions. *)
  double_to_float : Double -> Float;
  float_to_double : Float -> Double
}.

Module Registry.
Section Registry.

Context `{Host : PluginHost}.

Record PluginInstance := {
  audioProcessor : Processor;
  pluginEditor : option Editor;
  pluginName : string
}.

(** The constructor of [PluginInstance]. *)
Definition new_PluginInstance (processor : Processor) (name : string) : PluginInstance :=
  {| audioProcessor := processor;
     pluginEditor := if hasEditor processor then createEditor processor else None;
     pluginName := name |}.

Definition instance_hasEditor (inst : PluginInstance) : bool :=
  match pluginEditor inst with Some _ => true | None => false end.

(** [captureImage]: [None] is the null (invalid) image. *)
Definition captureImage (inst : PluginInstance) : option Image :=
  match pluginEditor inst with
  | None => None
  | Some editor => Some (paintEntireComponent editor)
  end.

(** [PluginManager].  A [PluginInstance*] is a handle: the identity of one
    object, never reused.  [objects] holds the live objects, [destroyed]
    the handles whose destructor has run, in order. *)
Record PluginManager := {
  availablePlugins : list PluginDescription;
  activeInstances : gmap string nat;
  objects : gmap nat PluginInstance;
  destroyed : list nat;
  nextHandle : nat
}.

Definition makeKey (clientId slotId : string) : string :=
  clientId +:+ "_" +:+ slotId.

(** [std::make_unique<PluginInstance>]. *)
Definition make_unique (inst : PluginInstance) (pm : PluginManager)
  : nat * PluginManager :=
  (nextHandle pm,
   {| availablePlugins := availablePlugins pm;
      activeInstances := activeInstances pm;
      objects := <[nextHandle pm := inst]> (objects pm);
      destroyed := destroyed pm;
      nextHandle := S (nextHandle pm) |}).

(** [delete] of the object behind a handle (the [unique_ptr] deleter). *)
Definition destroy (h : nat) (pm : PluginManager) : PluginManager :=
  {| availablePlugins := availablePlugins pm;
     activeInstances := activeInstances pm;
     objects := delete h (objects pm);
     destroyed := destroyed pm ++ [h];
     nextHandle := nextHandle pm |}.

Definition set_activeInstances (m : gmap string nat) (pm : PluginManager)
  : PluginManager :=
  {| availablePlugins := availablePlugins pm;
     activeInstances := m;
     objects := objects pm;
     destroyed := destroyed pm;
     nextHandle := nextHandle pm |}.

(** [activeInstances[key] = std::move (p)]: the slot takes the new pointer
    and the object it held before, if any, is deleted. *)
Definition assign (key : string) (h : nat) (pm : PluginManager) : PluginManager :=
  let old := activeInstances pm !! key in
  let pm := set_activeInstances (<[key := h]> (activeInstances pm)) pm in
  match old with
  | Some o => destroy o pm
  | None => pm
  end.

(** [activeInstances.erase (key)]. *)
Definition erase (key : string) (pm : PluginManager) : PluginManager :=
  let old := activeInstances pm !! key in
  let pm := set_activeInstances (delete key (activeInstances pm)) pm in
  match old with
  | Some o => destroy o pm
  | None => pm
  end.

Definition loadPlugin (clientId slotId path : string) (sampleRate : Double)
    (pm : PluginManager) : bool * PluginManager :=
  let found :=
    match List.find (λ plugin, String.eqb (fileOrIdentifier plugin) path)
                    (availablePlugins pm) with
    | Some plugin => Some plugin
    | None => head (findAllTypesForFile path)
    end in
  match found with
  | None => (false, pm)
  | Some desc =>
      match createPluginInstance desc sampleRate with
      | None => (false, pm)
      | Some instance =>
          let instance := prepareToPlay instance sampleRate 512 in
          let instance := setNonRealtime instance false in
          let '(pluginInstance, pm) :=
            make_unique (new_PluginInstance instance (name desc)) pm in
          let key := makeKey clientId slotId in
          (true, assign key pluginInstance pm)
      end
  end.

Definition unloadPlugin (clientId slotId : string) (pm : PluginManager)
  : PluginManager :=
  let key := makeKey clientId slotId in
  erase key pm.

(** One turn of the loop of [unloadAllForClient], at one entry of the map. *)
Definition unload_step (prefix : string) (pm : PluginManager)
    (entry : string * nat) : PluginManager :=
  if startsWith entry.1 prefix then erase entry.1 pm else pm.

Definition unloadAllForClient (clientId : string) (pm : PluginManager)
  : PluginManager :=
  let prefix := clientId +:+ "_" in
  fold_left (unload_step prefix) (map_to_list (activeInstances pm)) pm.

Definition getInstance (clientId slotId : string) (pm : PluginManager) : option nat :=
  let key := makeKey clientId slotId in
  activeInstances pm !! key.

Definition getAllActiveInstances (pm : PluginManager) : gmap string nat :=
  activeInstances pm.

(** The registry owns its objects: every key holds a live object, every
    live object is held by exactly one key, and no handle is destroyed
    twice. *)
Record registry_ok (pm : PluginManager) : Prop := {
  ok_live : ∀ k h, activeInstances pm !! k = Some h -> is_Some (objects pm !! h);
  ok_owned : ∀ h, is_Some (objects pm !! h) -> ∃ k, activeInstances pm !! k = Some h;
  ok_unique : ∀ k1 k2 h,
    activeInstances pm !! k1 = Some h -> activeInstances pm !! k2 = Some h -> k1 = k2;
  ok_below : ∀ h, is_Some (objects pm !! h) -> (h < nextHandle pm)%nat;
  ok_dead : ∀ h, h ∈ destroyed pm -> objects pm !! h = None ∧ (h < nextHandle pm)%nat;
  ok_once : NoDup (destroyed pm)
}.

End Registry.
End Registry.
Import Registry.

(** ** Messages and handlers ([MainComponent.cpp]) *)

Module Router.
Section Router.

Context `{Host : PluginHost}.

(** [juce::var], the JSON values. *)
#[local] Unset Elimination Schemes.
Inductive var :=
| VVoid
| VInt (z : Z)
| VBool (b : bool)
| VDouble (d : Double)
| VString (s : string)
| VArray (elements : list var)
| VObject (properties : list (string * var)).
#[local] Set Elimination Schemes.

(** The conversions of [juce::var] that depend on number formatting and
    parsing. *)
Variable describe : var -> string.
Variable var_to_double : var -> Double.

(** [var::toString]. *)
Definition toString (v : var) : string :=
  match v with
  | VVoid => ""
  | VString s => s
  | VInt z => pretty z
  | VBool b => if b then "1" else "0"
  | _ => describe v
  end.

Definition isArray (v : var) : bool :=
  match v with VArray _ => true | _ => false end.

(** [var::getArray]: [None] is the null pointer. *)
Definition getArray (v : var) : option (list var) :=
  match v with VArray a => Some a | _ => None end.

(** [juce::Array::operator[]]: a default-constructed element when the
    index is out of range. *)
Definition element (a : list var) (i : nat) : var := nth i a VVoid.

(** [v[name]]: the property of an object, void otherwise. *)
Definition property (v : var) (name : string) : var :=
  match v with
  | VObject props =>
      match List.find (λ p, String.eqb p.1 name) props with
      | Some p => p.2
      | None => VVoid
      end
  | _ => VVoid
  end.

(** [DynamicObject::setProperty]. *)
Fixpoint setProperty (props : list (string * var)) (name : string) (value : var)
  : list (string * var) :=
  match props with
  | [] => [(name, value)]
  | p :: props' =>
      if String.eqb p.1 name then (name, value) :: props'
      else p :: setProperty props' name value
  end.

(** A call [webSocketServer->send (clientId, message)]. *)
Definition Send : Type := string * var.

(** The reply of the fail-open branch of [handleProcessAudio]. *)
Definition audio_reply (channels : var) (slotId : string) : var :=
  let response := [] in
  let response := setProperty response "action" (VString "AUDIO_PROCESSED") in
  let response := setProperty response "channels" channels in
  let response := setProperty response "slot_id" (VString slotId) in
  VObject response.

(** One channel of the [AudioBuffer]: [numSamples] samples read from
    [chData]; reading through a null [chData] has no defined result. *)
Definition read_channel (chData : option (list var)) (numSamples : nat)
  : option (list Float) :=
  mapM (λ s, a ← chData; Some (double_to_float (var_to_double (element a s))))
       (seq 0 numSamples).

(** [handleProcessAudio]: the registry afterwards and the messages sent;
    [None] when the handler dereferences a null pointer.  The sample rate
    the source reads from the message is not used by it. *)
Definition handleProcessAudio (clientId : string) (data : var) (pm : PluginManager)
  : option (PluginManager * list Send) :=
  let slotId := toString (property data "slot_id") in
  let channelsData := property data "channels" in
  let instance := getInstance clientId slotId pm in
  let echo := Some (pm, [(clientId, audio_reply channelsData slotId)]) in
  match instance with
  | None => echo
  | Some h =>
      if negb (isArray channelsData) then echo else
      channels ← getArray channelsData;
      inst ← objects pm !! h;
      let numChannels := List.length channels in
      first ← getArray (element channels 0);
      let numSamples := List.length first in
      buffer ← mapM (λ ch, read_channel (getArray (element channels ch)) numSamples)
                    (seq 0 numChannels);
      let '(processor, buffer) := processBlock (audioProcessor inst) buffer in
      let inst := {| audioProcessor := processor;
                     pluginEditor := pluginEditor inst;
                     pluginName := pluginName inst |} in
      let outputChannels :=
        map (λ ch, VArray (map (λ s, VDouble (float_to_double
                (nth s (nth ch buffer []) (double_to_float (var_to_double VVoid)))))
                               (seq 0 numSamples)))
            (seq 0 numChannels) in
      Some ({| availablePlugins := availablePlugins pm;
               activeInstances := activeInstances pm;
               objects := <[h := inst]> (objects pm);
               destroyed := destroyed pm;
               nextHandle := nextHandle pm |},
            [(clientId, audio_reply (VArray outputChannels) slotId)])
  end.

(** The loop of [handleSetParam]: the first index whose name matches. *)
Definition find_parameter (processor : Processor) (paramName : string) : option Z :=
  List.find (λ i, String.eqb (getParameterName processor i) paramName)
            (map Z.of_nat (seq 0 (Z.to_nat (getNumParameters processor)))).

Definition param_reply (paramName : string) (value : Float) (slotId : string) : var :=
  let response := [] in
  let response := setProperty response "action" (VString "PARAM_CHANGED") in
  let response := setProperty response "name" (VString paramName) in
  let response := setProperty response "value" (VDouble (float_to_double value)) in
  let response := setProperty response "slot_id" (VString slotId) in
  VObject response.

Definition handleSetParam (clientId : string) (data : var) (pm : PluginManager)
  : option (PluginManager * list Send) :=
  let slotId := toString (property data "slot_id") in
  let paramName := toString (property data "name") in
  let value := double_to_float (var_to_double (property data "value")) in
  pm ←
    match getInstance clientId slotId pm with
    | Some h =>
        inst ← objects pm !! h;
        let processor := audioProcessor inst in
        let processor :=
          match find_parameter processor paramName with
          | Some i => setParameter processor i value
          | None => processor
          end in
        Some {| availablePlugins := availablePlugins pm;
                activeInstances := activeInstances pm;
                objects := <[h := {| audioProcessor := processor;
                                     pluginEditor := pluginEditor inst;
                                     pluginName := pluginName inst |}]> (objects pm);
                destroyed := destroyed pm;
                nextHandle := nextHandle pm |}
    | None => Some pm
    end;
  Some (pm, [(clientId, param_reply paramName value slotId)]).

Definition ui_frame (base64 slotId : string) : var :=
  let response := [] in
  let response := setProperty response "action" (VString "UI_FRAME") in
  let response := setProperty response "image" (VString base64) in
  let response := setProperty response "slot_id" (VString slotId) in
  VObject response.

(** The body of the loop of [captureAndSendUI] for one entry of the
    snapshot: the message sent, if any.  The snapshot is read in the state it
    was taken in, where its handles are live. *)
Definition captureAndSendUI_entry (pm : PluginManager) (key : string) (instance : nat)
  : option Send :=
  inst ← objects pm !! instance;
  if negb (instance_hasEditor inst) then None else
  image ← captureImage inst;
  let base64 := jpegBase64 image in
  let parts := fromTokens key in
  if (2 <=? List.length parts)%nat then
    let clientId := nth 0 parts "" in
    let slotId := substring (String.length clientId + 1) key in
    Some (clientId, ui_frame base64 slotId)
  else None.

Definition captureAndSendUI (pm : PluginManager) : list Send :=
  let activeInstances := getAllActiveInstances pm in
  omap (λ entry, captureAndSendUI_entry pm entry.1 entry.2)
       (map_to_list activeInstances).

End Router.
End Router.
Import Router.

(** ** A small host, for concrete runs

    One plug-in at [/x.plugin] with three parameters (two of them named
    [gain]) and an editor; samples and rates are integers. *)

Module Demo.

Definition X_plugin : PluginDescription :=
  {| name := "X"; manufacturerName := "Nova"; category := "Fx";
     fileOrIdentifier := "/x.plugin" |}.

Definition host : PluginHost := {|
  Processor := list (string * Z);
  Editor := unit;
  Double := Z;
  Float := Z;
  Image := unit;
  findAllTypesForFile := λ path, if String.eqb path "/x.plugin" then [X_plugin] else [];
  createPluginInstance := λ _ _, Some [("gain", 0); ("mix", 0); ("gain", 0)];
  prepareToPlay := λ p _ _, p;
  setNonRealtime := λ p _, p;
  hasEditor := λ _, true;
  createEditor := λ _, Some tt;
  getNumParameters := λ p, Z.of_nat (List.length p);
  getParameterName := λ p i, (nth (Z.to_nat i) p ("", 0)).1;
  setParameter := λ p i v, <[Z.to_nat i := ((nth (Z.to_nat i) p ("", 0)).1, v)]> p;
  processBlock := λ p buffer, (p, buffer);
  paintEntireComponent := λ _, tt;
  jpegBase64 := λ _, "/9j/4AAQ";
  double_to_float := λ d, d;
  float_to_double := λ f, f
|}.

Definition describe (v : @var host) : string := "".

Definition var_to_double (v : @var host) : Z :=
  match v with VInt z => z | VDouble d => d | _ => 0 end.

Definition empty : @PluginManager host :=
  {| availablePlugins := []; activeInstances := ∅; objects := ∅;
     destroyed := []; nextHandle := 0 |}.

(** The registry after [client_1700000000000] has loaded slot [A]. *)
Definition loaded : @PluginManager host :=
  (loadPlugin (Host := host) "client_1700000000000" "A" "/x.plugin" 48000 empty).2.

(** The object behind that slot. *)
Definition X_instance : @PluginInstance host :=
  @Build_PluginInstance host [("gain", 0); ("mix", 0); ("gain", 0)] (Some tt) "X".

(** An upgrade request without a [Sec-WebSocket-Key] header. *)
Definition request_without_key : string :=
  "GET / HTTP/1.1" +:+ CRLF +:+ "Host: localhost:8765" +:+ CRLF
  +:+ "Upgrade: websocket" +:+ CRLF +:+ "Connection: Upgrade" +:+ CRLF +:+ CRLF.

Definition idle_server : WebSocketServer :=
  {| clients := ∅; listeners := [1%nat]; notifications := [] |}.

(** The two bytes of U+00E9 in UTF-8. *)
Definition e_acute : string :=
  String (to_char 0xC3) (String (to_char 0xA9) EmptyString).

(** A message of [n] letters. *)
Definition letters (n : nat) : string := string_of_list_ascii (repeat "a"%char n).

End Demo.

(** ** Broadcasting, receiving and the polling loop ([WebSocketServer.cpp]) *)

Module ServerLoop.

(** One turn of the loop of [broadcast], at one entry of the map;
    [sendWebSocketFrame] may have no defined result. *)
Definition broadcast_step (jsonStr : string) (clients : option (gmap string Client))
    (entry : string * Client) : option (gmap string Client) :=
  clients ← clients;
  if isWebSocket entry.2 then
    frame ← sendWebSocketFrame jsonStr;
    Some (<[entry.1 := write entry.2 frame]> clients)
  else Some clients.

(** [broadcast], given the text [JSON::toString] made of the message. *)
Definition broadcast (jsonStr : string) (server : WebSocketServer)
  : option WebSocketServer :=
  clients' ← fold_left (broadcast_step jsonStr) (map_to_list (clients server))
                       (Some (clients server));
  Some {| clients := clients';
          listeners := listeners server;
          notifications := notifications server |}.

(** [stop]: every socket is closed and the clients are forgotten. *)
Definition stop (server : WebSocketServer) : WebSocketServer :=
  {| clients := ∅;
     listeners := listeners server;
     notifications := notifications server |}.

(** One turn of the second loop of [run]: the client is erased and the call
    [onClientDisconnected] is queued for every listener. *)
Definition remove_client (server : WebSocketServer) (id : string) : WebSocketServer :=
  {| clients := delete id (clients server);
     listeners := listeners server;
     notifications :=
       notifications server
       ++ map (λ listener, onClientDisconnected listener id) (listeners server) |}.

(** The clients are kept under their own ids, which the server assigned,
    and all of them have been marked as WebSockets. *)
Definition server_ok (server : WebSocketServer) : Prop :=
  ∀ k c, clients server !! k = Some c ->
         id c = k ∧ isWebSocket c = true ∧ ∃ now, k = assigned_id now.



Section Receive.

Context `{Host : PluginHost}.

(** [juce::JSON::parse]; the void value when the text is not JSON. *)
Variable parse : string -> var.

Definition isVoid (v : var) : bool :=
  match v with VVoid => true | _ => false end.

(** A queued call [listener->onMessageReceived (clientId, json)]. *)
Record Delivery := {
  to_listener : nat;
  from_client : string;
  json : var
}.

(** [handleClientMessage] for a client on whose socket [read] returned
    [bytesRead] after filling the zeroed [buffer]: the calls queued.  [None]
    when [decodeWebSocketFrame] has no defined result. *)
Definition handleClientMessage (listeners : list nat) (client : Client)
    (bytesRead : Z) (buffer : list ascii) : option (list Delivery) :=
  if bytesRead <=? 0 then Some [] else
  if negb (isWebSocket client) then Some [] else
  message ← decodeWebSocketFrame buffer bytesRead;
  if isEmpty message then Some [] else
  let json := parse message in
  if negb (isVoid json) then
    Some (map (λ listener,
                 {| to_listener := listener; from_client := id client; json := json |})
              listeners)
  else Some [].

(** What the first loop of [run] does at one entry of the map.
    [isConnected] tells whether the socket of a client is connected, and
    [incoming] what [read] gives for a client whose socket is ready (nothing
    when it is not ready). *)
Definition poll_client (isConnected : string -> bool)
    (incoming : string -> option (Z * list ascii)) (listeners : list nat)
    (entry : string * Client) : option (list Delivery) :=
  if negb (isConnected entry.1) then Some []
  else match incoming entry.1 with
       | Some (bytesRead, buffer) =>
           handleClientMessage listeners entry.2 bytesRead buffer
       | None => Some []
       end.

(** The two loops of [run] over the clients, in one turn: the messages
    queued for the listeners, and the server after the clients found
    disconnected have been removed. *)
Definition run_clients (isConnected : string -> bool)
    (incoming : string -> option (Z * list ascii)) (server : WebSocketServer)
  : option (WebSocketServer * list Delivery) :=
  let entries := map_to_list (clients server) in
  let toRemove := (List.filter (λ entry, negb (isConnected entry.1)) entries).*1 in
  deliveries ← mapM (poll_client isConnected incoming (listeners server)) entries;
  Some (fold_left remove_client toRemove server, concat deliveries).

End Receive.

End ServerLoop.
Import ServerLoop.

(** ** The rest of [PluginManager.cpp] *)

Module RegistryEnd.
Section RegistryEnd.

Context `{Host : PluginHost}.

(** The destructor of [PluginManager]: [activeInstances.clear ()]. *)
Definition PluginManager_destructor (pm : PluginManager) : PluginManager :=
  fold_left (λ pm entry, erase entry.1 pm) (map_to_list (activeInstances pm)) pm.

(** The sessions under keys other than [key] are in [pm'] what they were
    in [pm]: same handle, same object, not destroyed; and the list of plug-ins
    is the same. *)
Definition others_kept (key : string) (pm pm' : PluginManager) : Prop :=
  availablePlugins pm' = availablePlugins pm
  ∧ ∀ k, k ≠ key ->
         activeInstances pm' !! k = activeInstances pm !! k
         ∧ ∀ h, activeInstances pm !! k = Some h ->
                objects pm' !! h = objects pm !! h ∧ h ∉ destroyed pm'.

End RegistryEnd.
End RegistryEnd.
Import RegistryEnd.

(** ** The other handlers of [MainComponent.cpp]

    The log view is not part of the model. *)

Module MainComponent.
Section MainComponent.

Context `{Host : PluginHost}.

Variable describe : var -> string.
Variable var_to_double : var -> Double.

(** [sampleRate <= 0] on a [double], and the constant [44100.0]. *)
Variable double_le_zero : Double -> bool.
Variable rate_44100 : Double.

(** [AudioProcessor::getParameter]. *)
Variable getParameter : Processor -> Z -> Float.

(** The conversions [(int) v] of a [juce::var] and [(float) i] of an [int],
    and [(float) delta * 0.1f]. *)
Variable var_to_int : var -> Z.
Variable int_to_float : Z -> Float.
Variable wheel_deltaY : Z -> Float.

(** The [juce::MouseEvent]s the host makes up: position, whether the left
    button is held, and the position of the press (the source and the times
    are left out). *)
Record MouseEvent := {
  position : Float * Float;
  leftButton : bool;
  mouseDownPos : Float * Float
}.

Inductive MouseCall :=
| mouseDown (e : MouseEvent)
| mouseUp (e : MouseEvent)
| mouseDrag (e : MouseEvent)
| mouseWheelMove (e : MouseEvent) (deltaY : Float).

(** What a plug-in does when one of these is called on its editor. *)
Variable editor_call : MouseCall -> PluginInstance -> PluginInstance.

(** The reply to [PING]; [now] is [Time::currentTimeMillis ()]. *)
Definition pong (now : Z) : var :=
  let response := [] in
  let response := setProperty response "action" (VString "PONG") in
  let response := setProperty response "timestamp" (VInt now) in
  VObject response.

(** The entry of [sendPluginList] for the plug-in at index [i]. *)
Definition plugin_entry (i : nat) (plugin : PluginDescription) : var :=
  let obj := [] in
  let obj := setProperty obj "id" (VInt (Z.of_nat i)) in
  let obj := setProperty obj "name" (VString (name plugin)) in
  let obj := setProperty obj "vendor" (VString (manufacturerName plugin)) in
  let obj := setProperty obj "category" (VString (category plugin)) in
  let obj := setProperty obj "path" (VString (fileOrIdentifier plugin)) in
  VObject obj.

Definition sendPluginList (clientId : string) (pm : PluginManager) : list Send :=
  let plugins := availablePlugins pm in
  let pluginArray := imap plugin_entry plugins in
  let response := [] in
  let response := setProperty response "action" (VString "GET_PLUGIN_LIST") in
  let response := setProperty response "plugins" (VArray pluginArray) in
  [(clientId, VObject response)].

(** The entry of the [parameters] array of a [LOAD_PLUGIN] reply. *)
Definition parameter_entry (processor : Processor) (i : Z) : var :=
  let param := [] in
  let param := setProperty param "name" (VString (getParameterName processor i)) in
  let param := setProperty param "value"
                 (VDouble (float_to_double (getParameter processor i))) in
  let param := setProperty param "display_name"
                 (VString (getParameterName processor i)) in
  VObject param.

(** [handleLoadPlugin]; [None] when the handler dereferences a pointer to
    an object that is not live. *)
Definition handleLoadPlugin (clientId : string) (data : var) (pm : PluginManager)
  : option (PluginManager * list Send) :=
  let path := toString describe (property data "path") in
  let slotId := toString describe (property data "slot_id") in
  let sampleRate := var_to_double (property data "sample_rate") in
  let sampleRate := if double_le_zero sampleRate then rate_44100 else sampleRate in
  let '(success, pm) := loadPlugin clientId slotId path sampleRate pm in
  let response := [] in
  let response := setProperty response "action" (VString "LOAD_PLUGIN") in
  let response := setProperty response "success" (VBool success) in
  let response := setProperty response "slot_id" (VString slotId) in
  response ←
    (if success then
       match getInstance clientId slotId pm with
       | Some instance =>
           inst ← objects pm !! instance;
           let response := setProperty response "name" (VString (pluginName inst)) in
           let processor := audioProcessor inst in
           let params :=
             map (parameter_entry processor)
                 (map Z.of_nat (seq 0 (Z.to_nat (getNumParameters processor)))) in
           Some (setProperty response "parameters" (VArray params))
       | None => Some response
       end
     else Some (setProperty response "error" (VString "Failed to load plugin")));
  Some (pm, [(clientId, VObject response)]).

Definition handleUnloadPlugin (clientId : string) (data : var) (pm : PluginManager)
  : PluginManager * list Send :=
  let slotId := toString describe (property data "slot_id") in
  let pm := unloadPlugin clientId slotId pm in
  let response := [] in
  let response := setProperty response "action" (VString "UNLOAD_PLUGIN") in
  let response := setProperty response "success" (VBool true) in
  let response := setProperty response "slot_id" (VString slotId) in
  (pm, [(clientId, VObject response)]).

(** The point [(float) (int) data[x], (float) (int) data[y]]. *)
Definition point (data : var) (x y : string) : Float * Float :=
  (int_to_float (var_to_int (property data x)),
   int_to_float (var_to_int (property data y))).

(** The calls [handleMouseEvent] makes on the editor, in order. *)
Definition mouse_calls (data : var) (type : string) : list MouseCall :=
  if String.eqb type "click" then
    let p := point data "x" "y" in
    [mouseDown {| position := p; leftButton := false; mouseDownPos := p |};
     mouseUp {| position := p; leftButton := false; mouseDownPos := p |}]
  else if String.eqb type "drag" then
    let p1 := point data "x1" "y1" in
    let p2 := point data "x2" "y2" in
    [mouseDown {| position := p1; leftButton := true; mouseDownPos := p1 |};
     mouseDrag {| position := p2; leftButton := true; mouseDownPos := p1 |};
     mouseUp {| position := p2; leftButton := false; mouseDownPos := p1 |}]
  else if String.eqb type "scroll" then
    let p := point data "x" "y" in
    let delta := var_to_int (property data "delta") in
    [mouseWheelMove {| position := p; leftButton := false; mouseDownPos := p |}
                    (wheel_deltaY delta)]
  else [].

(** [handleMouseEvent]: the registry afterwards; nothing is sent. *)
Definition handleMouseEvent (clientId : string) (data : var) (type : string)
    (pm : PluginManager) : option PluginManager :=
  let slotId := toString describe (property data "slot_id") in
  match getInstance clientId slotId pm with
  | None => Some pm
  | Some instance =>
      inst ← objects pm !! instance;
      match pluginEditor inst with
      | None => Some pm
      | Some _ =>
          let inst := fold_left (λ inst call, editor_call call inst)
                                (mouse_calls data type) inst in
          Some {| availablePlugins := availablePlugins pm;
                  activeInstances := activeInstances pm;
                  objects := <[instance := inst]> (objects pm);
                  destroyed := destroyed pm;
                  nextHandle := nextHandle pm |}
      end
  end.

(** [onMessageReceived]: the registry afterwards and the messages sent. *)
Definition onMessageReceived (now : Z) (clientId : string) (message : var)
    (pm : PluginManager) : option (PluginManager * list Send) :=
  let action := toString describe (property message "action") in
  if String.eqb action "PING" then Some (pm, [(clientId, pong now)])
  else if String.eqb action "GET_PLUGIN_LIST" then Some (pm, sendPluginList clientId pm)
  else if String.eqb action "LOAD_PLUGIN" then handleLoadPlugin clientId message pm
  else if String.eqb action "UNLOAD_PLUGIN" then Some (handleUnloadPlugin clientId message pm)
  else if String.eqb action "PROCESS_AUDIO" then
    handleProcessAudio describe var_to_double clientId message pm
  else if String.eqb action "SET_PARAM" then
    handleSetParam describe var_to_double clientId message pm
  else if String.eqb action "CLICK" then
    pm ← handleMouseEvent clientId message "click" pm; Some (pm, [])
  else if String.eqb action "DRAG" then
    pm ← handleMouseEvent clientId message "drag" pm; Some (pm, [])
  else if String.eqb action "SCROLL" then
    pm ← handleMouseEvent clientId message "scroll" pm; Some (pm, [])
  else Some (pm, []).

(** [onClientConnected]: the plug-in list goes to the new client. *)
Definition onClientConnected (clientId : string) (pm : PluginManager) : list Send :=
  sendPluginList clientId pm.

(** [onClientDisconnected]. *)
Definition onClientDisconnected (clientId : string) (pm : PluginManager)
  : PluginManager :=
  unloadAllForClient clientId pm.

End MainComponent.
End MainComponent.

(** ** More values for concrete runs *)

Module Samples.

Definition double_le_zero (d : Z) : bool := d <=? 0.

Definition rate_44100 : Z := 44100.

Definition getParameter (p : list (string * Z)) (i : Z) : Z :=
  (nth (Z.to_nat i) p ("", 0)).2.

Definition var_to_int (v : @var Demo.host) : Z := Demo.var_to_double v.

Definition int_to_float (z : Z) : Z := z.

Definition wheel_deltaY (delta : Z) : Z := delta.

Definition editor_call (call : @MainComponent.MouseCall Demo.host)
    (inst : @PluginInstance Demo.host) : @PluginInstance Demo.host := inst.

(** A parser that knows one text, the empty array. *)
Definition parse (text : string) : @var Demo.host :=
  if String.eqb text "[]" then VArray [] else VVoid.

Definition client_1 : Client :=
  {| socket_written := []; id := "client_1"; isWebSocket := true |}.

Definition client_2 : Client :=
  {| socket_written := []; id := "client_2"; isWebSocket := true |}.

(** A server with two clients and two listeners. *)
Definition two_clients : WebSocketServer :=
  {| clients := <["client_1" := client_1]> (<["client_2" := client_2]> ∅);
     listeners := [1%nat; 2%nat];
     notifications := [] |}.


(** A registry that lists the plug-in [X] twice under one path. *)
Definition listed_twice : @PluginManager Demo.host :=
  {| availablePlugins :=
       [Demo.X_plugin;
        {| name := "Y"; manufacturerName := "Nova"; category := "Fx";
           fileOrIdentifier := "/x.plugin" |}];
     activeInstances := ∅; objects := ∅; destroyed := []; nextHandle := 0 |}.

(** A [PROCESS_AUDIO] request for slot [A] with two channels, the second
    shorter than the first. *)
Definition audio_request : @var Demo.host :=
  VObject [("action", VString "PROCESS_AUDIO"); ("slot_id", VString "A");
           ("channels", VArray [VArray [VInt 1; VInt 2]; VArray [VInt 3]])].

End Samples.

(** * Properties *)

(** ** Bytes and machine integers *)

Section Bytes.

Lemma uchar_range c : 0 <= uchar c < 256.
Proof.
  unfold uchar. pose proof (N_ascii_bounded c). lia.
Qed.

Lemma to_char_uchar c : to_char (uchar c) = c.
Proof.
  unfold to_char. rewrite Z.mod_small by apply uchar_range.
  unfold uchar. rewrite N2Z.id. apply ascii_N_embedding.
Qed.

Lemma uchar_to_char z : uchar (to_char z) = z mod 256.
Proof.
  unfold uchar, to_char.
  assert (0 <= z mod 256 < 256) by (apply Z.mod_pos_bound; lia).
  rewrite N_ascii_embedding by lia. lia.
Qed.

Lemma uchar_to_char_small z : 0 <= z < 256 -> uchar (to_char z) = z.
Proof. intros. rewrite uchar_to_char. apply Z.mod_small; lia. Qed.

Lemma uchar_inj a b : uchar a = uchar b -> a = b.
Proof. intros H. rewrite <- (to_char_uchar a), <- (to_char_uchar b). by rewrite H. Qed.

Lemma char_xor_cancel c k : char_xor (char_xor c k) k = c.
Proof.
  destruct c, k; simpl.
  repeat match goal with |- context [xorb (xorb ?a ?b) ?b] =>
    replace (xorb (xorb a b) b) with a by (destruct a, b; reflexivity) end.
  reflexivity.
Qed.

Lemma to_int_small z : - 2 ^ 31 <= z < 2 ^ 31 -> to_int z = z.
Proof. intros. unfold to_int. rewrite Z.mod_small; lia. Qed.

Lemma int_add_small x y :
  - 2 ^ 31 <= x + y < 2 ^ 31 -> int_add x y = Some (x + y).
Proof.
  intros. unfold int_add. cbv zeta.
  destruct (Z.leb_spec (- 2 ^ 31) (x + y)); [|lia].
  destruct (Z.ltb_spec (x + y) (2 ^ 31)); [reflexivity|lia].
Qed.

(** Disjoint bit ranges: [|] is [+]. *)
Lemma lor_disjoint_add a b k :
  0 <= k -> a mod 2 ^ k = 0 -> 0 <= b < 2 ^ k -> Z.lor a b = a + b.
Proof.
  intros Hk Ha Hb.
  rewrite Z.add_nocarry_lxor; [apply eq_sym, Z.lxor_lor|]; apply Z.bits_inj'; intros i Hi;
    rewrite Z.land_spec, Z.bits_0;
    destruct (Z.lt_ge_cases i k).
  - rewrite <- (Z.mod_pow2_bits_low a k i), Ha, Z.bits_0 by lia. reflexivity.
  - rewrite <- (Z.mod_small b (2 ^ k)) by lia.
    rewrite Z.mod_pow2_bits_high by lia. apply andb_false_r.
  - rewrite <- (Z.mod_pow2_bits_low a k i), Ha, Z.bits_0 by lia. reflexivity.
  - rewrite <- (Z.mod_small b (2 ^ k)) by lia.
    rewrite Z.mod_pow2_bits_high by lia. apply andb_false_r.
Qed.

End Bytes.

(** ** Strings as byte lists *)

Section Strings.

Lemma string_app_cons c s t : String c s +:+ t = String c (s +:+ t).
Proof. reflexivity. Qed.

Lemma string_app_empty_r s : s +:+ "" = s.
Proof. induction s as [|c s IH]; [reflexivity|]. by rewrite string_app_cons, IH. Qed.

Lemma string_app_assoc s t u : (s +:+ t) +:+ u = s +:+ (t +:+ u).
Proof. induction s as [|c s IH]; [reflexivity|]. by rewrite !string_app_cons, IH. Qed.

Lemma string_of_list_ascii_snoc l c :
  string_of_list_ascii (l ++ [c]) = string_of_list_ascii l +:+ String c EmptyString.
Proof. induction l as [|a l IH]; simpl; [reflexivity|]. by rewrite IH, string_app_cons. Qed.

Lemma length_list_ascii_of_string s :
  List.length (list_ascii_of_string s) = String.length s.
Proof. induction s; simpl; congruence. Qed.

Lemma char_at_nth s i : char_at s i = nth i (list_ascii_of_string s) NUL.
Proof.
  unfold char_at. revert i. induction s as [|c s IH]; intros [|i]; simpl; auto.
Qed.

(** The bytes of a text, none of them NUL. *)
Lemma is_text_Forall s :
  is_text s = true -> Forall (λ c, uchar c ≠ 0) (list_ascii_of_string s).
Proof.
  induction s as [|c s IH]; simpl; [constructor|].
  intros [Hc Hs]%andb_true_iff. constructor; [|auto].
  apply negb_true_iff, Z.eqb_neq in Hc. exact Hc.
Qed.

Lemma is_ascii_text_is_text s : is_ascii_text s = true -> is_text s = true.
Proof.
  induction s as [|c s IH]; simpl; [done|].
  intros [[Hc _]%andb_true_iff Hs]%andb_true_iff. rewrite Hc. simpl. auto.
Qed.

Lemma utf8_length_from_le b s : (utf8_length_from b s <= String.length s)%nat.
Proof.
  revert b. induction s as [|c s IH]; intros b; simpl; [lia|].
  destruct (b && _); [specialize (IH true)|specialize (IH (negb (Z.land (uchar c) 128 =? 0)))]; lia.
Qed.

Lemma utf8_length_le s : (utf8_length s <= String.length s)%nat.
Proof. apply utf8_length_from_le. Qed.

(** On 7-bit text, characters are bytes. *)
Lemma utf8_length_ascii s :
  is_ascii_text s = true -> utf8_length s = String.length s.
Proof.
  unfold utf8_length. induction s as [|c s IH]; simpl; [done|].
  intros [[_ Hc]%andb_true_iff Hs]%andb_true_iff.
  apply Z.ltb_lt in Hc. pose proof (uchar_range c).
  replace (Z.land (uchar c) 128) with 0; [simpl; auto|].
  symmetry. apply Z.bits_inj'. intros i Hi.
  rewrite Z.land_spec, Z.bits_0.
  destruct (Z.eq_dec i 7) as [->|].
  - rewrite <- (Z.mod_small (uchar c) (2 ^ 7)) by lia.
    rewrite Z.mod_pow2_bits_high by lia. reflexivity.
  - replace 128 with (2 ^ 7) by reflexivity.
    rewrite Z.pow2_bits_eqb by lia.
    destruct (Z.eqb_spec 7 i); [lia|]. apply andb_false_r.
Qed.

(** The payload loop of the encoder copies a prefix of the storage. *)
Lemma map_char_at_take s n :
  (n <= String.length s)%nat ->
  map (λ i, char_at s i) (seq 0 n) = take n (list_ascii_of_string s).
Proof.
  intros Hn. rewrite <- length_list_ascii_of_string in Hn.
  erewrite map_ext by (intros; apply char_at_nth).
  generalize dependent (list_ascii_of_string s). clear s.
  intros l. revert l. induction n as [|n IH]; intros l Hn; [by destruct l|].
  destruct l as [|c l]; simpl in *; [lia|].
  f_equal. rewrite <- seq_shift, map_map. apply IH. lia.
Qed.

End Strings.

(** ** The payload loop of the decoder *)

Section DecodeLoop.

Lemma append_char_app acc s c : append_char (acc +:+ s) c = acc +:+ append_char s c.
Proof.
  unfold append_char. destruct (uchar c =? 0); [reflexivity|apply string_app_assoc].
Qed.

Lemma from_bytes_snoc l c : from_bytes (l ++ [c]) = append_char (from_bytes l) c.
Proof. unfold from_bytes. by rewrite fold_left_app. Qed.

Lemma fold_append_char_text s acc :
  is_text s = true ->
  fold_left append_char (list_ascii_of_string s) acc = acc +:+ s.
Proof.
  revert acc. induction s as [|c s IH]; intros acc; simpl.
  - intros _. by rewrite string_app_empty_r.
  - intros [Hc Hs]%andb_true_iff. rewrite IH by assumption.
    unfold append_char. apply negb_true_iff in Hc. rewrite Hc.
    by rewrite string_app_assoc.
Qed.

(** Appending the bytes of a text one at a time rebuilds the text. *)
Lemma from_bytes_text s : is_text s = true -> from_bytes (list_ascii_of_string s) = s.
Proof. intros. unfold from_bytes. by rewrite fold_append_char_text. Qed.

Lemma decode_loop_unmasked pre payload post mk acc :
  fold_left (decode_step (pre ++ payload ++ post) false mk (Z.of_nat (List.length pre)))
            (seq 0 (List.length payload)) acc
  = acc +:+ from_bytes payload.
Proof.
  revert post acc. induction payload as [|c payload IH] using rev_ind; intros post acc.
  - simpl. by rewrite string_app_empty_r.
  - rewrite length_app. simpl. rewrite Nat.add_1_r, seq_S, fold_left_app. simpl.
    rewrite <- app_assoc. rewrite IH.
    unfold decode_step at 1. unfold data_at.
    rewrite <- Nat2Z.inj_add, Nat2Z.id.
    rewrite app_nth2_plus. simpl. rewrite nth_middle.
    by rewrite from_bytes_snoc, append_char_app.
Qed.

Lemma length_mask_payload key payload :
  List.length (mask_payload key payload) = List.length payload.
Proof. apply length_imap. Qed.

Lemma mask_payload_snoc key payload c :
  mask_payload key (payload ++ [c])
  = mask_payload key payload
    ++ [char_xor c (nth (List.length payload mod 4) key NUL)].
Proof.
  unfold mask_payload. rewrite imap_app. simpl. by rewrite Nat.add_0_r.
Qed.

Lemma decode_loop_masked pre key payload post acc :
  List.length key = 4%nat ->
  fold_left (decode_step (pre ++ key ++ mask_payload key payload ++ post) true
               (Z.of_nat (List.length pre)) (Z.of_nat (List.length pre) + 4))
            (seq 0 (List.length payload)) acc
  = acc +:+ from_bytes payload.
Proof.
  intros Hkey.
  revert post acc. induction payload as [|c payload IH] using rev_ind; intros post acc.
  - simpl. by rewrite string_app_empty_r.
  - rewrite length_app. simpl. rewrite Nat.add_1_r, seq_S, fold_left_app. simpl.
    rewrite mask_payload_snoc, <- app_assoc. rewrite IH.
    unfold decode_step at 1. unfold data_at.
    replace (Z.to_nat (Z.of_nat (List.length pre) + 4 + Z.of_nat (List.length payload)))
      with (List.length pre + (List.length key + List.length (mask_payload key payload)))%nat
      by (rewrite length_mask_payload, Hkey; lia).
    rewrite app_nth2_plus, app_nth2_plus. simpl. rewrite nth_middle.
    assert (Hlt : (List.length payload mod 4 < 4)%nat) by (apply Nat.mod_upper_bound; lia).
    replace (Z.to_nat (Z.of_nat (List.length pre) + Z.of_nat (List.length payload) mod 4))
      with (List.length pre + List.length payload mod 4)%nat
      by (rewrite <- (Nat2Z.inj_mod _ 4); lia).
    rewrite app_nth2_plus, app_nth1 by lia.
    rewrite char_xor_cancel.
    by rewrite from_bytes_snoc, append_char_app.
Qed.

End DecodeLoop.

(** ** Length fields *)

Section LengthFields.

Lemma land_128_small v : 0 <= v < 128 -> Z.land v 128 = 0.
Proof.
  intros Hv. apply Z.bits_inj'. intros i Hi.
  rewrite Z.land_spec, Z.bits_0.
  destruct (Z.eq_dec i 7) as [->|].
  - rewrite <- (Z.mod_small v (2 ^ 7)) by lia.
    rewrite Z.mod_pow2_bits_high by lia. reflexivity.
  - replace 128 with (2 ^ 7) by reflexivity.
    rewrite Z.pow2_bits_eqb by lia.
    destruct (Z.eqb_spec 7 i); [lia|]. apply andb_false_r.
Qed.

(** The second byte of a frame: mask bit and 7-bit length. *)
Lemma second_byte_fields maskBit v :
  maskBit = 0 ∨ maskBit = 128 -> 0 <= v < 128 ->
  uchar (to_char (Z.lor maskBit v)) = maskBit + v
  ∧ Z.land (maskBit + v) 0x80 = maskBit
  ∧ Z.land (maskBit + v) 0x7F = v.
Proof.
  intros Hm Hv.
  assert (Hlor : Z.lor maskBit v = maskBit + v).
  { apply (lor_disjoint_add _ _ 7); [lia| |lia]. by destruct Hm as [-> | ->]. }
  split; [|split].
  - rewrite Hlor. apply uchar_to_char_small. lia.
  - rewrite <- Hlor, Z.land_lor_distr_l, (land_128_small v) by lia.
    by destruct Hm as [-> | ->].
  - change 127 with (Z.ones 7). rewrite Z.land_ones by lia.
    destruct Hm as [-> | ->]; [apply Z.mod_small; lia|].
    change 128 with (1 * 2 ^ 7). rewrite Z.add_comm, Z.mod_add by lia.
    apply Z.mod_small; lia.
Qed.

Lemma byte_of_shift n k :
  0 <= n -> 0 <= k ->
  uchar (to_char (Z.land (Z.shiftr n k) 0xFF)) = (n / 2 ^ k) mod 256.
Proof.
  intros. rewrite uchar_to_char.
  change 255 with (Z.ones 8). rewrite Z.land_ones by lia.
  rewrite Z.shiftr_div_pow2 by lia. change (2 ^ 8) with 256.
  apply Z.mod_mod. lia.
Qed.

(** Two length bytes, most significant first. *)
Lemma be16_value n :
  0 <= n < 65536 ->
  Z.lor (Z.shiftl (uchar (to_char (Z.shiftr n 8))) 8)
        (uchar (to_char (Z.land n 0xFF))) = n.
Proof.
  intros Hn.
  rewrite uchar_to_char, Z.shiftr_div_pow2 by lia.
  rewrite uchar_to_char.
  change 255 with (Z.ones 8). rewrite Z.land_ones by lia.
  change (2 ^ 8) with 256. rewrite Z.mod_mod by lia.
  rewrite (Z.mod_small (n / 256)) by (split; [apply Z.div_pos; lia|apply Z.div_lt_upper_bound; lia]).
  rewrite Z.shiftl_mul_pow2 by lia.
  rewrite (lor_disjoint_add _ _ 8); [| lia | apply Z.mod_mul; lia | apply Z.mod_pos_bound; lia].
  change (2 ^ 8) with 256. pose proof (Z.div_mod n 256). lia.
Qed.

(** The four low bytes of the 64-bit form, as the decoder reads them. *)
Lemma be32_value n :
  0 <= n < 2 ^ 31 ->
  Z.lor (Z.lor (Z.lor
    (Z.shiftl (uchar (to_char (Z.land (Z.shiftr n (3 * 8)) 0xFF))) 24)
    (Z.shiftl (uchar (to_char (Z.land (Z.shiftr n (2 * 8)) 0xFF))) 16))
    (Z.shiftl (uchar (to_char (Z.land (Z.shiftr n (1 * 8)) 0xFF))) 8))
    (uchar (to_char (Z.land (Z.shiftr n (0 * 8)) 0xFF))) = n.
Proof.
  intros Hn. rewrite !byte_of_shift by lia.
  rewrite !Z.shiftl_mul_pow2 by lia.
  change (3 * 8) with 24. change (2 * 8) with 16. change (1 * 8) with 8. change (0 * 8) with 0.
  set (b3 := (n / 2 ^ 24) mod 256). set (b2 := (n / 2 ^ 16) mod 256).
  set (b1 := (n / 2 ^ 8) mod 256). set (b0 := (n / 2 ^ 0) mod 256).
  assert (0 <= b3 < 256) by (apply Z.mod_pos_bound; lia).
  assert (0 <= b2 < 256) by (apply Z.mod_pos_bound; lia).
  assert (0 <= b1 < 256) by (apply Z.mod_pos_bound; lia).
  assert (0 <= b0 < 256) by (apply Z.mod_pos_bound; lia).
  rewrite (lor_disjoint_add (b3 * 2 ^ 24) _ 24);
    [| lia | apply Z.mod_mul; lia | lia].
  rewrite (lor_disjoint_add _ (b1 * 2 ^ 8) 16); [| lia | | lia].
  2:{ replace (b3 * 2 ^ 24 + b2 * 2 ^ 16) with ((b3 * 2 ^ 8 + b2) * 2 ^ 16) by lia.
      apply Z.mod_mul; lia. }
  rewrite (lor_disjoint_add _ b0 8); [| lia | | lia].
  2:{ replace (b3 * 2 ^ 24 + b2 * 2 ^ 16 + b1 * 2 ^ 8)
        with ((b3 * 2 ^ 16 + b2 * 2 ^ 8 + b1) * 2 ^ 8) by lia.
      apply Z.mod_mul; lia. }
  subst b3 b2 b1 b0.
  pose proof (Z.div_mod n (2 ^ 8)).
  pose proof (Z.div_mod (n / 2 ^ 8) (2 ^ 8)).
  pose proof (Z.div_mod (n / 2 ^ 8 / 2 ^ 8) (2 ^ 8)).
  rewrite !Z.div_div in * by lia.
  change (2 ^ 8 * 2 ^ 8) with (2 ^ 16) in *.
  change (2 ^ 16 * 2 ^ 8) with (2 ^ 24) in *.
  change (2 ^ 0) with 1. rewrite Z.div_1_r.
  change 256 with (2 ^ 8).
  assert ((n / 2 ^ 24) mod 2 ^ 8 = n / 2 ^ 24).
  { apply Z.mod_small. split; [apply Z.div_pos; lia|apply Z.div_lt_upper_bound; lia]. }
  lia.
Qed.

End LengthFields.

(** ** The decoder on well-formed frames *)

(** Settles a test [a <? b] of the goal that arithmetic shows to be false. *)
Ltac ltb_false :=
  match goal with
  | |- context [?a <? ?b] => destruct (Z.ltb_spec a b); [lia|]
  end.

(** Settles a test [a <? b] of the goal that arithmetic shows to be true. *)
Ltac ltb_true :=
  match goal with
  | |- context [?a <? ?b] => destruct (Z.ltb_spec a b); [|lia]
  end.

Section DecodeFrame.

Lemma opcode_test b0 :
  data_opcode_ok b0 ->
  negb (Z.land (uchar b0) 15 =? 1) && negb (Z.land (uchar b0) 15 =? 2) = false.
Proof. intros [-> | ->]; reflexivity. Qed.

Lemma length_wire_length maskBit n :
  Z.of_nat (List.length (wire_length maskBit n))
  = if n <? 126 then 1 else if n <? 65536 then 3 else 9.
Proof. unfold wire_length. by repeat case_match. Qed.

Lemma decodeHeader_wire b0 maskBit n rest len :
  data_opcode_ok b0 ->
  maskBit = 0 ∨ maskBit = 128 ->
  0 <= n < 2 ^ 31 ->
  let hdr := 1 + Z.of_nat (List.length (wire_length maskBit n)) in
  hdr + (if maskBit =? 0 then 0 else 4) <= len ->
  decodeHeader (b0 :: wire_length maskBit n ++ rest) len
  = Some (negb (maskBit =? 0), n,
          if maskBit =? 0 then 0 else hdr,
          if maskBit =? 0 then hdr else hdr + 4).
Proof.
  intros Hop Hm Hn hdr Hlen. subst hdr. rewrite length_wire_length in *.
  unfold decodeHeader, wire_length.
  destruct (Z.ltb_spec n 126) as [Hs|Hs]; [|destruct (Z.ltb_spec n 65536) as [Hs'|Hs']].
  - destruct (second_byte_fields maskBit n Hm ltac:(lia)) as (E1 & E2 & E3).
    destruct (Z.ltb_spec len 2); [destruct Hm as [-> | ->]; simpl in Hlen; lia|].
    change (data_at (b0 :: _) 0) with b0. rewrite (opcode_test _ Hop).
    cbn [app]. change (data_at (b0 :: ?x :: _) 1) with x.
    rewrite E1, E2, E3.
    destruct (Z.eqb_spec n 126); [lia|]. destruct (Z.eqb_spec n 127); [lia|].
    cbn [mbind option_bind].
    destruct Hm as [-> | ->]; cbn [Z.eqb negb].
    + reflexivity.
    + simpl in Hlen. destruct (Z.ltb_spec len (2 + 4)); [lia|]. reflexivity.
  - destruct (second_byte_fields maskBit 126 Hm ltac:(lia)) as (E1 & E2 & E3).
    destruct (Z.ltb_spec len 2); [destruct Hm as [-> | ->]; simpl in Hlen; lia|].
    change (data_at (b0 :: _) 0) with b0. rewrite (opcode_test _ Hop).
    cbn [app].
    change (data_at (b0 :: ?x :: _) 1) with x.
    change (data_at (b0 :: _ :: ?x :: _) 2) with x.
    change (data_at (b0 :: _ :: _ :: ?x :: _) 3) with x.
    rewrite E1, E2, E3. cbn [Z.eqb Pos.eqb].
    destruct (Z.ltb_spec len 4); [destruct Hm as [-> | ->]; simpl in Hlen; lia|].
    rewrite be16_value by lia. rewrite to_int_small by lia.
    cbn [mbind option_bind].
    destruct Hm as [-> | ->]; cbn [Z.eqb negb].
    + reflexivity.
    + simpl in Hlen. destruct (Z.ltb_spec len (4 + 4)); [lia|]. reflexivity.
  - destruct (second_byte_fields maskBit 127 Hm ltac:(lia)) as (E1 & E2 & E3).
    destruct (Z.ltb_spec len 2); [destruct Hm as [-> | ->]; simpl in Hlen; lia|].
    change (data_at (b0 :: _) 0) with b0. rewrite (opcode_test _ Hop).
    cbn [app map].
    change (data_at (b0 :: ?x :: _) 1) with x.
    change (data_at (b0 :: _ :: _ :: _ :: _ :: _ :: ?x :: _) 6) with x.
    change (data_at (b0 :: _ :: _ :: _ :: _ :: _ :: _ :: ?x :: _) 7) with x.
    change (data_at (b0 :: _ :: _ :: _ :: _ :: _ :: _ :: _ :: ?x :: _) 8) with x.
    change (data_at (b0 :: _ :: _ :: _ :: _ :: _ :: _ :: _ :: _ :: ?x :: _) 9) with x.
    rewrite E1, E2, E3. cbn [Z.eqb Pos.eqb].
    destruct (Z.ltb_spec len 10); [destruct Hm as [-> | ->]; simpl in Hlen; lia|].
    rewrite be32_value by lia. rewrite to_int_small by lia.
    cbn [mbind option_bind].
    destruct Hm as [-> | ->]; cbn [Z.eqb negb].
    + reflexivity.
    + simpl in Hlen. destruct (Z.ltb_spec len (10 + 4)); [lia|]. reflexivity.
Qed.

(** The decoder returns the payload of any well-formed text or binary frame,
    masked or not, whatever the FIN and RSV bits of its first byte. *)
Lemma decode_wire_frame b0 key payload :
  data_opcode_ok b0 ->
  match key with Some k => List.length k = 4%nat | None => True end ->
  Z.of_nat (List.length payload) < 2 ^ 31 - 14 ->
  decodeWebSocketFrame (wire_frame b0 key payload)
                       (Z.of_nat (List.length (wire_frame b0 key payload)))
  = Some (from_bytes payload).
Proof.
  intros Hop Hkey Hn.
  set (n := Z.of_nat (List.length payload)) in *.
  assert (0 <= n) by (subst n; lia).
  unfold decodeWebSocketFrame.
  destruct key as [k|]; unfold wire_frame; fold n.
  - pose proof (length_wire_length 128 n) as Hw.
    assert (Hw' : 1 <= Z.of_nat (List.length (wire_length 128 n)) <= 9)
      by (rewrite Hw; repeat case_match; lia).
    rewrite decodeHeader_wire; [|done|by right|lia|].
    2:{ cbn [Z.eqb List.length]. rewrite !length_app. lia. }
    cbn [Z.eqb negb].
    rewrite int_add_small by lia.
    cbn [mbind option_bind List.length].
    rewrite !length_app, length_mask_payload, Hkey. fold n.
    subst n. ltb_false.
    rewrite int_add_small by lia. cbn [mbind option_bind].
    ltb_false. rewrite Nat2Z.id.
    pose proof (decode_loop_masked (b0 :: wire_length 128 (Z.of_nat (List.length payload)))
                  k payload [] "" Hkey) as Hloop.
    rewrite app_nil_r in Hloop. cbn [List.length] in Hloop.
    rewrite <- app_comm_cons in Hloop.
    replace (Z.of_nat (S (List.length (wire_length 128 (Z.of_nat (List.length payload))))))
      with (1 + Z.of_nat (List.length (wire_length 128 (Z.of_nat (List.length payload)))))
      in Hloop by lia.
    rewrite Hloop. reflexivity.
  - pose proof (length_wire_length 0 n) as Hw.
    assert (Hw' : 1 <= Z.of_nat (List.length (wire_length 0 n)) <= 9)
      by (rewrite Hw; repeat case_match; lia).
    rewrite decodeHeader_wire; [|done|by left|lia|].
    2:{ cbn [Z.eqb List.length]. rewrite !length_app. lia. }
    cbn [Z.eqb negb].
    rewrite int_add_small by lia.
    cbn [mbind option_bind List.length].
    rewrite !length_app. fold n.
    subst n. ltb_false.
    rewrite int_add_small by lia. cbn [mbind option_bind].
    ltb_false. rewrite Nat2Z.id.
    pose proof (decode_loop_unmasked (b0 :: wire_length 0 (Z.of_nat (List.length payload)))
                  payload [] 0 "") as Hloop.
    rewrite app_nil_r in Hloop. cbn [List.length] in Hloop.
    rewrite <- app_comm_cons in Hloop.
    replace (Z.of_nat (S (List.length (wire_length 0 (Z.of_nat (List.length payload))))))
      with (1 + Z.of_nat (List.length (wire_length 0 (Z.of_nat (List.length payload)))))
      in Hloop by lia.
    rewrite Hloop. reflexivity.
Qed.

End DecodeFrame.

(** ** The encoder *)

Section Encoder.

(** Below 65536 characters the encoder emits a well-formed unmasked text
    frame.  Its payload is the first [utf8_length message] bytes of the
    message: the length it declares and copies is a number of characters. *)
Lemma sendWebSocketFrame_defined message :
  Z.of_nat (utf8_length message) < 65536 ->
  sendWebSocketFrame message
  = Some (wire_frame (to_char 0x81) None
            (take (utf8_length message) (list_ascii_of_string message))).
Proof.
  intros HL. pose proof (utf8_length_le message) as Hle.
  unfold sendWebSocketFrame, wire_frame, wire_length.
  rewrite length_take, length_list_ascii_of_string, Nat.min_l by lia.
  rewrite to_int_small by lia. rewrite Nat2Z.id.
  rewrite map_char_at_take by lia.
  rewrite !Z.lor_0_l.
  destruct (Z.ltb_spec (Z.of_nat (utf8_length message)) 126); [reflexivity|].
  ltb_true. reflexivity.
Qed.

(** From 65536 characters on, the loop that writes the eight length bytes
    starts with [length >> 56] on a 32-bit [int]: no defined result. *)
Lemma sendWebSocketFrame_undefined message :
  65536 <= Z.of_nat (utf8_length message) < 2 ^ 31 ->
  sendWebSocketFrame message = None.
Proof.
  intros HL. unfold sendWebSocketFrame.
  rewrite to_int_small by lia.
  destruct (Z.ltb_spec (Z.of_nat (utf8_length message)) 126); [lia|].
  destruct (Z.ltb_spec (Z.of_nat (utf8_length message)) 65536); [lia|].
  reflexivity.
Qed.

(** Round trip through the unmasked encode path, for 7-bit text. *)
Lemma roundtrip_ascii message :
  is_ascii_text message = true ->
  Z.of_nat (String.length message) <= 65535 ->
  ∃ frame, sendWebSocketFrame message = Some frame
           ∧ decodeWebSocketFrame frame (Z.of_nat (List.length frame)) = Some message.
Proof.
  intros Hascii Hlen. pose proof (utf8_length_ascii _ Hascii) as HL.
  eexists. split.
  - apply sendWebSocketFrame_defined. lia.
  - rewrite HL, <- length_list_ascii_of_string, firstn_all.
    rewrite decode_wire_frame.
    + by rewrite from_bytes_text by by apply is_ascii_text_is_text.
    + left. reflexivity.
    + exact I.
    + rewrite length_list_ascii_of_string. lia.
Qed.

(** Round trip through the masked decode path, for any text and any key. *)
Lemma roundtrip_masked message key :
  is_text message = true ->
  List.length key = 4%nat ->
  Z.of_nat (String.length message) <= 65535 ->
  let frame := wire_frame (to_char 0x81) (Some key) (list_ascii_of_string message) in
  decodeWebSocketFrame frame (Z.of_nat (List.length frame)) = Some message.
Proof.
  intros Htext Hkey Hlen frame. subst frame.
  rewrite decode_wire_frame.
  - by rewrite from_bytes_text.
  - left. reflexivity.
  - exact Hkey.
  - rewrite length_list_ascii_of_string. lia.
Qed.

End Encoder.

(** ** More on decoded strings and long frames *)

Section LongFrames.

Lemma length_string_app s t :
  String.length (s +:+ t) = (String.length s + String.length t)%nat.
Proof. induction s as [|c s IH]; [done|]. rewrite string_app_cons. simpl. by rewrite IH. Qed.

Lemma length_string_of_list_ascii l :
  String.length (string_of_list_ascii l) = List.length l.
Proof. induction l; simpl; congruence. Qed.

Lemma length_append_char s c :
  (String.length (append_char s c) <= S (String.length s))%nat.
Proof.
  unfold append_char. destruct (uchar c =? 0); [lia|].
  rewrite length_string_app. simpl. lia.
Qed.

(** A decoded string is never longer than the payload it was read from. *)
Lemma length_from_bytes l : (String.length (from_bytes l) <= List.length l)%nat.
Proof.
  induction l as [|c l IH] using rev_ind; [simpl; lia|].
  rewrite from_bytes_snoc, length_app. simpl.
  pose proof (length_append_char (from_bytes l) c). lia.
Qed.

Lemma from_bytes_no_nul l :
  Forall (λ c, uchar c ≠ 0) l -> from_bytes l = string_of_list_ascii l.
Proof.
  induction l as [|c l IH] using rev_ind; intros Hl; [done|].
  apply Forall_app in Hl as [Hl Hc]. apply Forall_inv in Hc.
  rewrite from_bytes_snoc, IH, string_of_list_ascii_snoc by done.
  unfold append_char. by destruct (Z.eqb_spec (uchar c) 0).
Qed.

Lemma from_bytes_take_text s n :
  is_text s = true ->
  from_bytes (take n (list_ascii_of_string s))
  = string_of_list_ascii (take n (list_ascii_of_string s)).
Proof.
  intros Hs. apply from_bytes_no_nul, Forall_take, is_text_Forall, Hs.
Qed.

(** The decoder takes the length of a 64-bit form from its four low bytes
    and never reads the four high ones. *)
Lemma decode_long_frame b0 high payload :
  data_opcode_ok b0 ->
  List.length high = 4%nat ->
  Z.of_nat (List.length payload) < 2 ^ 31 - 14 ->
  decodeWebSocketFrame (long_frame b0 high payload)
                       (Z.of_nat (List.length (long_frame b0 high payload)))
  = Some (from_bytes payload).
Proof.
  intros Hop Hhigh Hn.
  destruct high as [|h7 [|h6 [|h5 [|h4 [|]]]]]; try discriminate. clear Hhigh.
  set (n := Z.of_nat (List.length payload)).
  assert (0 <= n) by (subst n; lia).
  unfold decodeWebSocketFrame, decodeHeader, long_frame. fold n.
  cbn [app map List.length].
  ltb_false.
  change (data_at (b0 :: _) 0) with b0. rewrite (opcode_test _ Hop).
  change (data_at (b0 :: ?x :: _) 1) with x.
  change (data_at (b0 :: _ :: _ :: _ :: _ :: _ :: ?x :: _) 6) with x.
  change (data_at (b0 :: _ :: _ :: _ :: _ :: _ :: _ :: ?x :: _) 7) with x.
  change (data_at (b0 :: _ :: _ :: _ :: _ :: _ :: _ :: _ :: ?x :: _) 8) with x.
  change (data_at (b0 :: _ :: _ :: _ :: _ :: _ :: _ :: _ :: _ :: ?x :: _) 9) with x.
  rewrite (uchar_to_char_small 127) by lia.
  change (Z.land 127 128 =? 0) with true.
  change (Z.land 127 127 =? 126) with false.
  change (Z.land 127 127 =? 127) with true.
  cbn [negb]. ltb_false.
  rewrite be32_value by lia. rewrite to_int_small by lia.
  cbn [mbind option_bind].
  rewrite int_add_small by lia. cbn [mbind option_bind].
  ltb_false.
  rewrite int_add_small by lia. cbn [mbind option_bind].
  ltb_false. subst n. rewrite Nat2Z.id.
  pose proof (decode_loop_unmasked
    [b0; to_char 127; h7; h6; h5; h4;
     to_char (Z.land (Z.shiftr (Z.of_nat (List.length payload)) (3 * 8)) 255);
     to_char (Z.land (Z.shiftr (Z.of_nat (List.length payload)) (2 * 8)) 255);
     to_char (Z.land (Z.shiftr (Z.of_nat (List.length payload)) (1 * 8)) 255);
     to_char (Z.land (Z.shiftr (Z.of_nat (List.length payload)) (0 * 8)) 255)]
    payload [] 0 "") as Hloop.
  rewrite app_nil_r in Hloop. cbn [List.length app] in Hloop.
  change (Z.of_nat 10) with 10 in Hloop. by rewrite Hloop.
Qed.

End LongFrames.

(** ** The first byte of a frame *)

Section FirstByte.

Lemma uchar_with_fin_opcode fin b :
  Z.land (uchar (with_fin fin b)) 0x0F = Z.land (uchar b) 0x0F.
Proof.
  destruct b as [b0 b1 b2 b3 b4 b5 b6 b7].
  destruct fin, b0, b1, b2, b3, b4, b5, b6, b7; reflexivity.
Qed.

Lemma data_at_cons_pos b rest i : 1 <= i -> data_at (b :: rest) i = data_at rest (i - 1).
Proof.
  intros Hi. unfold data_at.
  replace (Z.to_nat i) with (S (Z.to_nat (i - 1))) by lia. reflexivity.
Qed.

(** The header depends on the first byte through its opcode nibble only. *)
Lemma decodeHeader_first_byte b b' rest len :
  Z.land (uchar b) 0x0F = Z.land (uchar b') 0x0F ->
  decodeHeader (b :: rest) len = decodeHeader (b' :: rest) len.
Proof.
  intros H. unfold decodeHeader.
  change (data_at (b :: rest) 0) with b. change (data_at (b' :: rest) 0) with b'.
  rewrite !(data_at_cons_pos b), !(data_at_cons_pos b') by lia.
  rewrite H. reflexivity.
Qed.

Lemma decodeHeader_offsets data len masked payloadLength maskKey offset :
  decodeHeader data len = Some (masked, payloadLength, maskKey, offset) ->
  2 <= offset ∧ (masked = true -> 2 <= maskKey).
Proof.
  unfold decodeHeader. intros H.
  repeat (case_match; simplify_option_eq; try lia); try done.
Qed.

Lemma decode_step_first_byte b b' rest masked maskKey offset result i :
  1 <= offset -> (masked = true -> 1 <= maskKey) ->
  decode_step (b :: rest) masked maskKey offset result i
  = decode_step (b' :: rest) masked maskKey offset result i.
Proof.
  intros Ho Hm. unfold decode_step.
  rewrite (data_at_cons_pos b), (data_at_cons_pos b') by lia.
  destruct masked; [|reflexivity].
  assert (0 <= Z.of_nat i mod 4) by (apply Z.mod_pos_bound; lia).
  rewrite (data_at_cons_pos b), (data_at_cons_pos b') by (specialize (Hm eq_refl); lia).
  reflexivity.
Qed.

Lemma fold_left_pointwise {A B} (f g : A -> B -> A) l a :
  (∀ x y, f x y = g x y) -> fold_left f l a = fold_left g l a.
Proof. intros E. revert a. induction l as [|y l IH]; intros a; simpl; [done|]. by rewrite E, IH. Qed.

Lemma decode_first_byte b b' rest len :
  Z.land (uchar b) 0x0F = Z.land (uchar b') 0x0F ->
  decodeWebSocketFrame (b :: rest) len = decodeWebSocketFrame (b' :: rest) len.
Proof.
  intros H. unfold decodeWebSocketFrame.
  rewrite (decodeHeader_first_byte b b' rest len H).
  destruct (decodeHeader (b' :: rest) len) as [[[[masked pl] mk] off]|] eqn:Hh; [|done].
  apply decodeHeader_offsets in Hh as [Ho Hm].
  destruct (int_add off pl); [|done]. cbn [mbind option_bind].
  case_match; [done|].
  destruct (int_add pl 1); [|done]. cbn [mbind option_bind].
  case_match; [done|].
  f_equal. apply fold_left_pointwise. intros r i.
  apply decode_step_first_byte; [lia|]. intros Hk. specialize (Hm Hk). lia.
Qed.

End FirstByte.

(** ** The session registry *)

Section RegistryFacts.

Context `{Host : PluginHost}.
Implicit Types (pm : PluginManager) (h : nat) (k key : string).

Lemma startsWith_app p t : startsWith (p +:+ t) p = true.
Proof.
  induction p as [|c p IH]; [by destruct t|].
  rewrite string_app_cons. simpl. rewrite IH.
  by rewrite Ascii.eqb_refl.
Qed.

Lemma startsWith_makeKey clientId slotId :
  startsWith (makeKey clientId slotId) (clientId +:+ "_") = true.
Proof. unfold makeKey. rewrite <- string_app_assoc. apply startsWith_app. Qed.

Lemma activeInstances_erase key pm :
  activeInstances (erase key pm) = delete key (activeInstances pm).
Proof. unfold erase. by destruct (activeInstances pm !! key). Qed.

Lemma erase_absent key pm : activeInstances pm !! key = None -> erase key pm = pm.
Proof.
  intros Hk. unfold erase. rewrite Hk. unfold set_activeInstances.
  rewrite delete_id by done. by destruct pm.
Qed.

Lemma registry_ok_erase key pm : registry_ok pm -> registry_ok (erase key pm).
Proof.
  intros Hok. unfold erase.
  destruct (activeInstances pm !! key) as [o|] eqn:Hkey.
  - split; simpl.
    + intros k h Hk. apply lookup_delete_Some in Hk as [Hne Hk].
      rewrite lookup_delete_ne; [by eapply ok_live|].
      intros ->. by apply Hne, (ok_unique _ Hok _ _ _ Hkey Hk).
    + intros h Hh. destruct (decide (o = h)) as [->|Hne];
        [by rewrite lookup_delete_eq in Hh; destruct Hh|].
      rewrite lookup_delete_ne in Hh by done.
      destruct (ok_owned _ Hok _ Hh) as [k Hk]. exists k.
      rewrite lookup_delete_ne; [done|]. intros ->. congruence.
    + intros k1 k2 h [_ H1]%lookup_delete_Some [_ H2]%lookup_delete_Some.
      by eapply ok_unique.
    + intros h Hh. destruct (decide (o = h)) as [->|Hne];
        [by rewrite lookup_delete_eq in Hh; destruct Hh|].
      rewrite lookup_delete_ne in Hh by done. by apply ok_below.
    + intros h [Hh | ->%list_elem_of_singleton]%elem_of_app.
      * destruct (ok_dead _ Hok _ Hh) as [Hn Hlt]. split; [|done].
        destruct (decide (o = h)) as [->|Hne];
          [apply lookup_delete_eq|by rewrite lookup_delete_ne].
      * split; [apply lookup_delete_eq|]. eapply ok_below, ok_live; eauto.
    + apply NoDup_app. split; [by apply ok_once|]. split; [|apply NoDup_singleton].
      intros h Hh ->%list_elem_of_singleton.
      destruct (ok_dead _ Hok _ Hh) as [Hn _].
      destruct (ok_live _ Hok _ _ Hkey) as [? ?]. congruence.
  - replace (set_activeInstances _ pm) with pm; [done|].
    unfold set_activeInstances. rewrite delete_id by done. by destruct pm.
Qed.

Lemma registry_ok_unloadPlugin clientId slotId pm :
  registry_ok pm -> registry_ok (unloadPlugin clientId slotId pm).
Proof. apply registry_ok_erase. Qed.

Lemma objects_erase_other key pm k h :
  registry_ok pm -> k ≠ key -> activeInstances pm !! k = Some h ->
  objects (erase key pm) !! h = objects pm !! h.
Proof.
  intros Hok Hne Hk. unfold erase.
  destruct (activeInstances pm !! key) as [o|] eqn:Hkey; [|done].
  simpl. apply lookup_delete_ne. intros ->.
  by apply Hne, (ok_unique _ Hok _ _ _ Hk Hkey).
Qed.

(** The loop of [unloadAllForClient], over any list of entries. *)
Lemma unload_loop_lookup prefix (l : list (string * nat)) pm k :
  activeInstances (fold_left (unload_step prefix) l pm) !! k
  = if startsWith k prefix && bool_decide (k ∈ l.*1) then None
    else activeInstances pm !! k.
Proof.
  revert pm. induction l as [|[k0 h0] l IH]; intros pm.
  - simpl. by rewrite andb_false_r.
  - rewrite fmap_cons. cbn [fold_left fst].
    rewrite IH. unfold unload_step. cbn [fst].
    destruct (startsWith k prefix) eqn:Hk; simpl.
    + destruct (decide (k = k0)) as [->|Hne].
      * rewrite Hk, activeInstances_erase, lookup_delete_eq.
        rewrite (bool_decide_eq_true_2 (k0 ∈ k0 :: l.*1)) by left.
        by destruct (bool_decide (k0 ∈ l.*1)).
      * assert (bool_decide (k ∈ k0 :: l.*1) = bool_decide (k ∈ l.*1)) as ->.
        { apply bool_decide_ext. rewrite elem_of_cons. tauto. }
        case_bool_decide; [done|].
        destruct (startsWith k0 prefix); [|done].
        by rewrite activeInstances_erase, lookup_delete_ne.
    + destruct (startsWith k0 prefix) eqn:Hk0; [|done].
      rewrite activeInstances_erase, lookup_delete_ne; [done|].
      intros ->. congruence.
Qed.

Lemma unloadAllForClient_lookup clientId pm k :
  activeInstances (unloadAllForClient clientId pm) !! k
  = if startsWith k (clientId +:+ "_") then None else activeInstances pm !! k.
Proof.
  unfold unloadAllForClient. rewrite unload_loop_lookup.
  destruct (startsWith k (clientId +:+ "_")); [|done]. simpl.
  case_bool_decide as Hin; [done|].
  apply not_elem_of_dom. intros Hd. apply Hin.
  apply elem_of_dom in Hd as [h Hh].
  apply list_elem_of_fmap. exists (k, h). split; [done|].
  by apply elem_of_map_to_list.
Qed.

Lemma unload_loop_ok prefix (l : list (string * nat)) pm :
  registry_ok pm -> registry_ok (fold_left (unload_step prefix) l pm).
Proof.
  revert pm. induction l as [|e l IH]; intros pm Hok; simpl; [done|].
  apply IH. unfold unload_step. destruct (startsWith e.1 prefix); [|done].
  by apply registry_ok_erase.
Qed.

Lemma unload_loop_objects prefix (l : list (string * nat)) pm k h :
  registry_ok pm -> startsWith k prefix = false ->
  activeInstances pm !! k = Some h ->
  objects (fold_left (unload_step prefix) l pm) !! h = objects pm !! h.
Proof.
  revert pm. induction l as [|[k0 h0] l IH]; intros pm Hok Hk Hh; simpl; [done|].
  unfold unload_step at 2. simpl.
  destruct (startsWith k0 prefix) eqn:Hk0; [|by apply IH].
  assert (k ≠ k0) by (intros ->; congruence).
  rewrite IH; [by eapply objects_erase_other| by apply registry_ok_erase | done |].
  by rewrite activeInstances_erase, lookup_delete_ne.
Qed.

(** What [loadPlugin] leaves behind when it succeeds. *)
Lemma loadPlugin_success clientId slotId path sampleRate pm pm' :
  loadPlugin clientId slotId path sampleRate pm = (true, pm') ->
  ∃ inst, pm' = assign (makeKey clientId slotId) (nextHandle pm) (make_unique inst pm).2.
Proof.
  unfold loadPlugin. intros H.
  destruct (match List.find _ _ with Some plugin => Some plugin | None => _ end)
    as [desc|]; [|discriminate].
  destruct (createPluginInstance desc sampleRate) as [instance|]; [|discriminate].
  unfold make_unique in *. injection H as <-. eexists. reflexivity.
Qed.

Lemma assign_lookup key h pm : activeInstances (assign key h pm) !! key = Some h.
Proof.
  unfold assign. destruct (activeInstances pm !! key); simpl; apply lookup_insert_eq.
Qed.

Lemma registry_ok_store key inst pm :
  registry_ok pm ->
  registry_ok (assign key (nextHandle pm) (make_unique inst pm).2).
Proof.
  intros Hok. unfold assign, make_unique. simpl.
  assert (Hfresh : ∀ k, activeInstances pm !! k ≠ Some (nextHandle pm)).
  { intros k Hk. apply (ok_live _ Hok), (ok_below _ Hok) in Hk. lia. }
  assert (Hnew : objects pm !! nextHandle pm = None).
  { destruct (objects pm !! nextHandle pm) eqn:E; [|done].
    assert (nextHandle pm < nextHandle pm)%nat by (apply (ok_below _ Hok); eauto). lia. }
  destruct (activeInstances pm !! key) as [o|] eqn:Hkey; split; simpl.
  - intros k h Hk. apply lookup_insert_Some in Hk as [[<- <-]|[Hne Hk]].
    + rewrite lookup_delete_ne, lookup_insert_eq; [eauto|].
      intros ->. by apply (Hfresh key).
    + rewrite lookup_delete_ne, lookup_insert_ne.
      * by eapply ok_live.
      * intros <-. by apply (Hfresh k).
      * intros ->. by apply Hne, (ok_unique _ Hok _ _ _ Hkey Hk).
  - intros h Hh. destruct (decide (o = h)) as [->|Hne];
      [by rewrite lookup_delete_eq in Hh; destruct Hh|].
    rewrite lookup_delete_ne in Hh by done.
    destruct (decide (nextHandle pm = h)) as [<-|Hne'].
    + exists key. apply lookup_insert_eq.
    + rewrite lookup_insert_ne in Hh by done.
      destruct (ok_owned _ Hok _ Hh) as [k Hk]. exists k.
      rewrite lookup_insert_ne; [done|]. intros ->. congruence.
  - intros k1 k2 h H1 H2.
    apply lookup_insert_Some in H1 as [[<- <-]|[Hne1 H1]];
      apply lookup_insert_Some in H2 as [[<- E]|[Hne2 H2]]; try done.
    + by destruct (Hfresh k2).
    + subst. by destruct (Hfresh k1).
    + by eapply ok_unique.
  - intros h Hh. destruct (decide (o = h)) as [->|Hne];
      [by rewrite lookup_delete_eq in Hh; destruct Hh|].
    rewrite lookup_delete_ne in Hh by done.
    destruct (decide (nextHandle pm = h)) as [<-|Hne']; [lia|].
    rewrite lookup_insert_ne in Hh by done.
    apply (ok_below _ Hok) in Hh. lia.
  - intros h [Hh | ->%list_elem_of_singleton]%elem_of_app.
    + destruct (ok_dead _ Hok _ Hh) as [Hn Hlt]. split; [|lia].
      destruct (decide (o = h)) as [->|Hne]; [apply lookup_delete_eq|].
      rewrite lookup_delete_ne, lookup_insert_ne by (done || lia). done.
    + split; [apply lookup_delete_eq|].
      assert (o < nextHandle pm)%nat by (eapply ok_below, ok_live; eauto). lia.
  - apply NoDup_app. split; [by apply ok_once|]. split; [|apply NoDup_singleton].
    intros h Hh ->%list_elem_of_singleton.
    destruct (ok_dead _ Hok _ Hh) as [Hn _].
    destruct (ok_live _ Hok _ _ Hkey) as [? ?]. congruence.
  - intros k h Hk. apply lookup_insert_Some in Hk as [[<- <-]|[Hne Hk]].
    + rewrite lookup_insert_eq. eauto.
    + rewrite lookup_insert_ne; [by eapply ok_live|].
      intros <-. by apply (Hfresh k).
  - intros h Hh. destruct (decide (nextHandle pm = h)) as [<-|Hne'].
    + exists key. apply lookup_insert_eq.
    + rewrite lookup_insert_ne in Hh by done.
      destruct (ok_owned _ Hok _ Hh) as [k Hk]. exists k.
      rewrite lookup_insert_ne; [done|]. intros ->. congruence.
  - intros k1 k2 h H1 H2.
    apply lookup_insert_Some in H1 as [[<- <-]|[Hne1 H1]];
      apply lookup_insert_Some in H2 as [[<- E]|[Hne2 H2]]; try done.
    + by destruct (Hfresh k2).
    + subst. by destruct (Hfresh k1).
    + by eapply ok_unique.
  - intros h Hh. destruct (decide (nextHandle pm = h)) as [<-|Hne']; [lia|].
    rewrite lookup_insert_ne in Hh by done.
    apply (ok_below _ Hok) in Hh. lia.
  - intros h Hh. destruct (ok_dead _ Hok _ Hh) as [Hn Hlt]. split; [|lia].
    rewrite lookup_insert_ne by lia. done.
  - by apply ok_once.
Qed.

End RegistryFacts.

(** ** Client-ids the server assigns *)

Section AssignedIds.

Lemma startsWith_cons c s p q :
  startsWith (String c s) (String p q) = Ascii.eqb c p && startsWith s q.
Proof. reflexivity. Qed.

Lemma string_app_nil_l t : "" +:+ t = t.
Proof. reflexivity. Qed.

Lemma no_underscore_cons c s :
  no_underscore (String c s) = negb (Ascii.eqb c "_") && no_underscore s.
Proof. reflexivity. Qed.

Lemma no_underscore_pretty_N_go x s :
  no_underscore s = true -> no_underscore (pretty_N_go x s) = true.
Proof.
  revert s. induction (N.lt_wf_0 x) as [x _ IH]; intros s Hs.
  assert (x = 0 ∨ 0 < x)%N as [->|Hx] by lia; [by rewrite pretty_N_go_0|].
  rewrite pretty_N_go_step by done. apply IH; [by apply N.div_lt|].
  rewrite no_underscore_cons, Hs. unfold pretty_N_char. by repeat case_match.
Qed.

Lemma no_underscore_pretty_N (x : N) : no_underscore (pretty x) = true.
Proof.
  unfold pretty, pretty_N. case_decide; [done|]. by apply no_underscore_pretty_N_go.
Qed.

(** A number in decimal has no underscore. *)
Lemma no_underscore_pretty_Z (z : Z) : no_underscore (pretty z) = true.
Proof.
  destruct z as [|p|p]; [done| |].
  - apply (no_underscore_pretty_N (Npos p)).
  - change (pretty (Z.neg p)) with ("-" +:+ pretty (Npos p)).
    rewrite string_app_cons, no_underscore_cons. apply (no_underscore_pretty_N (Npos p)).
Qed.

(** Keys of underscore-free ids: the id is the text before the first
    underscore. *)
Lemma startsWith_underscore_free a b s :
  no_underscore a = true -> no_underscore b = true ->
  startsWith (b +:+ "_" +:+ s) (a +:+ "_") = true -> a = b.
Proof.
  revert b. induction a as [|x a IH]; intros [|y b] Ha Hb H; [done| | |];
    repeat rewrite ?string_app_nil_l, ?string_app_cons in H;
    rewrite startsWith_cons in H;
    apply andb_true_iff in H as [Hc H]; apply Ascii.eqb_eq in Hc.
  - subst y. by rewrite no_underscore_cons, Ascii.eqb_refl in Hb.
  - subst x. by rewrite no_underscore_cons, Ascii.eqb_refl in Ha.
  - subst y. rewrite no_underscore_cons in Ha, Hb.
    apply andb_true_iff in Ha as [_ Ha]. apply andb_true_iff in Hb as [_ Hb].
    f_equal. by apply IH.
Qed.

(** No key of one assigned id starts with another assigned id and an
    underscore. *)
Lemma assigned_ids_apart `{Host : PluginHost} now now' slotId :
  now' ≠ now ->
  startsWith (makeKey (assigned_id now') slotId) (assigned_id now +:+ "_") = false.
Proof.
  intros Hne.
  destruct (startsWith (makeKey (assigned_id now') slotId) (assigned_id now +:+ "_")) eqn:E;
    [|done].
  destruct Hne. apply (inj pretty). symmetry.
  apply (startsWith_underscore_free (pretty now) (pretty now') slotId);
    [apply no_underscore_pretty_Z..|].
  exact E.
Qed.

End AssignedIds.

(** ** Handshake and registration *)

Section HandshakeFacts.

Variable sha1_base64 : string -> string.

Lemma find_none_all {A} (f : A -> bool) (l : list A) :
  (∀ x, x ∈ l -> f x = false) -> List.find f l = None.
Proof.
  induction l as [|a l IH]; intros H; simpl; [done|].
  rewrite (H a) by left. apply IH. intros x Hx. apply H. by right.
Qed.

(** Without a key line the handshake writes nothing. *)
Lemma handshake_without_key client request :
  (∀ line, line ∈ fromLines request ->
           startsWithIgnoreCase line "Sec-WebSocket-Key:" = false) ->
  performWebSocketHandshake sha1_base64 client request = client.
Proof.
  intros H. unfold performWebSocketHandshake, extract_key.
  by rewrite find_none_all.
Qed.

(** [handleNewConnection] registers clients under assigned ids only. *)
Lemma handleNewConnection_ids now ready bytesRead buffer server :
  ids_assigned server ->
  ids_assigned (handleNewConnection sha1_base64 now ready bytesRead buffer server).
Proof.
  intros Hids. unfold handleNewConnection.
  repeat case_match; try done.
  intros k Hk. cbn [clients] in Hk.
  destruct (decide (assigned_id now = k)) as [<-|Hne]; [by eexists|].
  rewrite lookup_insert_ne in Hk by done. by apply Hids.
Qed.

(** A message for [client] reaches no socket. *)
Lemma send_to_client_is_dropped jsonStr server :
  ids_assigned server -> send "client" jsonStr server = Some server.
Proof.
  intros Hids. unfold send.
  destruct (clients server !! "client") as [c|] eqn:E; [|done].
  destruct (Hids "client") as [now Hnow]; [by rewrite E|].
  unfold assigned_id in Hnow. discriminate.
Qed.

End HandshakeFacts.

(** ** Handlers *)

Section HandlerFacts.

Context `{Host : PluginHost}.
Variable describe : var -> string.
Variable var_to_double : var -> Double.

Lemma find_parameter_first processor paramName i :
  find_parameter processor paramName = Some i ->
  0 <= i < getNumParameters processor
  ∧ getParameterName processor i = paramName
  ∧ ∀ j, 0 <= j < i -> getParameterName processor j ≠ paramName.
Proof.
  unfold find_parameter. intros H.
  assert (G : ∀ n start,
    List.find (λ i, String.eqb (getParameterName processor i) paramName)
              (map Z.of_nat (seq start n)) = Some i ->
    Z.of_nat start <= i < Z.of_nat (start + n)
    ∧ getParameterName processor i = paramName
    ∧ ∀ j, Z.of_nat start <= j < i -> getParameterName processor j ≠ paramName).
  { clear H. induction n as [|n IH]; intros start Hf; simpl in Hf; [done|].
    destruct (String.eqb_spec (getParameterName processor (Z.of_nat start)) paramName) as [E|E].
    - injection Hf as <-. split; [lia|]. split; [done|]. intros j Hj. lia.
    - destruct (IH _ Hf) as (Hr & Hn & Hm). split; [lia|]. split; [done|].
      intros j Hj. destruct (Z.eq_dec j (Z.of_nat start)) as [->|]; [done|].
      apply Hm. lia. }
  destruct (G _ 0%nat H) as (Hr & Hn & Hm).
  split; [lia|]. split; [done|].
  intros j Hj. apply Hm. lia.
Qed.

Lemma find_parameter_none processor paramName :
  find_parameter processor paramName = None ->
  ∀ j, 0 <= j < getNumParameters processor ->
       getParameterName processor j ≠ paramName.
Proof.
  unfold find_parameter. intros H j Hj E.
  pose proof (find_none _ _ H (Z.of_nat (Z.to_nat j))) as Hnone.
  rewrite Z2Nat.id in Hnone by lia.
  rewrite (proj2 (String.eqb_eq _ _) E) in Hnone.
  assert (true = false); [|done].
  apply Hnone. rewrite <- (Z2Nat.id j) by lia. apply in_map, in_seq. lia.
Qed.

(** Replacing a live object keeps the registry in order. *)
Lemma registry_ok_update h inst pm :
  registry_ok pm -> is_Some (objects pm !! h) ->
  registry_ok {| availablePlugins := availablePlugins pm;
                 activeInstances := activeInstances pm;
                 objects := <[h := inst]> (objects pm);
                 destroyed := destroyed pm;
                 nextHandle := nextHandle pm |}.
Proof.
  intros Hok Hlive. split; cbn.
  - intros k h0 Hk. destruct (decide (h = h0)) as [->|Hne].
    + rewrite lookup_insert_eq. eauto.
    + rewrite lookup_insert_ne by done. by eapply ok_live.
  - intros h0 Hh0. destruct (decide (h = h0)) as [<-|Hne].
    + by apply ok_owned.
    + rewrite lookup_insert_ne in Hh0 by done. by apply ok_owned.
  - apply (ok_unique _ Hok).
  - intros h0 Hh0. destruct (decide (h = h0)) as [<-|Hne].
    + by apply ok_below.
    + rewrite lookup_insert_ne in Hh0 by done. by apply ok_below.
  - intros h0 Hh0. destruct (ok_dead _ Hok _ Hh0) as [Hn Hlt]. split; [|done].
    rewrite lookup_insert_ne; [done|]. intros ->. destruct Hlive. congruence.
  - apply (ok_once _ Hok).
Qed.

Lemma registry_ok_handleSetParam clientId data pm pm' sends :
  registry_ok pm ->
  handleSetParam describe var_to_double clientId data pm = Some (pm', sends) ->
  registry_ok pm'.
Proof.
  intros Hok. unfold handleSetParam.
  destruct (getInstance _ _ pm) as [h|]; cbn [mbind option_bind].
  - destruct (objects pm !! h) as [inst|] eqn:Hh; cbn [mbind option_bind]; [|done].
    intros [= <- _]. apply registry_ok_update; [done|by rewrite Hh].
  - by intros [= <- _].
Qed.

Lemma registry_ok_handleProcessAudio clientId data pm pm' sends :
  registry_ok pm ->
  handleProcessAudio describe var_to_double clientId data pm = Some (pm', sends) ->
  registry_ok pm'.
Proof.
  intros Hok. unfold handleProcessAudio.
  destruct (getInstance _ _ pm) as [h|]; [|by intros [= <- _]].
  destruct (negb _); [by intros [= <- _]|].
  destruct (getArray (property data "channels")); cbn [mbind option_bind]; [|done].
  destruct (objects pm !! h) as [inst|] eqn:Hh; cbn [mbind option_bind]; [|done].
  destruct (getArray _); cbn [mbind option_bind]; [|done].
  destruct (mapM _ _); cbn [mbind option_bind]; [|done].
  destruct (processBlock _ _). intros [= <- _].
  apply registry_ok_update; [done|by rewrite Hh].
Qed.

(** Tokens of a key whose client-id starts with [client_]. *)
Lemma fromTokens_client_key tail :
  fromTokens ("client_" +:+ tail) = "client" :: fromTokens_from "" tail.
Proof. reflexivity. Qed.

Lemma fromTokens_from_length token s : (1 <= List.length (fromTokens_from token s))%nat.
Proof.
  revert token. induction s as [|c s IH]; intros token; simpl; [lia|].
  destruct (Ascii.eqb c "_"); simpl; [lia|apply IH].
Qed.

Lemma captureAndSendUI_elem pm key h msg :
  activeInstances pm !! key = Some h ->
  captureAndSendUI_entry pm key h = Some msg ->
  msg ∈ captureAndSendUI pm.
Proof.
  intros Hk Hm. unfold captureAndSendUI, getAllActiveInstances.
  apply list_elem_of_omap. exists (key, h). split; [|done].
  by apply elem_of_map_to_list.
Qed.

(** The loop body at a key whose client-id starts with [client_]. *)
Lemma ui_frame_entry_client_key pm tail slotId h inst editor :
  objects pm !! h = Some inst ->
  pluginEditor inst = Some editor ->
  captureAndSendUI_entry pm (makeKey ("client_" +:+ tail) slotId) h
  = Some ("client",
          ui_frame (jpegBase64 (paintEntireComponent editor)) (tail +:+ "_" +:+ slotId)).
Proof.
  intros Hh He.
  unfold captureAndSendUI_entry. rewrite Hh. cbn [mbind option_bind].
  unfold instance_hasEditor, captureImage. rewrite He. cbn [negb mbind option_bind].
  change (makeKey ("client_" +:+ tail) slotId)
    with ("client_" +:+ (tail +:+ "_" +:+ slotId)).
  rewrite fromTokens_client_key. cbn [List.length nth].
  pose proof (fromTokens_from_length "" (tail +:+ "_" +:+ slotId)).
  destruct (Nat.leb_spec 2 (S (List.length (fromTokens_from "" (tail +:+ "_" +:+ slotId)))));
    [reflexivity|lia].
Qed.

End HandlerFacts.

(** * Main results: connections, frames and pushed images *)

Section ProtocolResults.

Context `{Host : PluginHost}.
Variable sha1_base64 : string -> string.

(** C1.  Claimed: a request with an [Upgrade: websocket] header and no
    [Sec-WebSocket-Key] header fails the handshake and the connection is
    dropped, neither registered nor announced.  The code does not do that:
    [performWebSocketHandshake] returns early without writing a response, but
    [handleNewConnection] does not look at the outcome; it marks the client as
    a WebSocket, stores it under its id and queues [onClientConnected] for
    every listener. *)
Theorem upgrade_without_key_is_registered now bytesRead buffer server :
  let request := fromBuffer buffer (Z.to_nat bytesRead) in
  let clientId := assigned_id now in
  0 < bytesRead ->
  is_7bit buffer = true ->
  has_upgrade_header request = true ->
  has_key_header request = false ->
  let server' := handleNewConnection sha1_base64 now 1 bytesRead buffer server in
  clients server' !! clientId
    = Some {| socket_written := []; id := clientId; isWebSocket := true |}
  ∧ notifications server'
    = notifications server
      ++ map (λ listener, onClientConnected listener clientId) (listeners server).
Proof.
  intros request clientId Hread _ Hup Hkey server'. subst server'.
  unfold handleNewConnection. fold request. fold clientId.
  cbn [Z.eqb Pos.eqb negb].
  destruct (Z.ltb_spec 0 bytesRead); [|lia].
  rewrite Hup.
  rewrite handshake_without_key.
  - cbn [clients notifications]. split; [apply lookup_insert_eq|reflexivity].
  - intros line Hline. unfold has_key_header in Hkey.
    destruct (startsWithIgnoreCase line "Sec-WebSocket-Key:") eqn:E; [|done].
    assert (existsb (λ l, startsWithIgnoreCase l "Sec-WebSocket-Key:") (fromLines request) = true);
      [|congruence].
    apply existsb_exists. exists line. split; [by apply list_elem_of_In|done].
Qed.

(** C3.  Claimed: [decode (encode m) = m] for every text of at most 65535
    bytes, and the masked decode path recovers every such text.  The masked
    path does.  The encoder takes [utf8.length()], a number of characters, as
    the number of bytes to declare and to copy: the round trip holds for
    7-bit text, and a text with a character of more than one byte is cut
    short on the wire, so that the decoder returns the cut text. *)
Theorem frame_round_trip message :
  is_text message = true ->
  Z.of_nat (String.length message) <= 65535 ->
  (∀ key, List.length key = 4%nat ->
     let frame := wire_frame (to_char 0x81) (Some key) (list_ascii_of_string message) in
     decodeWebSocketFrame frame (Z.of_nat (List.length frame)) = Some message)
  ∧ ∃ frame,
      sendWebSocketFrame message = Some frame
      ∧ decodeWebSocketFrame frame (Z.of_nat (List.length frame))
        = Some (from_bytes (take (utf8_length message) (list_ascii_of_string message)))
      ∧ (is_ascii_text message = true ->
         decodeWebSocketFrame frame (Z.of_nat (List.length frame)) = Some message)
      ∧ ((utf8_length message < String.length message)%nat ->
         decodeWebSocketFrame frame (Z.of_nat (List.length frame)) ≠ Some message).
Proof.
  intros Htext Hlen. pose proof (utf8_length_le message) as Hle.
  split; [intros key Hkey; by apply roundtrip_masked|].
  eexists. split; [apply sendWebSocketFrame_defined; lia|].
  assert (Hdec : decodeWebSocketFrame
            (wire_frame (to_char 129) None
               (take (utf8_length message) (list_ascii_of_string message)))
            (Z.of_nat (List.length (wire_frame (to_char 129) None
               (take (utf8_length message) (list_ascii_of_string message)))))
          = Some (from_bytes (take (utf8_length message) (list_ascii_of_string message)))).
  { apply decode_wire_frame; [by left|done|].
    rewrite length_take, length_list_ascii_of_string. lia. }
  split; [exact Hdec|]. rewrite Hdec. split.
  - intros Hascii. rewrite (utf8_length_ascii _ Hascii).
    rewrite <- length_list_ascii_of_string, firstn_all.
    by rewrite from_bytes_text.
  - intros Hlt [= E].
    pose proof (length_from_bytes (take (utf8_length message) (list_ascii_of_string message))) as Hb.
    rewrite E, length_take, length_list_ascii_of_string in Hb. lia.
Qed.

(** C4.  Claimed: lengths 0 and 125 take the 7-bit form, 126 and 65535 the
    16-bit form, 65536 the 64-bit form with eight big-endian length bytes, and
    the decoder recovers each length.  The first four hold, with the length
    the encoder measures (characters; bytes for 7-bit text).  For 65536 the
    code shifts the 32-bit [length] by 56, 48, 40 and 32 bits, which has no
    defined result: the frame is not determined.  Where the shift count is
    taken modulo 32 the eight bytes are 00 01 00 00 00 01 00 00; the claimed
    big-endian bytes 00 00 00 00 00 01 00 00 are what a shift without a width
    gives.  The decoder reads only the low four length bytes and recovers
    65536 from any frame that carries them. *)
Theorem length_prefix_forms message :
  let L := Z.of_nat (utf8_length message) in
  let payload := take (utf8_length message) (list_ascii_of_string message) in
  (L = 0 -> sendWebSocketFrame message = Some [to_char 0x81; to_char 0])
  ∧ (L = 125 -> sendWebSocketFrame message
                = Some (to_char 0x81 :: to_char 125 :: payload))
  ∧ (L = 126 -> sendWebSocketFrame message
                = Some (to_char 0x81 :: to_char 126 :: to_char 0 :: to_char 126 :: payload))
  ∧ (L = 65535 -> sendWebSocketFrame message
                  = Some (to_char 0x81 :: to_char 126 :: to_char 255 :: to_char 255 :: payload))
  ∧ (L = 65536 ->
       sendWebSocketFrame message = None
       ∧ extended_length int_shr L = None
       ∧ extended_length shr_count_mod_32 L
         = Some (map to_char [0; 1; 0; 0; 0; 1; 0; 0])
       ∧ extended_length shr_unbounded L
         = Some (map to_char [0; 0; 0; 0; 0; 1; 0; 0]))
  ∧ (L < 65536 -> ∀ frame, sendWebSocketFrame message = Some frame ->
       decodeWebSocketFrame frame (Z.of_nat (List.length frame))
       = Some (from_bytes payload)
       ∧ (is_text message = true ->
          Z.of_nat (String.length (from_bytes payload)) = L))
  ∧ (L = 65536 -> ∀ h7 h6 h5 h4,
       let frame := long_frame (to_char 0x81) [h7; h6; h5; h4] payload in
       decodeWebSocketFrame frame (Z.of_nat (List.length frame))
       = Some (from_bytes payload)).
Proof.
  intros L payload. pose proof (utf8_length_le message) as Hle.
  assert (Hpl : List.length payload = utf8_length message).
  { subst payload. rewrite length_take, length_list_ascii_of_string. lia. }
  assert (Hsmall : L < 65536 ->
            sendWebSocketFrame message = Some (wire_frame (to_char 129) None payload)).
  { intros HL. by apply sendWebSocketFrame_defined. }
  split; [|split; [|split; [|split; [|split; [|split]]]]].
  - intros HL. rewrite Hsmall by lia.
    unfold wire_frame. rewrite Hpl. fold L. rewrite HL.
    destruct payload; [reflexivity|simpl in Hpl; lia].
  - intros HL. rewrite Hsmall by lia.
    unfold wire_frame. rewrite Hpl. fold L. by rewrite HL.
  - intros HL. rewrite Hsmall by lia.
    unfold wire_frame. rewrite Hpl. fold L. by rewrite HL.
  - intros HL. rewrite Hsmall by lia.
    unfold wire_frame. rewrite Hpl. fold L. by rewrite HL.
  - intros HL. split; [apply sendWebSocketFrame_undefined; fold L; lia|].
    rewrite HL. split; [reflexivity|]. split; reflexivity.
  - intros HL frame Hframe. rewrite Hsmall in Hframe by lia.
    injection Hframe as <-. split.
    + apply (decode_wire_frame (to_char 129) None payload); [by left|done|].
      rewrite Hpl. fold L. lia.
    + intros Htext. subst payload L.
      rewrite from_bytes_take_text by done.
      rewrite length_string_of_list_ascii, length_take, length_list_ascii_of_string. lia.
  - intros HL h7 h6 h5 h4 frame. subst frame.
    apply decode_long_frame; [by left|done|]. rewrite Hpl. fold L. lia.
Qed.

(** C10.  The decoder does not look at the FIN bit: a buffer decodes to the
    same result with FIN cleared as with FIN set.  In particular a text or
    binary frame with FIN cleared, masked or not, whose payload is all there,
    decodes to its payload as a complete message (as a [juce::String]: the
    bytes appended one at a time, which for a text gives the text). *)
Theorem decoder_ignores_fin (b0 : ascii) (rest : list ascii) (len : Z) :
  decodeWebSocketFrame (with_fin false b0 :: rest) len
  = decodeWebSocketFrame (with_fin true b0 :: rest) len
  ∧ ∀ key payload,
      data_opcode_ok b0 ->
      match key with Some k => List.length k = 4%nat | None => True end ->
      Z.of_nat (List.length payload) < 2 ^ 31 - 14 ->
      let frame := wire_frame (with_fin false b0) key payload in
      decodeWebSocketFrame frame (Z.of_nat (List.length frame))
      = Some (from_bytes payload)
      ∧ ∀ text, is_text text = true -> payload = list_ascii_of_string text ->
                from_bytes payload = text.
Proof.
  split.
  - apply decode_first_byte. by rewrite !uchar_with_fin_opcode.
  - intros key payload Hop Hkey Hn frame. split.
    + apply decode_wire_frame; [|done|done].
      unfold data_opcode_ok in *. by rewrite uchar_with_fin_opcode.
    + intros text Htext ->. by apply from_bytes_text.
Qed.

End ProtocolResults.

(** * Main results: the registry and the handlers *)

Section SessionResults.

Context `{Host : PluginHost}.
Variable describe : var -> string.
Variable var_to_double : var -> Double.

(** C2.  Claimed: a [UI_FRAME] goes to the client-id under which the session
    was created, with that session's slot-id.  The code splits the key at
    every underscore and takes the first piece, and every client-id the server
    assigns is [client_] followed by a number: the frame of a session of
    [client_<number>] is addressed to [client], which is no assigned id, so
    that [send] drops it; and its [slot_id] is [<number>_<slot>]. *)
Theorem ui_frame_is_sent_to_first_token pm now slotId h inst editor :
  activeInstances pm !! makeKey (assigned_id now) slotId = Some h ->
  objects pm !! h = Some inst ->
  pluginEditor inst = Some editor ->
  let sent := ("client",
               ui_frame (jpegBase64 (paintEntireComponent editor))
                        (pretty now +:+ "_" +:+ slotId)) in
  captureAndSendUI_entry pm (makeKey (assigned_id now) slotId) h = Some sent
  ∧ sent ∈ captureAndSendUI pm
  ∧ (∀ t, "client" ≠ assigned_id t)
  ∧ (∀ jsonStr server, ids_assigned server ->
       send "client" jsonStr server = Some server).
Proof.
  intros Hk Hh He sent. unfold assigned_id in *.
  assert (Hentry : captureAndSendUI_entry pm (makeKey ("client_" +:+ pretty now) slotId) h
                   = Some sent) by (by eapply ui_frame_entry_client_key).
  split; [done|]. split; [by eapply captureAndSendUI_elem|].
  split; [done|]. intros jsonStr server. apply send_to_client_is_dropped.
Qed.

Lemma registry_ok_loadPlugin clientId slotId path sampleRate pm :
  registry_ok pm -> registry_ok (loadPlugin clientId slotId path sampleRate pm).2.
Proof.
  intros Hok.
  destruct (loadPlugin clientId slotId path sampleRate pm) as [[] pm'] eqn:E.
  - apply loadPlugin_success in E as [inst ->]. by apply registry_ok_store.
  - unfold loadPlugin in E. repeat case_match; by simplify_eq.
Qed.

(** C5.  When the key already holds a live handle, a successful load destroys
    that handle once (it is appended once to the destructions, where it did
    not occur before, and it is no longer live), installs the new handle in
    its place, and [getInstance] returns the new handle; the registry still
    owns each live object exactly once. *)
Theorem reload_destroys_prior_once clientId slotId path sampleRate pm pm' old :
  registry_ok pm ->
  activeInstances pm !! makeKey clientId slotId = Some old ->
  loadPlugin clientId slotId path sampleRate pm = (true, pm') ->
  let new := nextHandle pm in
  (destroyed pm' = destroyed pm ++ [old])
  ∧ (old ∉ destroyed pm)
  ∧ objects pm' !! old = None
  ∧ new ≠ old
  ∧ is_Some (objects pm' !! new)
  ∧ getInstance clientId slotId pm' = Some new
  ∧ registry_ok pm'.
Proof.
  intros Hok Hold Hload new.
  assert (Hok' : registry_ok pm').
  { replace pm' with (loadPlugin clientId slotId path sampleRate pm).2
      by (by rewrite Hload). by apply registry_ok_loadPlugin. }
  apply loadPlugin_success in Hload as [inst ->].
  assert (Hlt : (old < nextHandle pm)%nat) by (eapply ok_below, ok_live; eauto).
  assert (Hget : getInstance clientId slotId
            (assign (makeKey clientId slotId) (nextHandle pm) (make_unique inst pm).2)
          = Some new) by apply assign_lookup.
  unfold assign, make_unique in *. cbn [snd activeInstances set_activeInstances] in *.
  rewrite Hold in *. cbn [destroy destroyed objects set_activeInstances] in *.
  split; [done|]. split.
  { intros Hd. destruct (ok_dead _ Hok _ Hd) as [Hn _].
    destruct (ok_live _ Hok _ _ Hold) as [? ?]. congruence. }
  split; [apply lookup_delete_eq|]. split; [subst new; lia|].
  split; [|done].
  rewrite lookup_delete_ne by lia. rewrite lookup_insert_eq. eauto.
Qed.

(** C6, as the code has it.  [unloadAllForClient c] removes exactly the
    entries whose key starts with [c] followed by an underscore: every entry
    of client-id [c] goes, and an entry whose key does not start that way
    stays, with its handle and its object.  Entries of another client-id stay
    whenever both ids are ones the server assigns. *)
Theorem unloadAllForClient_removes_by_prefix clientId pm :
  (∀ slotId, getInstance clientId slotId (unloadAllForClient clientId pm) = None)
  ∧ (∀ k, startsWith k (clientId +:+ "_") = true ->
          activeInstances (unloadAllForClient clientId pm) !! k = None)
  ∧ (∀ k, startsWith k (clientId +:+ "_") = false ->
          activeInstances (unloadAllForClient clientId pm) !! k
          = activeInstances pm !! k)
  ∧ (registry_ok pm ->
     registry_ok (unloadAllForClient clientId pm)
     ∧ ∀ k h, startsWith k (clientId +:+ "_") = false ->
              activeInstances pm !! k = Some h ->
              objects (unloadAllForClient clientId pm) !! h = objects pm !! h)
  ∧ (∀ now now' slotId, clientId = assigned_id now -> now' ≠ now ->
       getInstance (assigned_id now') slotId (unloadAllForClient clientId pm)
       = getInstance (assigned_id now') slotId pm).
Proof.
  split; [|split; [|split; [|split]]].
  - intros slotId. unfold getInstance.
    by rewrite unloadAllForClient_lookup, startsWith_makeKey.
  - intros k Hk. by rewrite unloadAllForClient_lookup, Hk.
  - intros k Hk. by rewrite unloadAllForClient_lookup, Hk.
  - intros Hok. unfold unloadAllForClient.
    split; [by apply unload_loop_ok|].
    intros k h Hk Hh. by eapply unload_loop_objects.
  - intros now now' slotId -> Hne. unfold getInstance.
    by rewrite unloadAllForClient_lookup, assigned_ids_apart.
Qed.

(** C7.  After a successful load, [getInstance] for the same client and slot
    returns the handle just created, which is live; after [unloadPlugin],
    [getInstance] returns none; [unloadPlugin] of an absent key leaves the
    registry as it was. *)
Theorem load_get_unload clientId slotId path sampleRate pm :
  (∀ pm', loadPlugin clientId slotId path sampleRate pm = (true, pm') ->
          getInstance clientId slotId pm' = Some (nextHandle pm)
          ∧ (registry_ok pm -> is_Some (objects pm' !! nextHandle pm)))
  ∧ getInstance clientId slotId (unloadPlugin clientId slotId pm) = None
  ∧ (getInstance clientId slotId pm = None -> unloadPlugin clientId slotId pm = pm).
Proof.
  split; [|split].
  - intros pm' Hload. apply loadPlugin_success in Hload as [inst ->].
    split; [apply assign_lookup|]. intros Hok.
    eapply (ok_live _ (registry_ok_store _ inst _ Hok)), assign_lookup.
  - unfold getInstance, unloadPlugin. by rewrite activeInstances_erase, lookup_delete_eq.
  - unfold getInstance, unloadPlugin. apply erase_absent.
Qed.

(** C8.  When the slot names no session of the sending client, or the
    [channels] field is not an array, [handleProcessAudio] sends one
    [AUDIO_PROCESSED] message to the sender whose [channels] is the value it
    received, and leaves the registry and every session as they were. *)
Theorem process_audio_fail_open clientId data pm :
  let slotId := toString describe (property data "slot_id") in
  let channelsData := property data "channels" in
  getInstance clientId slotId pm = None ∨ isArray channelsData = false ->
  handleProcessAudio describe var_to_double clientId data pm
  = Some (pm, [(clientId,
                VObject [("action", VString "AUDIO_PROCESSED");
                         ("channels", channelsData);
                         ("slot_id", VString slotId)])]).
Proof.
  intros slotId channelsData Hcase. unfold handleProcessAudio.
  fold slotId. fold channelsData.
  destruct Hcase as [-> | Harr]; [reflexivity|].
  rewrite Harr. by destruct (getInstance clientId slotId pm).
Qed.

(** C9.  [handleSetParam] always sends exactly one [PARAM_CHANGED] message to
    the sender, carrying the name and the value it read from the request,
    whether or not the slot exists and whether or not a parameter has that
    name.  When the slot exists it sets the first parameter, in index order,
    whose name is the requested one, and no other; when none has that name
    the processor is left alone. *)
Theorem set_param_always_replies clientId data pm :
  registry_ok pm ->
  let slotId := toString describe (property data "slot_id") in
  let paramName := toString describe (property data "name") in
  let value := double_to_float (var_to_double (property data "value")) in
  let reply := (clientId,
                VObject [("action", VString "PARAM_CHANGED");
                         ("name", VString paramName);
                         ("value", VDouble (float_to_double value));
                         ("slot_id", VString slotId)]) in
  ∃ pm', handleSetParam describe var_to_double clientId data pm = Some (pm', [reply])
    ∧ activeInstances pm' = activeInstances pm
    ∧ match getInstance clientId slotId pm with
      | None => pm' = pm
      | Some h =>
          ∃ inst, objects pm !! h = Some inst
            ∧ (∀ h', h' ≠ h -> objects pm' !! h' = objects pm !! h')
            ∧ ∃ processor,
                objects pm' !! h
                = Some {| audioProcessor := processor;
                          pluginEditor := pluginEditor inst;
                          pluginName := pluginName inst |}
                ∧ match find_parameter (audioProcessor inst) paramName with
                  | Some i =>
                      processor = setParameter (audioProcessor inst) i value
                      ∧ 0 <= i < getNumParameters (audioProcessor inst)
                      ∧ getParameterName (audioProcessor inst) i = paramName
                      ∧ ∀ j, 0 <= j < i ->
                             getParameterName (audioProcessor inst) j ≠ paramName
                  | None =>
                      processor = audioProcessor inst
                      ∧ ∀ j, 0 <= j < getNumParameters (audioProcessor inst) ->
                             getParameterName (audioProcessor inst) j ≠ paramName
                  end
      end.
Proof.
  intros Hok slotId paramName value reply. unfold handleSetParam.
  fold slotId. fold paramName. fold value.
  destruct (getInstance clientId slotId pm) as [h|] eqn:Hget.
  - destruct (ok_live _ Hok _ _ Hget) as [inst Hinst]. rewrite Hinst.
    cbn [mbind option_bind]. eexists. split; [reflexivity|]. split; [reflexivity|].
    exists inst. split; [done|]. cbn [objects]. split.
    { intros h' Hne. by rewrite lookup_insert_ne. }
    eexists. split; [apply lookup_insert_eq|].
    destruct (find_parameter (audioProcessor inst) paramName) as [i|] eqn:Hfind.
    + split; [reflexivity|]. by apply find_parameter_first.
    + split; [reflexivity|]. by apply find_parameter_none.
  - cbn [mbind option_bind]. eexists. split; [reflexivity|]. done.
Qed.

End SessionResults.

(** * Concrete runs *)

Section Runs.

Lemma registry_ok_empty : registry_ok Demo.empty.
Proof.
  split; cbn.
  - intros k h Hk. by rewrite lookup_empty in Hk.
  - intros h [x Hx]. by rewrite lookup_empty in Hx.
  - intros k1 k2 h Hk. by rewrite lookup_empty in Hk.
  - intros h [x Hx]. by rewrite lookup_empty in Hx.
  - intros h Hh. by apply not_elem_of_nil in Hh.
  - apply NoDup_nil_2.
Qed.

Lemma registry_ok_loaded : registry_ok Demo.loaded.
Proof. apply (registry_ok_loadPlugin (Host := Demo.host)), registry_ok_empty. Qed.

Lemma pair_of_true {A} (p : bool * A) : p.1 = true -> p = (true, p.2).
Proof. destruct p as [b a]. simpl. by intros ->. Qed.

(** C1 at a request with an [Upgrade] header and no key: the client is
    registered and the listener is told.  *)
Lemma upgrade_without_key_is_registered_witness :
  let buffer := list_ascii_of_string Demo.request_without_key in
  let server' := handleNewConnection (λ s, s) 1700000000000 1 97 buffer Demo.idle_server in
  let clientId := assigned_id 1700000000000 in
  clients server' !! clientId
    = Some {| socket_written := []; id := clientId; isWebSocket := true |}
  ∧ notifications server'
    = notifications Demo.idle_server
      ++ map (λ listener, onClientConnected listener clientId) (listeners Demo.idle_server).
Proof.
  apply (upgrade_without_key_is_registered (λ s, s) 1700000000000 97
           (list_ascii_of_string Demo.request_without_key) Demo.idle_server);
    [lia | vm_compute; reflexivity | vm_compute; reflexivity | vm_compute; reflexivity].
Defined.

(** C2 at the session [A] of [client_1700000000000]: its frame is addressed
    to [client]. *)
Lemma ui_frame_is_sent_to_first_token_witness :
  let sent := ("client",
               ui_frame (Host := Demo.host) "/9j/4AAQ" (pretty 1700000000000 +:+ "_" +:+ "A")) in
  captureAndSendUI_entry Demo.loaded (makeKey (assigned_id 1700000000000) "A") 0 = Some sent
  ∧ sent ∈ captureAndSendUI Demo.loaded
  ∧ (∀ t, "client" ≠ assigned_id t)
  ∧ (∀ jsonStr server, ids_assigned server ->
       send "client" jsonStr server = Some server).
Proof.
  apply (ui_frame_is_sent_to_first_token (Host := Demo.host) Demo.loaded 1700000000000 "A" 0%nat
           Demo.X_instance tt);
    vm_compute; reflexivity.
Defined.

(** C3 at the two-byte text U+00E9: the frame is 81 01 C3 and the decoder
    returns the one byte C3. *)
Lemma frame_round_trip_witness :
  (∀ key, List.length key = 4%nat ->
     let frame := wire_frame (to_char 0x81) (Some key) (list_ascii_of_string Demo.e_acute) in
     decodeWebSocketFrame frame (Z.of_nat (List.length frame)) = Some Demo.e_acute)
  ∧ ∃ frame,
      sendWebSocketFrame Demo.e_acute = Some frame
      ∧ decodeWebSocketFrame frame (Z.of_nat (List.length frame))
        = Some (from_bytes (take (utf8_length Demo.e_acute)
                                 (list_ascii_of_string Demo.e_acute)))
      ∧ (is_ascii_text Demo.e_acute = true ->
         decodeWebSocketFrame frame (Z.of_nat (List.length frame)) = Some Demo.e_acute)
      ∧ ((utf8_length Demo.e_acute < String.length Demo.e_acute)%nat ->
         decodeWebSocketFrame frame (Z.of_nat (List.length frame)) ≠ Some Demo.e_acute).
Proof.
  apply (frame_round_trip Demo.e_acute); [reflexivity | vm_compute; discriminate].
Defined.

(** The run itself. *)
Example e_acute_run :
  sendWebSocketFrame Demo.e_acute = Some [to_char 0x81; to_char 1; to_char 0xC3]
  ∧ decodeWebSocketFrame [to_char 0x81; to_char 1; to_char 0xC3] 3
    = Some (String (to_char 0xC3) EmptyString)
  ∧ String (to_char 0xC3) EmptyString ≠ Demo.e_acute.
Proof. split; [reflexivity|]. split; [reflexivity|discriminate]. Qed.

(** C4 at a message of 65536 letters. *)
Lemma length_prefix_forms_witness :
  sendWebSocketFrame (Demo.letters (Z.to_nat 65536)) = None
  ∧ extended_length int_shr 65536 = None
  ∧ extended_length shr_count_mod_32 65536
    = Some (map to_char [0; 1; 0; 0; 0; 1; 0; 0])
  ∧ extended_length shr_unbounded 65536
    = Some (map to_char [0; 0; 0; 0; 0; 1; 0; 0]).
Proof.
  apply (proj1 (proj2 (proj2 (proj2 (proj2
           (length_prefix_forms (Demo.letters (Z.to_nat 65536)))))))).
  vm_compute. reflexivity.
Defined.

(** C5 at a second load into slot [A] of [client_1700000000000]. *)
Lemma reload_destroys_prior_once_witness :
  let pm' := (loadPlugin (Host := Demo.host)
                "client_1700000000000" "A" "/x.plugin" 48000 Demo.loaded).2 in
  let new := nextHandle Demo.loaded in
  (destroyed pm' = destroyed Demo.loaded ++ [0%nat])
  ∧ (0%nat ∉ destroyed Demo.loaded)
  ∧ objects pm' !! 0%nat = None
  ∧ new ≠ 0%nat
  ∧ is_Some (objects pm' !! new)
  ∧ getInstance "client_1700000000000" "A" pm' = Some new
  ∧ registry_ok pm'.
Proof.
  apply (reload_destroys_prior_once (Host := Demo.host)
           "client_1700000000000" "A" "/x.plugin" 48000 Demo.loaded).
  - exact registry_ok_loaded.
  - vm_compute. reflexivity.
  - apply pair_of_true. vm_compute. reflexivity.
Defined.

(** C6, as claimed, fails: unloading everything of client [client] removes
    the session of client [client_1700000000000]. *)
Lemma unloadAllForClient_removes_other_client :
  "client" ≠ "client_1700000000000"
  ∧ getInstance "client_1700000000000" "A" Demo.loaded = Some 0%nat
  ∧ getInstance "client_1700000000000" "A" (unloadAllForClient "client" Demo.loaded) = None.
Proof. split; [done|]. split; vm_compute; reflexivity. Qed.

(** C7 at the first load into an empty registry. *)
Lemma load_get_unload_witness :
  getInstance "client_1700000000000" "A" Demo.loaded = Some (nextHandle Demo.empty)
  ∧ (registry_ok Demo.empty -> is_Some (objects Demo.loaded !! nextHandle Demo.empty)).
Proof.
  apply (proj1 (load_get_unload (Host := Demo.host)
                  "client_1700000000000" "A" "/x.plugin" 48000 Demo.empty)).
  apply pair_of_true. vm_compute. reflexivity.
Defined.

(** C8 at a request for slot [B], which is not loaded. *)
Lemma process_audio_fail_open_witness :
  let data := VObject [("action", VString "PROCESS_AUDIO"); ("slot_id", VString "B");
                       ("channels", VArray [VArray [VInt 1; VInt 2]])] in
  handleProcessAudio (Host := Demo.host) Demo.describe Demo.var_to_double
    "client_1700000000000" data Demo.loaded
  = Some (Demo.loaded,
          [("client_1700000000000",
            VObject [("action", VString "AUDIO_PROCESSED");
                     ("channels", property data "channels");
                     ("slot_id", VString (toString Demo.describe (property data "slot_id")))])]).
Proof.
  apply (process_audio_fail_open (Host := Demo.host) Demo.describe Demo.var_to_double).
  left. vm_compute. reflexivity.
Defined.

(** C9 at a request to set [gain] on slot [A]. *)
Lemma set_param_always_replies_witness :
  let data := VObject [("action", VString "SET_PARAM"); ("slot_id", VString "A");
                       ("name", VString "gain"); ("value", VInt 5)] in
  ∃ pm', handleSetParam (Host := Demo.host) Demo.describe Demo.var_to_double
           "client_1700000000000" data Demo.loaded
         = Some (pm', [("client_1700000000000",
                        VObject (Host := Demo.host)
                                [("action", VString "PARAM_CHANGED");
                                 ("name", VString "gain");
                                 ("value", @VDouble Demo.host 5);
                                 ("slot_id", VString "A")])]).
Proof.
  destruct (set_param_always_replies (Host := Demo.host) Demo.describe Demo.var_to_double
              "client_1700000000000"
              (VObject [("action", VString "SET_PARAM"); ("slot_id", VString "A");
                        ("name", VString "gain"); ("value", VInt 5)])
              Demo.loaded registry_ok_loaded) as (pm' & Hpm' & _).
  exists pm'. exact Hpm'.
Defined.

(** C10 at an unmasked text frame with FIN cleared. *)
Lemma decoder_ignores_fin_witness :
  let frame := wire_frame (with_fin false (to_char 0x81)) None (list_ascii_of_string "hi") in
  decodeWebSocketFrame frame (Z.of_nat (List.length frame))
  = Some (from_bytes (list_ascii_of_string "hi"))
  ∧ ∀ text, is_text text = true -> list_ascii_of_string "hi" = list_ascii_of_string text ->
            from_bytes (list_ascii_of_string "hi") = text.
Proof.
  apply (proj2 (decoder_ignores_fin (to_char 0x81) [] 0) None (list_ascii_of_string "hi")).
  - left. reflexivity.
  - exact I.
  - vm_compute. reflexivity.
Defined.

End Runs.

(** * Further properties of the code *)

(** ** What the decoder reads of its buffer *)

Section BufferReads.

Lemma data_at_take n (d d' : list ascii) i :
  take n d = take n d' -> (Z.to_nat i < n)%nat -> data_at d i = data_at d' i.
Proof.
  intros E Hi. unfold data_at.
  pose proof (nth_firstn n d (Z.to_nat i) NUL) as H1.
  pose proof (nth_firstn n d' (Z.to_nat i) NUL) as H2.
  destruct (Nat.ltb_spec (Z.to_nat i) n); [|lia].
  rewrite <- H1, <- H2. by rewrite E.
Qed.

(** The header is read from the first [length] bytes. *)
Lemma decodeHeader_prefix d d' len :
  take (Z.to_nat len) d = take (Z.to_nat len) d' ->
  decodeHeader d len = decodeHeader d' len.
Proof.
  intros E. unfold decodeHeader.
  destruct (Z.ltb_spec len 2); [done|].
  rewrite (data_at_take _ d d' 0 E), (data_at_take _ d d' 1 E) by lia.
  destruct (negb _ && negb _); [done|].
  destruct (Z.land _ 127 =? 126).
  - destruct (Z.ltb_spec len 4); [done|].
    by rewrite (data_at_take _ d d' 2 E), (data_at_take _ d d' 3 E) by lia.
  - destruct (Z.land _ 127 =? 127); [|done].
    destruct (Z.ltb_spec len 10); [done|].
    by rewrite (data_at_take _ d d' 6 E), (data_at_take _ d d' 7 E),
      (data_at_take _ d d' 8 E), (data_at_take _ d d' 9 E) by lia.
Qed.

(** A header that is accepted with [len] bytes is accepted, with the same
    fields, exactly when the bytes up to the payload offset are there. *)
Lemma decodeHeader_length d len len' masked payloadLength maskKey offset :
  decodeHeader d len = Some (masked, payloadLength, maskKey, offset) ->
  decodeHeader d len'
  = if len' <? offset then None else Some (masked, payloadLength, maskKey, offset).
Proof.
  unfold decodeHeader. intros H.
  destruct (Z.ltb_spec len 2); [done|].
  destruct (negb _ && negb _); [done|].
  destruct (Z.land _ 127 =? 126); [|destruct (Z.land _ 127 =? 127)];
    repeat match type of H with
           | context [?a <? ?b] => destruct (Z.ltb_spec a b); [done|]
           end;
    cbn [mbind option_bind] in *;
    destruct (negb _);
    repeat match type of H with
           | context [?a <? ?b] => destruct (Z.ltb_spec a b); [done|]
           end;
    injection H as <- <- <- <-;
    repeat match goal with
           | |- context [?a <? ?b] =>
               destruct (Z.ltb_spec a b); cbn [mbind option_bind]; try lia; try done
           end.
Qed.

(** The payload offset lies within the buffer, and the masking key in the
    four bytes before it. *)
Lemma decodeHeader_within d len masked payloadLength maskKey offset :
  decodeHeader d len = Some (masked, payloadLength, maskKey, offset) ->
  2 <= offset <= len ∧ (masked = true -> 2 <= maskKey ∧ maskKey + 4 = offset).
Proof.
  intros H. pose proof (decodeHeader_length _ _ len _ _ _ _ H) as H'.
  rewrite H in H'. destruct (Z.ltb_spec len offset); [done|].
  destruct (decodeHeader_offsets _ _ _ _ _ _ H) as [Ho Hm].
  split; [lia|]. intros ->. split; [by apply Hm|].
  revert H. unfold decodeHeader. clear.
  intros H; repeat (case_match; simplify_option_eq; try lia); try done.
Qed.

(** A header takes at most fourteen bytes. *)
Lemma decodeHeader_offset_max d len masked payloadLength maskKey offset :
  decodeHeader d len = Some (masked, payloadLength, maskKey, offset) -> offset <= 14.
Proof.
  unfold decodeHeader.
  intros H; repeat (case_match; simplify_option_eq; try lia); try done.
Qed.

Lemma fold_left_ext_in {A B} (f g : A -> B -> A) l a :
  (∀ x y, In y l -> f x y = g x y) -> fold_left f l a = fold_left g l a.
Proof.
  revert a. induction l as [|y l IH]; intros a E; simpl; [done|].
  rewrite E by (by left). apply IH. intros x z Hz. apply E. by right.
Qed.

(** A payload loop that stays below [len] reads the same from two buffers
    with the same first [len] bytes. *)
Lemma decode_loop_prefix d d' len masked maskKey offset n acc :
  take (Z.to_nat len) d = take (Z.to_nat len) d' ->
  0 <= offset -> offset + Z.of_nat n <= len ->
  (masked = true -> 0 <= maskKey ∧ maskKey + 4 <= len) ->
  fold_left (decode_step d masked maskKey offset) (seq 0 n) acc
  = fold_left (decode_step d' masked maskKey offset) (seq 0 n) acc.
Proof.
  intros E Ho Hn Hm. apply fold_left_ext_in. intros r i [_ Hi]%in_seq.
  unfold decode_step.
  rewrite (data_at_take _ d d' (offset + Z.of_nat i) E) by lia.
  destruct masked; [|done].
  assert (0 <= Z.of_nat i mod 4 < 4) by (apply Z.mod_pos_bound; lia).
  destruct (Hm eq_refl).
  by rewrite (data_at_take _ d d' (maskKey + Z.of_nat i mod 4) E) by lia.
Qed.

Lemma int_add_Some x y r : int_add x y = Some r -> r = x + y.
Proof. unfold int_add. cbv zeta. case_match; [|done]. by intros [= <-]. Qed.

(** A frame that is complete in the first [len] bytes of a buffer decodes
    the same from any buffer that starts with those bytes, however many more
    bytes it is said to hold. *)
Lemma decode_complete_frame d d' len len' masked payloadLength maskKey offset :
  take (Z.to_nat len) d = take (Z.to_nat len) d' ->
  len <= len' ->
  decodeHeader d len = Some (masked, payloadLength, maskKey, offset) ->
  offset + payloadLength <= len ->
  decodeWebSocketFrame d' len' = decodeWebSocketFrame d len.
Proof.
  intros E Hlen Hh Hend.
  destruct (decodeHeader_within _ _ _ _ _ _ Hh) as [Ho Hm].
  assert (Hh' : decodeHeader d' len' = Some (masked, payloadLength, maskKey, offset)).
  { rewrite (decodeHeader_prefix d d' len E) in Hh.
    rewrite (decodeHeader_length _ _ len' _ _ _ _ Hh).
    destruct (Z.ltb_spec len' offset); [lia|done]. }
  unfold decodeWebSocketFrame. rewrite Hh, Hh'.
  destruct (int_add offset payloadLength) as [frameEnd|] eqn:Hadd; [|done].
  apply int_add_Some in Hadd as ->. cbn [mbind option_bind].
  destruct (Z.ltb_spec len' (offset + payloadLength)); [lia|].
  destruct (Z.ltb_spec len (offset + payloadLength)); [lia|].
  destruct (int_add payloadLength 1); [|done]. cbn [mbind option_bind].
  case_match; [done|]. f_equal. symmetry.
  apply (decode_loop_prefix d d' len); [done|lia|lia|].
  intros Hk. destruct (Hm Hk). lia.
Qed.

(** The header of a frame as a peer sends it. *)
Lemma decodeHeader_wire_frame b0 key payload :
  data_opcode_ok b0 ->
  match key with Some k => List.length k = 4%nat | None => True end ->
  Z.of_nat (List.length payload) < 2 ^ 31 - 14 ->
  let frame := wire_frame b0 key payload in
  ∃ masked maskKey offset,
    decodeHeader frame (Z.of_nat (List.length frame))
    = Some (masked, Z.of_nat (List.length payload), maskKey, offset)
    ∧ offset + Z.of_nat (List.length payload) = Z.of_nat (List.length frame).
Proof.
  intros Hop Hkey Hn frame. subst frame.
  set (n := Z.of_nat (List.length payload)) in *.
  assert (0 <= n) by (subst n; lia).
  destruct key as [k|]; unfold wire_frame; fold n.
  - pose proof (length_wire_length 128 n) as Hw.
    assert (Hw' : 1 <= Z.of_nat (List.length (wire_length 128 n)) <= 9)
      by (rewrite Hw; repeat case_match; lia).
    rewrite decodeHeader_wire; [|done|by right|lia|].
    2:{ cbn [Z.eqb List.length]. rewrite !length_app. lia. }
    cbn [Z.eqb negb]. do 3 eexists. split; [reflexivity|].
    cbn [List.length]. rewrite !length_app, length_mask_payload, Hkey. subst n. lia.
  - pose proof (length_wire_length 0 n) as Hw.
    assert (Hw' : 1 <= Z.of_nat (List.length (wire_length 0 n)) <= 9)
      by (rewrite Hw; repeat case_match; lia).
    rewrite decodeHeader_wire; [|done|by left|lia|].
    2:{ cbn [Z.eqb List.length]. rewrite !length_app. lia. }
    cbn [Z.eqb negb]. do 3 eexists. split; [reflexivity|].
    cbn [List.length]. rewrite !length_app. subst n. lia.
Qed.

(** Bytes that follow a complete frame in the buffer are not decoded. *)
Lemma decode_first_frame b0 key payload rest :
  data_opcode_ok b0 ->
  match key with Some k => List.length k = 4%nat | None => True end ->
  Z.of_nat (List.length payload) < 2 ^ 31 - 14 ->
  decodeWebSocketFrame (wire_frame b0 key payload ++ rest)
                       (Z.of_nat (List.length (wire_frame b0 key payload ++ rest)))
  = Some (from_bytes payload).
Proof.
  intros Hop Hkey Hn.
  destruct (decodeHeader_wire_frame b0 key payload Hop Hkey Hn)
    as (masked & maskKey & offset & Hh & Hend).
  rewrite <- (decode_wire_frame b0 key payload Hop Hkey Hn).
  eapply decode_complete_frame; [|rewrite length_app; lia|exact Hh|lia].
  rewrite Nat2Z.id, take_app_length. by rewrite firstn_all.
Qed.

Lemma from_bytes_filter l :
  from_bytes l = string_of_list_ascii (List.filter (λ c, negb (uchar c =? 0)) l).
Proof.
  induction l as [|c l IH] using rev_ind; [done|].
  rewrite from_bytes_snoc, IH, List.filter_app. cbn [List.filter].
  unfold append_char. destruct (uchar c =? 0); cbn [negb].
  - by rewrite app_nil_r.
  - by rewrite string_of_list_ascii_snoc.
Qed.

End BufferReads.

Section Upgrade.

Lemma startsWith_toLowerCase s p :
  startsWith s p = true -> startsWith (toLowerCase s) (toLowerCase p) = true.
Proof.
  revert s. induction p as [|c p IH]; intros [|x s]; simpl; try done.
  intros [Hc Hs]%andb_true_iff. apply Ascii.eqb_eq in Hc as ->.
  rewrite Ascii.eqb_refl. by apply IH.
Qed.

Lemma contains_toLowerCase s sub :
  contains s sub = true -> contains (toLowerCase s) (toLowerCase sub) = true.
Proof.
  induction s as [|x s IH]; simpl.
  - rewrite !orb_false_r. apply (startsWith_toLowerCase "").
  - intros [H|H]%orb_true_iff; apply orb_true_iff.
    + left. by apply (startsWith_toLowerCase (String x s)).
    + right. by apply IH.
Qed.

(** The case-sensitive test of [handleNewConnection] adds nothing to the
    one that ignores case. *)
Lemma has_upgrade_header_ignoring_case request :
  has_upgrade_header request = containsIgnoreCase request "upgrade: websocket".
Proof.
  unfold has_upgrade_header.
  destruct (contains request "Upgrade: websocket") eqn:E; [|done].
  apply contains_toLowerCase in E. symmetry. exact E.
Qed.

End Upgrade.

Section ServerFacts.

Variable sha1_base64 : string -> string.

Lemma id_performWebSocketHandshake client request :
  id (performWebSocketHandshake sha1_base64 client request) = id client
  ∧ isWebSocket (performWebSocketHandshake sha1_base64 client request) = isWebSocket client
  ∧ (List.length (socket_written (performWebSocketHandshake sha1_base64 client request))
     <= S (List.length (socket_written client)))%nat.
Proof.
  unfold performWebSocketHandshake. destruct (isEmpty _); cbn.
  - do 2 (split; [done|]). lia.
  - do 2 (split; [done|]). rewrite length_app. cbn. lia.
Qed.

Lemma assigned_id_inj now now' : assigned_id now = assigned_id now' -> now = now'.
Proof.
  unfold assigned_id. intros H. apply (inj pretty).
  by apply (inj (String.append "client_")) in H.
Qed.

(** What [handleNewConnection] does when it accepts. *)
Lemma handleNewConnection_accepts now bytesRead buffer server :
  0 < bytesRead ->
  has_upgrade_header (fromBuffer buffer (Z.to_nat bytesRead)) = true ->
  handleNewConnection sha1_base64 now 1 bytesRead buffer server
  = {| clients :=
         <[assigned_id now :=
             set_isWebSocket
               (performWebSocketHandshake sha1_base64
                  {| socket_written := []; id := assigned_id now; isWebSocket := false |}
                  (fromBuffer buffer (Z.to_nat bytesRead))) true]> (clients server);
       listeners := listeners server;
       notifications :=
         notifications server
         ++ map (λ listener, onClientConnected listener (assigned_id now))
                (listeners server) |}.
Proof.
  intros Hread Hup. unfold handleNewConnection. cbn [Z.eqb Pos.eqb negb].
  destruct (Z.ltb_spec 0 bytesRead); [|lia]. by rewrite Hup.
Qed.

Lemma server_ok_handleNewConnection now ready bytesRead buffer server :
  server_ok server ->
  server_ok (handleNewConnection sha1_base64 now ready bytesRead buffer server).
Proof.
  intros Hok. unfold handleNewConnection.
  repeat case_match; try done.
  intros k c Hk. cbn [clients] in Hk.
  apply lookup_insert_Some in Hk as [[<- <-]|[_ Hk]]; [|by apply Hok].
  cbn. split; [apply id_performWebSocketHandshake|]. split; [done|by eexists].
Qed.

Lemma server_ok_send clientId jsonStr server server' :
  server_ok server -> send clientId jsonStr server = Some server' -> server_ok server'.
Proof.
  intros Hok. unfold send.
  destruct (clients server !! clientId) as [c|] eqn:Hc; [|by intros [= <-]].
  destruct (isWebSocket c) eqn:Hws; cbn [negb]; [|by intros [= <-]].
  destruct (sendWebSocketFrame jsonStr) as [frame|]; [|done].
  intros [= <-]. intros k c' Hk. cbn [clients] in Hk.
  apply lookup_insert_Some in Hk as [[<- <-]|[_ Hk]]; [|by apply Hok].
  cbn. by apply Hok.
Qed.

Lemma server_ok_remove_client server k : server_ok server -> server_ok (remove_client server k).
Proof.
  intros Hok k' c Hk. cbn [remove_client clients] in Hk.
  apply lookup_delete_Some in Hk as [_ Hk]. by apply Hok.
Qed.

Lemma server_ok_remove_clients server ids :
  server_ok server -> server_ok (fold_left remove_client ids server).
Proof.
  revert server. induction ids as [|k ids IH]; intros server Hok; [done|].
  apply IH. by apply server_ok_remove_client.
Qed.

(** The loop of [broadcast], over any list of entries with distinct keys. *)
Lemma broadcast_loop jsonStr frame (l : list (string * Client)) (m : gmap string Client) :
  sendWebSocketFrame jsonStr = Some frame ->
  NoDup l.*1 ->
  ∃ m', fold_left (broadcast_step jsonStr) l (Some m) = Some m'
        ∧ ∀ k, m' !! k
               = match (list_to_map l : gmap string Client) !! k with
                 | Some c => if isWebSocket c then Some (write c frame) else m !! k
                 | None => m !! k
                 end.
Proof.
  intros Hframe. revert m. induction l as [|[k0 c0] l IH]; intros m Hnd.
  - exists m. split; [done|]. intros k. cbn [list_to_map foldr]. by rewrite lookup_empty.
  - rewrite fmap_cons in Hnd. apply NoDup_cons in Hnd as [Hk0 Hnd].
    cbn [fold_left]. unfold broadcast_step at 2. cbn [mbind option_bind fst snd].
    rewrite Hframe. cbn [mbind option_bind].
    destruct (IH (if isWebSocket c0 then <[k0 := write c0 frame]> m else m) Hnd)
      as (m' & Hfold & Hm').
    exists m'. split; [by destruct (isWebSocket c0)|].
    intros k. rewrite Hm'. cbn [list_to_map foldr fst snd] in *.
    destruct (decide (k0 = k)) as [<-|Hne].
    + rewrite lookup_insert_eq.
      rewrite (not_elem_of_list_to_map_1 (M := gmap string)) by done.
      destruct (isWebSocket c0); [apply lookup_insert_eq|done].
    + rewrite lookup_insert_ne by done.
      assert ((if isWebSocket c0 then <[k0 := write c0 frame]> m else m) !! k = m !! k) as ->;
        [|done].
      destruct (isWebSocket c0); [by rewrite lookup_insert_ne|done].
Qed.

Lemma broadcast_defined jsonStr frame server :
  sendWebSocketFrame jsonStr = Some frame ->
  ∃ server', broadcast jsonStr server = Some server'
    ∧ listeners server' = listeners server
    ∧ notifications server' = notifications server
    ∧ ∀ k, clients server' !! k
           = (λ c, if isWebSocket c then write c frame else c) <$> clients server !! k.
Proof.
  intros Hframe.
  destruct (broadcast_loop jsonStr frame (map_to_list (clients server)) (clients server) Hframe)
    as (m' & Hfold & Hm'); [apply NoDup_fst_map_to_list|].
  unfold broadcast. rewrite Hfold. cbn [mbind option_bind].
  eexists. split; [done|]. cbn. split; [done|]. split; [done|].
  intros k. rewrite Hm', list_to_map_to_list.
  destruct (clients server !! k) as [c|] eqn:Hc; cbn; [|done].
  by destruct (isWebSocket c).
Qed.

Lemma broadcast_Some jsonStr server server' :
  broadcast jsonStr server = Some server' ->
  listeners server' = listeners server
  ∧ notifications server' = notifications server
  ∧ ∀ k c', clients server' !! k = Some c' ->
      ∃ c, clients server !! k = Some c
           ∧ (c' = c ∨ ∃ frame, c' = write c frame).
Proof.
  destruct (sendWebSocketFrame jsonStr) as [frame|] eqn:Hframe.
  - destruct (broadcast_defined jsonStr frame server Hframe) as (s & Hs & Hl & Hn & Hc).
    rewrite Hs. intros [= <-]. split; [done|]. split; [done|].
    intros k c' Hk. rewrite Hc in Hk.
    destruct (clients server !! k) as [c|]; [|done]. cbn in Hk.
    exists c. split; [done|]. destruct (isWebSocket c); simplify_eq; eauto.
  - unfold broadcast.
    assert (G : ∀ l m m', fold_left (broadcast_step jsonStr) l (Some m) = Some m' ->
                (∀ e, e ∈ l -> isWebSocket e.2 = false) ∧ m' = m).
    { induction l as [|e l IH]; intros m m' Hf; [by injection Hf as <-; split; [intros ? ?%not_elem_of_nil|]|].
      cbn [fold_left] in Hf. unfold broadcast_step at 2 in Hf. cbn [mbind option_bind] in Hf.
      rewrite Hframe in Hf. cbn [mbind option_bind] in Hf.
      destruct (isWebSocket e.2) eqn:Hws.
      - exfalso. clear -Hf. induction l as [|e' l IH]; [done|]. by apply IH.
      - destruct (IH _ _ Hf) as [Hall ->]. split; [|done].
        intros e' [->|He']%elem_of_cons; [done|by apply Hall]. }
    destruct (fold_left _ _ _) as [m'|] eqn:Hf; [|done]. cbn [mbind option_bind].
    intros [= <-]. apply G in Hf as [_ ->]. cbn. split; [done|]. split; [done|].
    intros k c' Hk. eauto.
Qed.

Lemma server_ok_broadcast jsonStr server server' :
  server_ok server -> broadcast jsonStr server = Some server' -> server_ok server'.
Proof.
  intros Hok Hb. apply broadcast_Some in Hb as (_ & _ & Hc).
  intros k c' Hk. destruct (Hc _ _ Hk) as (c & Hck & [->|[frame ->]]); [by apply Hok|].
  cbn. by apply Hok.
Qed.

End ServerFacts.

Section RemovalFacts.

(** The second loop of [run], over any list of ids. *)
Lemma remove_clients_spec ids server :
  let server' := fold_left remove_client ids server in
  (∀ k, clients server' !! k
        = if bool_decide (k ∈ ids) then None else clients server !! k)
  ∧ listeners server' = listeners server
  ∧ notifications server'
    = notifications server
      ++ (ids ≫= λ id, map (λ listener, onClientDisconnected listener id) (listeners server)).
Proof.
  revert server. induction ids as [|i ids IH]; intros server; cbn [fold_left].
  - split; [done|]. split; [done|]. cbn. by rewrite app_nil_r.
  - destruct (IH (remove_client server i)) as (Hc & Hl & Hn).
    split; [|split].
    + intros k. rewrite Hc. cbn [remove_client clients].
      destruct (decide (k = i)) as [->|Hne].
      * rewrite lookup_delete_eq.
        rewrite (bool_decide_eq_true_2 (i ∈ i :: ids)) by left.
        by destruct (bool_decide (i ∈ ids)).
      * rewrite lookup_delete_ne by done.
        apply (f_equal (λ b : bool, if b then None else clients server !! k)).
        apply bool_decide_ext. rewrite elem_of_cons. tauto.
    + by rewrite Hl.
    + rewrite Hn. cbn [remove_client notifications listeners bind_cons].
      by rewrite <- app_assoc.
Qed.

End RemovalFacts.

Section PollingFacts.

Context `{Host : PluginHost}.
Variable parse : string -> var.

Lemma handleClientMessage_Some listeners client bytesRead buffer ds d :
  handleClientMessage parse listeners client bytesRead buffer = Some ds ->
  d ∈ ds ->
  from_client d = id client ∧ to_listener d ∈ listeners.
Proof.
  unfold handleClientMessage. intros H Hd.
  repeat (case_match; simplify_option_eq); try by apply not_elem_of_nil in Hd.
  apply list_elem_of_fmap in Hd as (l & -> & Hl). done.
Qed.

End PollingFacts.

(** ** The request text *)

Section RequestText.

Lemma rev_app_rev_app s t u :
  String.rev_app (String.rev_app s t) u = String.rev_app t (s +:+ u).
Proof.
  revert t. induction s as [|a s IH]; intros t; [done|].
  cbn [String.rev_app]. rewrite IH. by rewrite string_app_cons.
Qed.

Lemma string_rev_involutive s : String.rev (String.rev s) = s.
Proof. unfold String.rev. rewrite rev_app_rev_app. cbn. apply string_app_empty_r. Qed.






Lemma substring_app s t : substring (String.length s) (s +:+ t) = t.
Proof. induction s as [|c s IH]; [reflexivity|]. rewrite string_app_cons. exact IH. Qed.





End RequestText.

(** ** More on the session registry *)

Section RegistryLoops.

Context `{Host : PluginHost}.
Implicit Types (pm : PluginManager) (h : nat) (k key : string).

(** What [erase] does to a key that holds a handle. *)
Lemma erase_present key h pm :
  activeInstances pm !! key = Some h ->
  erase key pm
  = {| availablePlugins := availablePlugins pm;
       activeInstances := delete key (activeInstances pm);
       objects := delete h (objects pm);
       destroyed := destroyed pm ++ [h];
       nextHandle := nextHandle pm |}.
Proof. intros Hk. unfold erase. by rewrite Hk. Qed.

(** A loop that erases the entries of [l] whose key satisfies [P]: the
    handles of those entries are destroyed in the order of [l], and nothing
    else is. *)
Lemma erase_loop (P : string -> bool) (f : PluginManager -> string * nat -> PluginManager)
    (l : list (string * nat)) pm :
  (∀ pm e, f pm e = if P e.1 then erase e.1 pm else pm) ->
  NoDup l.*1 ->
  (∀ k h, (k, h) ∈ l -> activeInstances pm !! k = Some h) ->
  let erased := (List.filter (λ e, P e.1) l).*2 in
  let pm' := fold_left f l pm in
  destroyed pm' = destroyed pm ++ erased
  ∧ (∀ h, objects pm' !! h = if bool_decide (h ∈ erased) then None else objects pm !! h)
  ∧ availablePlugins pm' = availablePlugins pm
  ∧ nextHandle pm' = nextHandle pm.
Proof.
  intros Hf. revert pm. induction l as [|[k0 h0] l IH]; intros pm Hnd Hl.
  - cbn. rewrite app_nil_r. done.
  - rewrite fmap_cons in Hnd. apply NoDup_cons in Hnd as [Hk0 Hnd]. cbn [fst] in Hk0.
    cbn [fold_left List.filter]. rewrite Hf. cbn [fst].
    assert (Hh0 : activeInstances pm !! k0 = Some h0) by (apply Hl; left).
    assert (Hne : ∀ k h, (k, h) ∈ l -> k ≠ k0).
    { intros k h Hin ->. apply Hk0, list_elem_of_fmap. by exists (k0, h). }
    destruct (P k0).
    + rewrite (erase_present _ _ _ Hh0).
      edestruct (IH {| availablePlugins := availablePlugins pm;
                       activeInstances := delete k0 (activeInstances pm);
                       objects := delete h0 (objects pm);
                       destroyed := destroyed pm ++ [h0];
                       nextHandle := nextHandle pm |} Hnd) as (Hd & Ho & Ha & Hn).
      { intros k h Hin. cbn [activeInstances].
        rewrite lookup_delete_ne by (intros <-; by eapply Hne). apply Hl. by right. }
      rewrite Hd, Ha, Hn. cbn [destroyed availablePlugins nextHandle objects fmap list_fmap snd].
      rewrite <- app_assoc. split; [done|]. split; [|done].
      intros h. rewrite Ho. cbn [objects].
      destruct (decide (h = h0)) as [->|Hh].
      * rewrite lookup_delete_eq.
        rewrite (bool_decide_eq_true_2 (h0 ∈ h0 :: _)) by left.
        by case_bool_decide.
      * rewrite lookup_delete_ne by done.
        apply (f_equal (λ b : bool, if b then None else objects pm !! h)).
        apply bool_decide_ext. rewrite elem_of_cons. tauto.
    + apply IH; [done|]. intros k h Hin. apply Hl. by right.
Qed.

(** The handles a loop over the map erases are distinct, and each is the
    handle of a key that satisfies [P]. *)
Lemma erased_handles (P : string -> bool) pm :
  registry_ok pm ->
  let erased := (List.filter (λ e, P e.1) (map_to_list (activeInstances pm))).*2 in
  NoDup erased
  ∧ ∀ h, h ∈ erased ↔ ∃ k, P k = true ∧ activeInstances pm !! k = Some h.
Proof.
  intros Hok erased. split.
  - subst erased.
    assert (Hl : ∀ k h, (k, h) ∈ map_to_list (activeInstances pm) ->
                        activeInstances pm !! k = Some h)
      by (intros k h; apply elem_of_map_to_list).
    pose proof (NoDup_fst_map_to_list (activeInstances pm)) as Hnd.
    induction (map_to_list (activeInstances pm)) as [|[k0 h0] l IH]; [constructor|].
    rewrite fmap_cons in Hnd. apply NoDup_cons in Hnd as [Hk0 Hnd]. cbn [fst] in Hk0.
    cbn [List.filter fst].
    assert (IH' : NoDup (List.filter (λ e : string * nat, P e.1) l).*2).
    { apply IH; [|done]. intros k h Hin. apply Hl. by right. }
    destruct (P k0); [|done].
    rewrite fmap_cons. apply NoDup_cons. split; [|done]. cbn [snd].
    intros Hin. apply list_elem_of_fmap in Hin as ([k h] & -> & Hin).
    apply list_elem_of_In, filter_In in Hin as [Hin _]. apply list_elem_of_In in Hin.
    apply Hk0. cbn [snd] in *.
    assert (k = k0) as ->.
    { eapply (ok_unique _ Hok); [apply Hl; by right|apply Hl; by left]. }
    apply list_elem_of_fmap. by exists (k0, h).
  - intros h. subst erased. rewrite list_elem_of_fmap. split.
    + intros ([k h'] & -> & Hin). apply list_elem_of_In, filter_In in Hin as [Hin HP].
      apply list_elem_of_In, elem_of_map_to_list in Hin. by exists k.
    + intros (k & HP & Hk). exists (k, h). split; [done|].
      apply list_elem_of_In, filter_In. split; [|done].
      by apply list_elem_of_In, elem_of_map_to_list.
Qed.

(** The keys left by such a loop. *)
Lemma erase_loop_lookup (P : string -> bool)
    (f : PluginManager -> string * nat -> PluginManager) (l : list (string * nat)) pm k :
  (∀ pm e, f pm e = if P e.1 then erase e.1 pm else pm) ->
  activeInstances (fold_left f l pm) !! k
  = if P k && bool_decide (k ∈ l.*1) then None else activeInstances pm !! k.
Proof.
  intros Hf. revert pm. induction l as [|[k0 h0] l IH]; intros pm.
  - cbn. by rewrite andb_false_r.
  - rewrite fmap_cons. cbn [fold_left fst]. rewrite IH, Hf. cbn [fst].
    destruct (decide (k = k0)) as [->|Hne].
    + rewrite (bool_decide_eq_true_2 (k0 ∈ k0 :: l.*1)) by left.
      destruct (P k0); cbn [andb]; [|done].
      rewrite activeInstances_erase, lookup_delete_eq. by case_bool_decide.
    + assert (bool_decide (k ∈ k0 :: l.*1) = bool_decide (k ∈ l.*1)) as ->.
      { apply bool_decide_ext. rewrite elem_of_cons. tauto. }
      destruct (P k && bool_decide (k ∈ l.*1)); [done|].
      destruct (P k0); [|done]. by rewrite activeInstances_erase, lookup_delete_ne.
Qed.

Lemma app_underscore_inj a b s s' :
  no_underscore a = true -> no_underscore b = true ->
  a +:+ "_" +:+ s = b +:+ "_" +:+ s' -> a = b ∧ s = s'.
Proof.
  revert b. induction a as [|x a IH]; intros [|y b] Ha Hb H;
    repeat rewrite ?string_app_nil_l, ?string_app_cons in H.
  - by injection H as ->.
  - injection H as <- _. by rewrite no_underscore_cons, Ascii.eqb_refl in Hb.
  - injection H as -> _. by rewrite no_underscore_cons, Ascii.eqb_refl in Ha.
  - injection H as -> H. rewrite no_underscore_cons in Ha, Hb.
    apply andb_true_iff in Ha as [_ Ha]. apply andb_true_iff in Hb as [_ Hb].
    destruct (IH b Ha Hb H) as [-> ->]. done.
Qed.

Lemma makeKey_assigned_inj now now' slotId slotId' :
  makeKey (assigned_id now) slotId = makeKey (assigned_id now') slotId' ->
  now = now' ∧ slotId = slotId'.
Proof.
  unfold makeKey, assigned_id. rewrite !string_app_cons, !string_app_nil_l.
  intros [= H].
  apply app_underscore_inj in H as [H ->]; [|apply no_underscore_pretty_Z..].
  split; [by apply (inj pretty)|done].
Qed.

(** Whatever [loadPlugin] returns, it leaves the other keys alone. *)
Lemma loadPlugin_other_keys clientId slotId path sampleRate pm k :
  k ≠ makeKey clientId slotId ->
  activeInstances (loadPlugin clientId slotId path sampleRate pm).2 !! k
  = activeInstances pm !! k.
Proof.
  intros Hk.
  destruct (loadPlugin clientId slotId path sampleRate pm) as [[] pm'] eqn:E; cbn [snd].
  - apply loadPlugin_success in E as [inst ->].
    unfold assign, make_unique. cbn [snd activeInstances set_activeInstances].
    destruct (activeInstances pm !! makeKey clientId slotId);
      cbn [destroy activeInstances set_activeInstances]; by rewrite lookup_insert_ne.
  - unfold loadPlugin in E. repeat case_match; by simplify_eq.
Qed.

Lemma loadPlugin_failure clientId slotId path sampleRate pm pm' :
  loadPlugin clientId slotId path sampleRate pm = (false, pm') -> pm' = pm.
Proof. unfold loadPlugin. intros E. repeat case_match; by simplify_eq. Qed.

Lemma loadPlugin_other_objects clientId slotId path sampleRate pm k h :
  registry_ok pm ->
  k ≠ makeKey clientId slotId ->
  activeInstances pm !! k = Some h ->
  objects (loadPlugin clientId slotId path sampleRate pm).2 !! h = objects pm !! h.
Proof.
  intros Hok Hk Hh.
  destruct (loadPlugin clientId slotId path sampleRate pm) as [[] pm'] eqn:E; cbn [snd].
  - apply loadPlugin_success in E as [inst ->].
    assert (Hlt : (h < nextHandle pm)%nat) by (eapply ok_below, ok_live; eauto).
    unfold assign, make_unique. cbn [snd activeInstances set_activeInstances].
    destruct (activeInstances pm !! makeKey clientId slotId) as [o|] eqn:Ho;
      cbn [destroy objects set_activeInstances].
    + rewrite lookup_delete_ne, lookup_insert_ne; [done|lia|].
      intros ->. apply Hk. by eapply (ok_unique _ Hok).
    + rewrite lookup_insert_ne; [done|lia].
  - by apply loadPlugin_failure in E as ->.
Qed.

End RegistryLoops.

(** ** Tokens of a registry key *)

Section KeyTokens.

(** The first token: the text before the first underscore. *)
Lemma fromTokens_from_first acc a rest :
  no_underscore a = true ->
  fromTokens_from acc (a +:+ "_" +:+ rest)
  = String.rev (String.rev_app a acc) :: fromTokens_from "" rest.
Proof.
  revert acc. induction a as [|c a IH]; intros acc Ha.
  - rewrite string_app_nil_l, string_app_cons. cbn [fromTokens_from].
    by rewrite Ascii.eqb_refl.
  - rewrite no_underscore_cons in Ha. apply andb_true_iff in Ha as [Hc Ha].
    apply negb_true_iff in Hc.
    rewrite string_app_cons. cbn [fromTokens_from]. rewrite Hc. by rewrite IH.
Qed.

(** Every text is its part before the first underscore, followed by the
    rest. *)
Lemma split_at_underscore s :
  no_underscore s = true
  ∨ ∃ a rest, s = a +:+ "_" +:+ rest ∧ no_underscore a = true.
Proof.
  induction s as [|c s IH]; [by left|].
  destruct (Ascii.eqb c "_") eqn:Hc.
  - right. apply Ascii.eqb_eq in Hc as ->. by exists "", s.
  - destruct IH as [IH|(a & rest & -> & Ha)].
    + left. by rewrite no_underscore_cons, Hc, IH.
    + right. exists (String c a), rest. split; [done|].
      by rewrite no_underscore_cons, Hc, Ha.
Qed.

Lemma no_underscore_app_underscore a rest : no_underscore (a +:+ "_" +:+ rest) = false.
Proof.
  induction a as [|c a IH]; [done|].
  rewrite string_app_cons, no_underscore_cons, IH. apply andb_false_r.
Qed.

End KeyTokens.

Section FrameFacts.

Context `{Host : PluginHost}.

(** The loop body of [captureAndSendUI] at a key that is [a], an
    underscore and [rest], where [a] has no underscore. *)
Lemma captureAndSendUI_entry_split pm a rest h inst :
  no_underscore a = true ->
  objects pm !! h = Some inst ->
  captureAndSendUI_entry pm (a +:+ "_" +:+ rest) h
  = match pluginEditor inst with
    | Some editor => Some (a, ui_frame (jpegBase64 (paintEntireComponent editor)) rest)
    | None => None
    end.
Proof.
  intros Ha Hh. unfold captureAndSendUI_entry. rewrite Hh. cbn [mbind option_bind].
  unfold instance_hasEditor, captureImage.
  destruct (pluginEditor inst) as [editor|]; [|done]. cbn [negb mbind option_bind].
  assert (fromTokens (a +:+ "_" +:+ rest) = a :: fromTokens_from "" rest) as ->.
  { unfold fromTokens.
    replace (isEmpty (a +:+ "_" +:+ rest)) with false by (by destruct a).
    rewrite fromTokens_from_first by done.
    change (String.rev_app a "") with (String.rev a). by rewrite string_rev_involutive. }
  cbn [List.length nth].
  pose proof (fromTokens_from_length "" rest).
  destruct (Nat.leb_spec 2 (S (List.length (fromTokens_from "" rest)))); [|lia].
  do 3 f_equal.
  replace (String.length a + 1)%nat with (String.length (a +:+ "_"))
    by (rewrite length_string_app; reflexivity).
  rewrite <- string_app_assoc. apply substring_app.
Qed.

End FrameFacts.

(** ** The handlers of [MainComponent] *)

Section MoreHandlerFacts.

Context `{Host : PluginHost}.
Variable describe : var -> string.
Variable var_to_double : var -> Double.

(** The handle and the object a successful load leaves under its key. *)
Lemma loadPlugin_stores clientId slotId path sampleRate pm pm' :
  registry_ok pm ->
  loadPlugin clientId slotId path sampleRate pm = (true, pm') ->
  getInstance clientId slotId pm' = Some (nextHandle pm)
  ∧ is_Some (objects pm' !! nextHandle pm).
Proof.
  intros Hok Hload. apply loadPlugin_success in Hload as [inst ->].
  split; [apply assign_lookup|].
  eapply (ok_live _ (registry_ok_store _ inst _ Hok)), assign_lookup.
Qed.

(** The description [loadPlugin] uses for a path that is listed: the first
    listed one with that path. *)
Lemma find_first_listed (plugins : list PluginDescription) i plugin :
  plugins !! i = Some plugin ->
  ∃ j first,
    (j <= i)%nat ∧ plugins !! j = Some first
    ∧ fileOrIdentifier first = fileOrIdentifier plugin
    ∧ (∀ j' other, (j' < j)%nat -> plugins !! j' = Some other ->
                   fileOrIdentifier other ≠ fileOrIdentifier plugin)
    ∧ List.find (λ p, String.eqb (fileOrIdentifier p) (fileOrIdentifier plugin)) plugins
      = Some first.
Proof.
  revert i. induction plugins as [|p plugins IH]; intros i Hi; [done|].
  cbn [List.find].
  destruct (String.eqb_spec (fileOrIdentifier p) (fileOrIdentifier plugin)) as [E|E].
  - exists 0%nat, p. split; [lia|]. split; [done|]. split; [done|]. split; [|done].
    intros j' other Hj'. lia.
  - destruct i as [|i]; [cbn in Hi; by simplify_eq|].
    destruct (IH i Hi) as (j & first & Hj & Hfirst & Hpath & Hbefore & Hfind).
    exists (S j), first. split; [lia|]. split; [done|]. split; [done|]. split; [|done].
    intros [|j'] other Hj' Hother; cbn in Hother; [by simplify_eq|].
    eapply Hbefore; [|done]. lia.
Qed.

(** The channels of a request as the handler reads them into the buffer. *)
Lemma read_channel_Some chData numSamples :
  is_Some (read_channel var_to_double chData numSamples)
  ↔ numSamples = 0%nat ∨ is_Some chData.
Proof.
  unfold read_channel. rewrite mapM_is_Some, Forall_forall. split.
  - intros H. destruct numSamples as [|n]; [by left|]. right.
    destruct (H 0%nat) as [x Hx]; [apply list_elem_of_In, in_seq; lia|].
    cbn in Hx. destruct chData; [eauto|done].
  - intros [->|[a ->]]; intros s Hs; [by apply not_elem_of_nil in Hs|]. cbn. eauto.
Qed.

Lemma read_channel_value a numSamples :
  read_channel var_to_double (Some a) numSamples
  = Some (map (λ s, double_to_float (var_to_double (element a s))) (seq 0 numSamples)).
Proof.
  unfold read_channel. apply mapM_Some_2. cbn [mbind option_bind].
  induction (seq 0 numSamples) as [|s l IH]; constructor; done.
Qed.

Lemma mapM_map {A B C} (f : B -> option C) (g : A -> B) (l : list A) :
  mapM f (map g l) = mapM (λ x, f (g x)) l.
Proof. induction l as [|x l IH]; [done|]. cbn. by rewrite IH. Qed.

(** A loop over the indices of an array is a loop over its elements. *)
Lemma mapM_seq_nth {A B} (g : A -> option B) (l : list A) (d : A) :
  mapM (λ i, g (nth i l d)) (seq 0 (List.length l)) = mapM g l.
Proof.
  induction l as [|x l IH]; [done|].
  cbn [List.length seq]. rewrite <- seq_shift. cbn. by rewrite mapM_map, IH.
Qed.

(** The samples read from one channel: those of its array, the void value
    where the array is shorter than asked. *)
Lemma read_channel_row chData numSamples row :
  read_channel var_to_double chData numSamples = Some row ->
  row = map (λ s, double_to_float (var_to_double (element (default [] chData) s)))
            (seq 0 numSamples).
Proof.
  destruct chData as [a|]; cbn [default].
  - rewrite read_channel_value. by intros [= <-].
  - destruct numSamples as [|n]; [by intros [= <-]|]. done.
Qed.

Lemma read_channels_rows (channels : list var) numSamples buffer :
  mapM (λ ch, read_channel var_to_double (getArray ch) numSamples) channels = Some buffer ->
  buffer = map (λ ch, map (λ s, double_to_float
                                  (var_to_double (element (default [] (getArray ch)) s)))
                          (seq 0 numSamples)) channels.
Proof.
  intros H. apply mapM_Some_1 in H.
  induction H as [|ch row channels buffer Hrow _ IH]; [done|].
  cbn [map]. by rewrite IH, (read_channel_row _ _ _ Hrow).
Qed.

(** [handleProcessAudio] for a session that exists and a [channels] field
    that is an array. *)
Lemma handleProcessAudio_session clientId data pm h inst channels :
  getInstance clientId (toString describe (property data "slot_id")) pm = Some h ->
  objects pm !! h = Some inst ->
  property data "channels" = VArray channels ->
  handleProcessAudio describe var_to_double clientId data pm
  = (first ← getArray (element channels 0);
     buffer ← mapM (λ ch, read_channel var_to_double (getArray ch) (List.length first))
                   channels;
     let '(processor, buffer) := processBlock (audioProcessor inst) buffer in
     Some ({| availablePlugins := availablePlugins pm;
              activeInstances := activeInstances pm;
              objects := <[h := {| audioProcessor := processor;
                                   pluginEditor := pluginEditor inst;
                                   pluginName := pluginName inst |}]> (objects pm);
              destroyed := destroyed pm;
              nextHandle := nextHandle pm |},
           [(clientId,
             audio_reply
               (VArray
                  (map (λ ch, VArray (map (λ s, VDouble (float_to_double
                          (nth s (nth ch buffer [])
                               (double_to_float (var_to_double VVoid)))))
                                          (seq 0 (List.length first))))
                       (seq 0 (List.length channels))))
               (toString describe (property data "slot_id")))])).
Proof.
  intros Hget Hinst Hch.
  unfold handleProcessAudio. rewrite Hget, Hch. cbn [isArray negb getArray mbind option_bind].
  rewrite Hinst. cbn [mbind option_bind].
  destruct (getArray (element channels 0)) as [first|]; [|done]. cbn [mbind option_bind].
  unfold element at 1. by rewrite (mapM_seq_nth (λ ch, read_channel var_to_double (getArray ch)
                                                    (List.length first))).
Qed.

(** Replacing the object of the session under [key] keeps the others. *)
Lemma others_kept_update key h inst pm :
  registry_ok pm ->
  activeInstances pm !! key = Some h ->
  others_kept key pm {| availablePlugins := availablePlugins pm;
                        activeInstances := activeInstances pm;
                        objects := <[h := inst]> (objects pm);
                        destroyed := destroyed pm;
                        nextHandle := nextHandle pm |}.
Proof.
  intros Hok Hkey. split; [done|]. intros k Hk. split; [done|]. intros h' Hh'. cbn. split.
  - rewrite lookup_insert_ne; [done|]. intros ->. by apply Hk, (ok_unique _ Hok _ _ _ Hh' Hkey).
  - intros Hd. destruct (ok_dead _ Hok _ Hd) as [Hn _].
    destruct (ok_live _ Hok _ _ Hh') as [? ?]. congruence.
Qed.

Lemma others_kept_refl key pm : registry_ok pm -> others_kept key pm pm.
Proof.
  intros Hok. split; [done|]. intros k Hk. split; [done|]. intros h Hh. split; [done|].
  intros Hd. destruct (ok_dead _ Hok _ Hd) as [Hn _].
  destruct (ok_live _ Hok _ _ Hh) as [? ?]. congruence.
Qed.

Lemma others_kept_erase key pm : registry_ok pm -> others_kept key pm (erase key pm).
Proof.
  intros Hok. split; [unfold erase; by destruct (activeInstances pm !! key)|].
  intros k Hk. split; [by rewrite activeInstances_erase, lookup_delete_ne|].
  intros h Hh. split; [by eapply objects_erase_other|].
  intros Hd. pose proof (registry_ok_erase key pm Hok) as Hok'.
  destruct (ok_dead _ Hok' _ Hd) as [Hn _].
  rewrite (objects_erase_other key pm k h Hok Hk Hh) in Hn.
  destruct (ok_live _ Hok _ _ Hh) as [? ?]. congruence.
Qed.

Lemma others_kept_loadPlugin clientId slotId path sampleRate pm :
  registry_ok pm ->
  others_kept (makeKey clientId slotId) pm (loadPlugin clientId slotId path sampleRate pm).2.
Proof.
  intros Hok. split.
  - destruct (loadPlugin clientId slotId path sampleRate pm) as [[] pm'] eqn:E; cbn [snd].
    + apply loadPlugin_success in E as [inst ->].
      unfold assign, make_unique. cbn [snd activeInstances set_activeInstances].
      by destruct (activeInstances pm !! makeKey clientId slotId).
    + by apply loadPlugin_failure in E as ->.
  - intros k Hk. split; [by apply loadPlugin_other_keys|].
    intros h Hh.
    assert (Ho : objects (loadPlugin clientId slotId path sampleRate pm).2 !! h
                 = objects pm !! h) by (by eapply loadPlugin_other_objects).
    split; [done|]. intros Hd.
    pose proof (registry_ok_loadPlugin clientId slotId path sampleRate pm Hok) as Hok'.
    destruct (ok_dead _ Hok' _ Hd) as [Hn _].
    destruct (ok_live _ Hok _ _ Hh) as [inst Hinst]. congruence.
Qed.

(** What the handlers that work on one session leave of the registry. *)
Lemma handleSetParam_frame clientId data pm pm' sends :
  registry_ok pm ->
  handleSetParam describe var_to_double clientId data pm = Some (pm', sends) ->
  others_kept (makeKey clientId (toString describe (property data "slot_id"))) pm pm'
  ∧ ∃ reply, sends = [(clientId, reply)]
             ∧ property reply "action" = VString "PARAM_CHANGED".
Proof.
  intros Hok. unfold handleSetParam.
  destruct (getInstance _ _ pm) as [h|] eqn:Hget; cbn [mbind option_bind].
  - destruct (objects pm !! h) as [inst|] eqn:Hh; cbn [mbind option_bind]; [|done].
    intros [= <- <-]. split; [by apply others_kept_update|]. by eexists.
  - intros [= <- <-]. split; [by apply others_kept_refl|]. by eexists.
Qed.

Lemma handleProcessAudio_frame clientId data pm pm' sends :
  registry_ok pm ->
  handleProcessAudio describe var_to_double clientId data pm = Some (pm', sends) ->
  others_kept (makeKey clientId (toString describe (property data "slot_id"))) pm pm'
  ∧ ∃ reply, sends = [(clientId, reply)]
             ∧ property reply "action" = VString "AUDIO_PROCESSED".
Proof.
  intros Hok. unfold handleProcessAudio.
  destruct (getInstance _ _ pm) as [h|] eqn:Hget;
    [|intros [= <- <-]; split; [by apply others_kept_refl|by eexists]].
  destruct (negb _); [intros [= <- <-]; split; [by apply others_kept_refl|by eexists]|].
  destruct (getArray (property data "channels")); cbn [mbind option_bind]; [|done].
  destruct (objects pm !! h) as [inst|] eqn:Hh; cbn [mbind option_bind]; [|done].
  destruct (getArray _); cbn [mbind option_bind]; [|done].
  destruct (mapM _ _); cbn [mbind option_bind]; [|done].
  destruct (processBlock _ _). intros [= <- <-].
  split; [by apply others_kept_update|]. by eexists.
Qed.

End MoreHandlerFacts.

Section DispatchFacts.

Context `{Host : PluginHost}.
Variable describe : var -> string.
Variable var_to_double : var -> Double.
Variable double_le_zero : Double -> bool.
Variable rate_44100 : Double.
Variable getParameter : Processor -> Z -> Float.
Variable var_to_int : var -> Z.
Variable int_to_float : Z -> Float.
Variable wheel_deltaY : Z -> Float.
Variable editor_call : MainComponent.MouseCall -> PluginInstance -> PluginInstance.

Lemma handleLoadPlugin_frame clientId data pm pm' sends :
  registry_ok pm ->
  MainComponent.handleLoadPlugin describe var_to_double double_le_zero rate_44100
    getParameter clientId data pm = Some (pm', sends) ->
  registry_ok pm'
  ∧ others_kept (makeKey clientId (toString describe (property data "slot_id"))) pm pm'
  ∧ ∃ reply, sends = [(clientId, reply)]
             ∧ property reply "action" = VString "LOAD_PLUGIN".
Proof.
  intros Hok. unfold MainComponent.handleLoadPlugin.
  set (rate := if double_le_zero _ then _ else _).
  pose proof (registry_ok_loadPlugin clientId (toString describe (property data "slot_id"))
                (toString describe (property data "path")) rate pm Hok) as Hok'.
  pose proof (others_kept_loadPlugin clientId (toString describe (property data "slot_id"))
                (toString describe (property data "path")) rate pm Hok) as Hkept.
  destruct (loadPlugin _ _ _ _ _) as [success pm1]. cbn [snd] in *.
  destruct success.
  - destruct (getInstance _ _ pm1) as [h|].
    + destruct (objects pm1 !! h) as [inst|]; cbn [mbind option_bind]; [|done].
      intros [= <- <-]. do 2 (split; [done|]). by eexists.
    + cbn [mbind option_bind]. intros [= <- <-]. do 2 (split; [done|]). by eexists.
  - cbn [mbind option_bind]. intros [= <- <-]. do 2 (split; [done|]). by eexists.
Qed.

Lemma handleMouseEvent_frame clientId data type pm pm' :
  registry_ok pm ->
  MainComponent.handleMouseEvent describe var_to_int int_to_float wheel_deltaY editor_call
    clientId data type pm = Some pm' ->
  registry_ok pm'
  ∧ others_kept (makeKey clientId (toString describe (property data "slot_id"))) pm pm'.
Proof.
  intros Hok. unfold MainComponent.handleMouseEvent.
  destruct (getInstance _ _ pm) as [h|] eqn:Hget;
    [|intros [= <-]; split; [done|by apply others_kept_refl]].
  destruct (objects pm !! h) as [inst|] eqn:Hh; cbn [mbind option_bind]; [|done].
  destruct (pluginEditor inst); [|intros [= <-]; split; [done|by apply others_kept_refl]].
  intros [= <-]. split; [apply registry_ok_update; [done|by rewrite Hh]|].
  by apply others_kept_update.
Qed.

Lemma handleLoadPlugin_defined clientId data pm :
  registry_ok pm ->
  is_Some (MainComponent.handleLoadPlugin describe var_to_double double_le_zero rate_44100
             getParameter clientId data pm).
Proof.
  intros Hok. unfold MainComponent.handleLoadPlugin.
  set (rate := if double_le_zero _ then _ else _).
  destruct (loadPlugin _ _ _ _ _) as [[] pm1] eqn:E.
  - destruct (loadPlugin_stores _ _ _ _ _ _ Hok E) as [Hget [inst Hinst]].
    rewrite Hget, Hinst. by eexists.
  - by eexists.
Qed.

Lemma handleMouseEvent_defined clientId data type pm :
  registry_ok pm ->
  is_Some (MainComponent.handleMouseEvent describe var_to_int int_to_float wheel_deltaY
             editor_call clientId data type pm).
Proof.
  intros Hok. unfold MainComponent.handleMouseEvent.
  destruct (getInstance _ _ pm) as [h|] eqn:Hget; [|by eexists].
  destruct (ok_live _ Hok _ _ Hget) as [inst ->]. cbn [mbind option_bind].
  destruct (pluginEditor inst); by eexists.
Qed.

Lemma handleSetParam_defined clientId data pm :
  registry_ok pm ->
  is_Some (handleSetParam describe var_to_double clientId data pm).
Proof.
  intros Hok. unfold handleSetParam.
  destruct (getInstance _ _ pm) as [h|] eqn:Hget; [|by eexists].
  destruct (ok_live _ Hok _ _ Hget) as [inst ->]. by eexists.
Qed.

Lemma handleLoadPlugin_reply clientId data pm pm' sends :
  MainComponent.handleLoadPlugin describe var_to_double double_le_zero rate_44100
    getParameter clientId data pm = Some (pm', sends) ->
  ∃ reply, sends = [(clientId, reply)] ∧ property reply "action" = VString "LOAD_PLUGIN".
Proof.
  unfold MainComponent.handleLoadPlugin.
  destruct (loadPlugin _ _ _ _ _) as [[] pm1].
  - destruct (getInstance _ _ pm1) as [h|].
    + destruct (objects pm1 !! h) as [inst|]; cbn [mbind option_bind]; [|done].
      intros [= <- <-]. by eexists.
    + intros [= <- <-]. by eexists.
  - intros [= <- <-]. by eexists.
Qed.

Lemma handleSetParam_reply clientId data pm pm' sends :
  handleSetParam describe var_to_double clientId data pm = Some (pm', sends) ->
  ∃ reply, sends = [(clientId, reply)] ∧ property reply "action" = VString "PARAM_CHANGED".
Proof.
  unfold handleSetParam. destruct (_ : option PluginManager); cbn [mbind option_bind]; [|done].
  intros [= <- <-]. by eexists.
Qed.

Lemma handleProcessAudio_reply clientId data pm pm' sends :
  handleProcessAudio describe var_to_double clientId data pm = Some (pm', sends) ->
  ∃ reply, sends = [(clientId, reply)] ∧ property reply "action" = VString "AUDIO_PROCESSED".
Proof.
  unfold handleProcessAudio.
  destruct (getInstance _ _ pm) as [h|]; [|intros [= <- <-]; by eexists].
  destruct (negb _); [intros [= <- <-]; by eexists|].
  destruct (getArray (property data "channels")); cbn [mbind option_bind]; [|done].
  destruct (objects pm !! h) as [inst|]; cbn [mbind option_bind]; [|done].
  destruct (getArray _); cbn [mbind option_bind]; [|done].
  destruct (mapM _ _); cbn [mbind option_bind]; [|done].
  destruct (processBlock _ _). intros [= <- <-]. by eexists.
Qed.

End DispatchFacts.

(** * Further results *)

Section BufferResults.

(** X1.  The decoder reads no byte at or beyond index [length]: two buffers
    with the same first [length] bytes decode to the same result. *)
Theorem decoder_reads_within_length data data' length :
  take (Z.to_nat length) data = take (Z.to_nat length) data' ->
  decodeWebSocketFrame data length = decodeWebSocketFrame data' length.
Proof.
  intros E. unfold decodeWebSocketFrame.
  rewrite <- (decodeHeader_prefix data data' length E).
  destruct (decodeHeader data length) as [[[[masked pl] mk] off]|] eqn:Hh; [|done].
  destruct (decodeHeader_within _ _ _ _ _ _ Hh) as [Ho Hm].
  destruct (int_add off pl) as [frameEnd|] eqn:Hadd; [|done].
  apply int_add_Some in Hadd as ->. cbn [mbind option_bind].
  destruct (Z.ltb_spec length (off + pl)); [done|].
  destruct (int_add pl 1); [|done]. cbn [mbind option_bind].
  case_match; [done|]. f_equal.
  apply (decode_loop_prefix data data' length); [done|lia|lia|].
  intros Hk. destruct (Hm Hk). lia.
Qed.

(** X2.  The decoder looks at the first byte of a frame through its low
    four bits only: the reserved bits, like the FIN bit, change nothing, so
    that a frame of an extension the server never agreed to (a compressed
    one, say) is decoded like a plain one. *)
Theorem decoder_ignores_reserved_bits (b b' : ascii) (rest : list ascii) (len : Z) :
  Z.land (uchar b) 0x0F = Z.land (uchar b') 0x0F ->
  decodeWebSocketFrame (b :: rest) len = decodeWebSocketFrame (b' :: rest) len
  ∧ (data_opcode_ok b ↔ data_opcode_ok b').
Proof.
  intros H. split; [by apply decode_first_byte|].
  unfold data_opcode_ok. by rewrite H.
Qed.

(** X3.  A frame of which only a part has arrived is dropped: every proper
    prefix of a frame decodes to the empty string, the decoder's "no
    message". *)
Theorem incomplete_frame_is_dropped b0 key payload n :
  data_opcode_ok b0 ->
  match key with Some k => List.length k = 4%nat | None => True end ->
  Z.of_nat (List.length payload) < 2 ^ 31 - 14 ->
  let frame := wire_frame b0 key payload in
  n < Z.of_nat (List.length frame) ->
  decodeWebSocketFrame (take (Z.to_nat n) frame) n = Some "".
Proof.
  intros Hop Hkey Hn frame Hlt.
  destruct (decodeHeader_wire_frame b0 key payload Hop Hkey Hn)
    as (masked & maskKey & offset & Hh & Hend). fold frame in Hh, Hend.
  destruct (decodeHeader_within _ _ _ _ _ _ Hh) as [Ho _].
  pose proof (decodeHeader_offset_max _ _ _ _ _ _ Hh) as Hmax.
  unfold decodeWebSocketFrame.
  rewrite (decodeHeader_prefix (take (Z.to_nat n) frame) frame n)
    by (by rewrite take_take, Nat.min_id).
  rewrite (decodeHeader_length _ _ n _ _ _ _ Hh).
  destruct (Z.ltb_spec n offset); [done|].
  rewrite (int_add_small offset) by lia. cbn [mbind option_bind].
  destruct (Z.ltb_spec n (offset + Z.of_nat (List.length payload))); [done|lia].
Qed.

(** X4.  The payload loop appends one [char] at a time, and appending the
    NUL character to a [juce::String] appends nothing: the decoded message is
    the payload without its NUL bytes. *)
Theorem nul_bytes_of_a_payload_are_dropped b0 key payload :
  data_opcode_ok b0 ->
  match key with Some k => List.length k = 4%nat | None => True end ->
  Z.of_nat (List.length payload) < 2 ^ 31 - 14 ->
  let frame := wire_frame b0 key payload in
  let message := string_of_list_ascii (List.filter (λ c, negb (uchar c =? 0)) payload) in
  let nuls := List.filter (λ c, uchar c =? 0) payload in
  decodeWebSocketFrame frame (Z.of_nat (List.length frame)) = Some message
  ∧ is_text message = true
  ∧ (String.length message + List.length nuls = List.length payload)%nat.
Proof.
  intros Hop Hkey Hn frame message nuls. split; [|split].
  - subst frame message. rewrite <- from_bytes_filter. by apply decode_wire_frame.
  - subst message. clear. induction payload as [|c l IH]; [done|].
    cbn [List.filter]. destruct (uchar c =? 0) eqn:E; cbn [negb]; [done|].
    cbn [string_of_list_ascii is_text]. by rewrite E, IH.
  - subst message nuls. rewrite length_string_of_list_ascii. clear.
    induction payload as [|c l IH]; [done|].
    cbn [List.filter]. destruct (uchar c =? 0); cbn [negb List.length]; lia.
Qed.

End BufferResults.

Section ConnectionResults.

Context `{Host : PluginHost}.
Variable sha1_base64 : string -> string.
Variable parse : string -> var.

(** X5.  [handleNewConnection] registers the connection exactly when the
    socket became ready, some bytes were read and the request contains
    [upgrade: websocket] in any letter case (the case-sensitive test adds
    nothing).  Otherwise the server is left as it was.  When it registers, the
    client is stored under the assigned id as a WebSocket with at most one
    write on its socket, no other client changes, and one [onClientConnected]
    is queued for each listener. *)
Theorem connection_is_registered_iff_upgrade now ready bytesRead buffer server :
  let request := fromBuffer buffer (Z.to_nat bytesRead) in
  let clientId := assigned_id now in
  let accepted := (ready =? 1) && (0 <? bytesRead)
                  && containsIgnoreCase request "upgrade: websocket" in
  let server' := handleNewConnection sha1_base64 now ready bytesRead buffer server in
  (accepted = false -> server' = server)
  ∧ (accepted = true ->
       (∃ c, clients server' !! clientId = Some c
             ∧ id c = clientId ∧ isWebSocket c = true
             ∧ (List.length (socket_written c) <= 1)%nat)
       ∧ (∀ k, k ≠ clientId -> clients server' !! k = clients server !! k)
       ∧ listeners server' = listeners server
       ∧ notifications server'
         = notifications server
           ++ map (λ listener, onClientConnected listener clientId) (listeners server)).
Proof.
  intros request clientId accepted server'. subst accepted server'.
  unfold handleNewConnection. fold request. fold clientId.
  rewrite has_upgrade_header_ignoring_case.
  destruct (ready =? 1); cbn [negb andb]; [|by split].
  destruct (0 <? bytesRead); cbn [andb]; [|by split].
  destruct (containsIgnoreCase request "upgrade: websocket"); [|by split].
  split; [done|]. intros _. cbn [clients listeners notifications].
  split; [|split; [|done]].
  - eexists. split; [apply lookup_insert_eq|]. cbn.
    destruct (id_performWebSocketHandshake sha1_base64
                {| socket_written := []; id := clientId; isWebSocket := false |} request)
      as (Hid & _ & Hlen).
    split; [exact Hid|]. split; [done|]. exact Hlen.
  - intros k Hk. by rewrite lookup_insert_ne.
Qed.

(** X6.  The id of a connection is the millisecond at which it was
    accepted.  Of two upgrade requests accepted in the same millisecond the
    second replaces the client of the first under their common id, although
    both are announced to the listeners; accepted at different milliseconds,
    both stay registered. *)
Theorem connections_of_one_millisecond_share_an_id
    now now' bytesRead bytesRead' buffer buffer' server :
  let request := fromBuffer buffer (Z.to_nat bytesRead) in
  let request' := fromBuffer buffer' (Z.to_nat bytesRead') in
  0 < bytesRead -> 0 < bytesRead' ->
  has_upgrade_header request = true -> has_upgrade_header request' = true ->
  let server1 := handleNewConnection sha1_base64 now 1 bytesRead buffer server in
  let server2 := handleNewConnection sha1_base64 now' 1 bytesRead' buffer' server1 in
  let second :=
    set_isWebSocket
      (performWebSocketHandshake sha1_base64
         {| socket_written := []; id := assigned_id now'; isWebSocket := false |}
         request') true in
  (now' = now ->
     clients server2 = <[assigned_id now := second]> (clients server)
     ∧ notifications server2
       = notifications server
         ++ map (λ listener, onClientConnected listener (assigned_id now)) (listeners server)
         ++ map (λ listener, onClientConnected listener (assigned_id now)) (listeners server))
  ∧ (now' ≠ now ->
     assigned_id now' ≠ assigned_id now
     ∧ clients server2 !! assigned_id now = clients server1 !! assigned_id now
     ∧ is_Some (clients server1 !! assigned_id now)
     ∧ clients server2 !! assigned_id now' = Some second).
Proof.
  intros request request' Hread Hread' Hup Hup' server1 server2 second.
  subst server2 server1.
  rewrite (handleNewConnection_accepts _ now' bytesRead' buffer' _ Hread' Hup').
  rewrite (handleNewConnection_accepts _ now bytesRead buffer _ Hread Hup).
  cbn [clients listeners notifications]. fold request request' second. split.
  - intros ->. split; [apply insert_insert_eq|]. by rewrite <- app_assoc.
  - intros Hne.
    assert (assigned_id now' ≠ assigned_id now) by (intros E; by apply assigned_id_inj in E).
    split; [done|]. split; [by rewrite lookup_insert_ne|].
    split; [rewrite lookup_insert_eq; eauto|apply lookup_insert_eq].
Qed.


(** X8.  Every client the server keeps is stored under its own id, has an
    id the server assigned, and is marked as a WebSocket; each operation on
    the clients keeps this. *)
Theorem server_ok_is_kept server :
  server_ok server ->
  (∀ now ready bytesRead buffer,
     server_ok (handleNewConnection sha1_base64 now ready bytesRead buffer server))
  ∧ (∀ clientId jsonStr server',
       send clientId jsonStr server = Some server' -> server_ok server')
  ∧ (∀ jsonStr server', broadcast jsonStr server = Some server' -> server_ok server')
  ∧ (∀ isConnected incoming server' deliveries,
       run_clients parse isConnected incoming server = Some (server', deliveries) ->
       server_ok server')
  ∧ server_ok (stop server).
Proof.
  intros Hok. split; [|split; [|split; [|split]]].
  - intros. by apply server_ok_handleNewConnection.
  - intros. by eapply server_ok_send.
  - intros. by eapply server_ok_broadcast.
  - intros isConnected incoming server' deliveries. unfold run_clients.
    destruct (mapM _ _); [|done]. cbn [mbind option_bind]. intros [= <- _].
    by apply server_ok_remove_clients.
  - intros k c Hk. cbn in Hk. by rewrite lookup_empty in Hk.
Qed.

(** X9.  [send] with a 7-bit text of at most 65535 characters always has a
    result.  It changes nothing but the addressed client: an unknown id, or a
    client that is not a WebSocket, gets nothing; a WebSocket client gets one
    more write on its socket, a frame that decodes to the text. *)
Theorem send_writes_one_frame_to_one_client clientId jsonStr server :
  is_ascii_text jsonStr = true ->
  Z.of_nat (String.length jsonStr) <= 65535 ->
  ∃ server',
    send clientId jsonStr server = Some server'
    ∧ listeners server' = listeners server
    ∧ notifications server' = notifications server
    ∧ (∀ k, k ≠ clientId -> clients server' !! k = clients server !! k)
    ∧ match clients server !! clientId with
      | None => clients server' !! clientId = None
      | Some c =>
          if isWebSocket c then
            ∃ frame,
              clients server' !! clientId = Some (write c frame)
              ∧ sendWebSocketFrame jsonStr = Some frame
              ∧ decodeWebSocketFrame frame (Z.of_nat (List.length frame)) = Some jsonStr
          else clients server' !! clientId = Some c
      end.
Proof.
  intros Hascii Hlen.
  destruct (roundtrip_ascii jsonStr Hascii Hlen) as (frame & Hframe & Hdec).
  unfold send. destruct (clients server !! clientId) as [c|] eqn:Hc.
  - destruct (isWebSocket c) eqn:Hws; cbn [negb].
    + rewrite Hframe. cbn [mbind option_bind]. eexists. split; [done|].
      cbn [clients listeners notifications]. do 2 (split; [done|]).
      split; [intros k Hk; by rewrite lookup_insert_ne|].
      exists frame. split; [apply lookup_insert_eq|done].
    + eexists. split; [done|]. do 3 (split; [done|]). by rewrite Hc.
  - eexists. split; [done|]. do 3 (split; [done|]). by rewrite Hc.
Qed.

(** X10.  [broadcast] with such a text writes the frame of the text once to
    the socket of every client that is a WebSocket, and nothing else changes:
    it does to each client what [send] to that client does. *)
Theorem broadcast_sends_to_every_client jsonStr server :
  is_ascii_text jsonStr = true ->
  Z.of_nat (String.length jsonStr) <= 65535 ->
  ∃ frame server',
    sendWebSocketFrame jsonStr = Some frame
    ∧ broadcast jsonStr server = Some server'
    ∧ listeners server' = listeners server
    ∧ notifications server' = notifications server
    ∧ (∀ k, clients server' !! k
            = (λ c, if isWebSocket c then write c frame else c) <$> clients server !! k)
    ∧ (∀ k sent, send k jsonStr server = Some sent ->
                 clients server' !! k = clients sent !! k).
Proof.
  intros Hascii Hlen.
  destruct (roundtrip_ascii jsonStr Hascii Hlen) as (frame & Hframe & _).
  destruct (broadcast_defined jsonStr frame server Hframe) as (server' & Hb & Hl & Hn & Hc).
  exists frame, server'. do 4 (split; [done|]). split; [exact Hc|].
  intros k sent. rewrite Hc. unfold send.
  destruct (clients server !! k) as [c|] eqn:Hk; [|intros [= <-]; by rewrite Hk].
  cbn [fmap option_fmap option_map].
  destruct (isWebSocket c) eqn:Hws; cbn [negb].
  - rewrite Hframe. cbn [mbind option_bind]. intros [= <-]. cbn [clients].
    by rewrite lookup_insert_eq.
  - intros [= <-]. by rewrite Hk.
Qed.

(** X11.  One turn of the loops of [run] over the clients has a result when
    every read decodes with a defined result.  It then removes exactly the
    clients whose socket is no longer connected, queues one
    [onClientDisconnected] per removed client and listener, keeps every
    connected client as it was, and delivers messages only from connected
    clients with a ready socket, to the listeners, under the client's id. *)
Theorem disconnected_clients_are_removed isConnected incoming server :
  ((∀ k bytesRead buffer, incoming k = Some (bytesRead, buffer) ->
      is_Some (decodeWebSocketFrame buffer bytesRead)) ->
   is_Some (run_clients parse isConnected incoming server))
  ∧ ∀ server' deliveries,
      run_clients parse isConnected incoming server = Some (server', deliveries) ->
      (∀ k, clients server' !! k = if isConnected k then clients server !! k else None)
      ∧ listeners server' = listeners server
      ∧ (∃ removed,
           NoDup removed
           ∧ (∀ k, k ∈ removed ↔ is_Some (clients server !! k) ∧ isConnected k = false)
           ∧ notifications server'
             = notifications server
               ++ (removed ≫= λ id,
                     map (λ listener, onClientDisconnected listener id) (listeners server)))
      ∧ (∀ d, d ∈ deliveries ->
           ∃ k c, clients server !! k = Some c
                  ∧ isConnected k = true ∧ is_Some (incoming k)
                  ∧ from_client d = id c ∧ to_listener d ∈ listeners server).
Proof.
  split.
  - intros Hdef. unfold run_clients.
    assert (is_Some (mapM (poll_client parse isConnected incoming (listeners server))
                          (map_to_list (clients server)))) as [ds ->]; [|by eexists].
    apply mapM_is_Some, Forall_forall. intros [k c] _. cbn.
    unfold poll_client. cbn [fst snd].
    destruct (isConnected k); cbn [negb]; [|by eexists].
    destruct (incoming k) as [[n buf]|] eqn:Hin; [|by eexists].
    destruct (Hdef _ _ _ Hin) as [message Hm].
    unfold handleClientMessage. rewrite Hm. cbn [mbind option_bind].
    repeat case_match; by eexists.
  - intros server' deliveries. unfold run_clients.
    destruct (mapM _ _) as [ds|] eqn:Hds; [|done]. cbn [mbind option_bind].
    intros [= <- <-].
    set (removed := (List.filter (λ entry : string * Client, negb (isConnected entry.1))
                                 (map_to_list (clients server))).*1).
    assert (Hrem : ∀ k, k ∈ removed ↔ is_Some (clients server !! k) ∧ isConnected k = false).
    { intros k. subst removed. rewrite list_elem_of_fmap. split.
      - intros ([k' c] & -> & Hin). apply list_elem_of_In, filter_In in Hin as [Hin Hc].
        apply list_elem_of_In, elem_of_map_to_list in Hin. cbn in *.
        split; [eauto|by apply negb_true_iff].
      - intros [[c Hc] Hk]. exists (k, c). split; [done|].
        apply list_elem_of_In, filter_In. split.
        + by apply list_elem_of_In, elem_of_map_to_list.
        + cbn. by rewrite Hk. }
    destruct (remove_clients_spec removed server) as (Hc & Hl & Hn).
    split; [|split; [done|split]].
    + intros k. rewrite Hc. case_bool_decide as Hk.
      * apply Hrem in Hk as [_ ->]. done.
      * destruct (isConnected k) eqn:Hcon; [done|].
        destruct (clients server !! k) eqn:E; [|done].
        destruct Hk. apply Hrem. eauto.
    + exists removed. split; [|done].
      subst removed. clear.
      pose proof (NoDup_fst_map_to_list (clients server)) as Hnd.
      induction (map_to_list (clients server)) as [|e l IH]; [constructor|].
      rewrite fmap_cons in Hnd. apply NoDup_cons in Hnd as [He Hnd].
      cbn [List.filter]. destruct (negb (isConnected e.1)); [|by apply IH].
      rewrite fmap_cons. apply NoDup_cons. split; [|by apply IH].
      intros Hin. apply He. apply list_elem_of_fmap in Hin as (e' & -> & Hin).
      apply list_elem_of_fmap. exists e'. split; [done|].
      apply list_elem_of_In, filter_In in Hin as [Hin _]. by apply list_elem_of_In.
    + intros d Hd. apply list_elem_of_In, in_concat in Hd as (ds' & Hds' & Hd).
      apply list_elem_of_In in Hds'. apply list_elem_of_In in Hd.
      apply mapM_Some_1 in Hds.
      apply list_elem_of_lookup in Hds' as [i Hi].
      destruct (Forall2_lookup_r _ _ _ _ _ Hds Hi) as ([k c] & Hkc & Hpoll).
      assert (clients server !! k = Some c) as Hk.
      { apply elem_of_map_to_list, list_elem_of_lookup. eauto. }
      unfold poll_client in Hpoll. cbn [fst snd] in Hpoll.
      destruct (isConnected k) eqn:Hcon; cbn [negb] in Hpoll;
        [|injection Hpoll as <-; by apply not_elem_of_nil in Hd].
      destruct (incoming k) as [[n buf]|] eqn:Hin;
        [|injection Hpoll as <-; by apply not_elem_of_nil in Hd].
      exists k, c. do 3 (split; [eauto|]).
      by eapply handleClientMessage_Some.
Qed.

(** X12.  A read that starts with a complete text or binary frame, masked
    or not, whose payload is a text: that text, parsed, is queued once for
    every listener under the id of the client, unless it is empty or not JSON,
    in which case nothing is queued.  Whatever follows the frame in the same
    read (a second frame, say) is not looked at. *)
Theorem first_frame_of_a_read_is_delivered listeners client b0 key text rest :
  isWebSocket client = true ->
  data_opcode_ok b0 ->
  match key with Some k => List.length k = 4%nat | None => True end ->
  is_text text = true ->
  Z.of_nat (String.length text) < 2 ^ 31 - 14 ->
  let buffer := wire_frame b0 key (list_ascii_of_string text) ++ rest in
  handleClientMessage parse listeners client (Z.of_nat (List.length buffer)) buffer
  = Some (if isEmpty text || isVoid (parse text) then []
          else map (λ listener, {| to_listener := listener;
                                   from_client := id client;
                                   json := parse text |}) listeners).
Proof.
  intros Hws Hop Hkey Htext Hlen buffer.
  assert (Hpos : 0 < Z.of_nat (List.length buffer)).
  { subst buffer. unfold wire_frame. destruct key; cbn [List.length app]; lia. }
  unfold handleClientMessage.
  destruct (Z.leb_spec (Z.of_nat (List.length buffer)) 0); [lia|].
  rewrite Hws. cbn [negb]. subst buffer.
  rewrite decode_first_frame; [|done|done|by rewrite length_list_ascii_of_string].
  rewrite from_bytes_text by done. cbn [mbind option_bind].
  destruct (isEmpty text); [done|]. cbn [orb].
  by destruct (isVoid (parse text)).
Qed.

(** X13.  A frame whose opcode is neither text nor binary (a close, a ping,
    a pong, a continuation of a fragmented message) is ignored: nothing is
    queued for the listeners, whatever the frame holds. *)
Theorem control_frames_are_ignored listeners client bytesRead b0 rest :
  ¬ data_opcode_ok b0 ->
  decodeWebSocketFrame (b0 :: rest) bytesRead = Some ""
  ∧ handleClientMessage parse listeners client bytesRead (b0 :: rest) = Some [].
Proof.
  intros Hop.
  assert (Hdec : decodeWebSocketFrame (b0 :: rest) bytesRead = Some "").
  { unfold decodeWebSocketFrame, decodeHeader.
    destruct (bytesRead <? 2); [done|].
    change (data_at (b0 :: rest) 0) with b0.
    destruct (Z.eqb_spec (Z.land (uchar b0) 15) 1) as [E|_]; [by destruct Hop; left|].
    destruct (Z.eqb_spec (Z.land (uchar b0) 15) 2) as [E|_]; [by destruct Hop; right|].
    done. }
  split; [done|]. unfold handleClientMessage. rewrite Hdec.
  by repeat case_match.
Qed.

End ConnectionResults.

Section RegistryResults.

Context `{Host : PluginHost}.

(** X14.  A load that fails leaves the registry as it was, and a load of a
    path that no listed plug-in has and in which the format finds no plug-in
    fails.  Whether it fails or not, [loadPlugin] keeps the registry in order
    and leaves the list of plug-ins and the sessions under every other key
    alone: same handle, same object, not destroyed. *)
Theorem loadPlugin_touches_one_key clientId slotId path sampleRate pm :
  registry_ok pm ->
  let result := loadPlugin clientId slotId path sampleRate pm in
  (result.1 = false -> result.2 = pm)
  ∧ (Forall (λ plugin, fileOrIdentifier plugin ≠ path) (availablePlugins pm) ->
     findAllTypesForFile path = [] -> result.1 = false)
  ∧ registry_ok result.2
  ∧ others_kept (makeKey clientId slotId) pm result.2.
Proof.
  intros Hok result. split; [|split; [|split]].
  - intros Hr. apply (loadPlugin_failure clientId slotId path sampleRate). subst result.
    destruct (loadPlugin _ _ _ _ _) as [b pm']. cbn in *. by subst b.
  - intros Hnone Hfmt. subst result. unfold loadPlugin.
    rewrite find_none_all, Hfmt; [done|].
    intros plugin Hin. rewrite Forall_forall in Hnone.
    apply String.eqb_neq. by apply Hnone.
  - by apply registry_ok_loadPlugin.
  - by apply others_kept_loadPlugin.
Qed.

(** X15.  The registry key of a session of a client-id the server assigns
    determines the client-id and the slot-id: two sessions with the same key
    are the same session.  For arbitrary ids this fails. *)
Theorem keys_of_assigned_ids_are_unique now now' slotId slotId' :
  (makeKey (assigned_id now) slotId = makeKey (assigned_id now') slotId' ->
   now = now' ∧ slotId = slotId')
  ∧ makeKey "a" "b_c" = makeKey "a_b" "c".
Proof. split; [apply makeKey_assigned_inj|reflexivity]. Qed.

(** X16.  The destructor of the manager destroys every live instance,
    each exactly once, and leaves no key and no object. *)
Theorem destructor_destroys_every_instance_once pm :
  registry_ok pm ->
  let pm' := PluginManager_destructor pm in
  activeInstances pm' = ∅
  ∧ objects pm' = ∅
  ∧ NoDup (destroyed pm')
  ∧ ∃ handles,
      destroyed pm' = destroyed pm ++ handles
      ∧ NoDup handles
      ∧ ∀ h, h ∈ handles ↔ is_Some (objects pm !! h).
Proof.
  intros Hok pm'. subst pm'. unfold PluginManager_destructor.
  set (f := λ (pm : PluginManager) (entry : string * nat), erase entry.1 pm).
  assert (Hf : ∀ pm e, f pm e = if (λ _ : string, true) e.1 then erase e.1 pm else pm) by done.
  destruct (erase_loop (λ _, true) f (map_to_list (activeInstances pm)) pm Hf)
    as (Hd & Ho & _ & _);
    [apply NoDup_fst_map_to_list|intros k h; apply elem_of_map_to_list|].
  destruct (erased_handles (λ _, true) pm Hok) as [Hnd Hin].
  assert (Hall : ∀ h, h ∈ (List.filter (λ e : string * nat, true)
                             (map_to_list (activeInstances pm))).*2
                      ↔ is_Some (objects pm !! h)).
  { intros h. rewrite Hin. split.
    - intros (k & _ & Hk). by eapply ok_live.
    - intros Hh. destruct (ok_owned _ Hok _ Hh) as [k Hk]. eauto. }
  split; [|split; [|split]].
  - apply map_eq. intros k. rewrite lookup_empty.
    rewrite (erase_loop_lookup (λ _, true) f _ _ _ Hf). cbn [andb].
    case_bool_decide as Hk; [done|].
    apply not_elem_of_dom. intros Hdom. apply Hk.
    apply elem_of_dom in Hdom as [h Hh].
    apply list_elem_of_fmap. exists (k, h). split; [done|by apply elem_of_map_to_list].
  - apply map_eq. intros h. rewrite lookup_empty, Ho.
    case_bool_decide as Hh; [done|].
    destruct (objects pm !! h) eqn:E; [|done]. destruct Hh. apply Hall. eauto.
  - rewrite Hd. apply NoDup_app. split; [by apply ok_once|]. split; [|done].
    intros h Hdead Hlive. apply Hall in Hlive as [inst Hinst].
    destruct (ok_dead _ Hok _ Hdead). congruence.
  - eexists. split; [exact Hd|]. split; [done|exact Hall].
Qed.

(** X17.  [unloadAllForClient] destroys the instances of the keys it
    removes, each exactly once and none of them destroyed before, and no
    other instance. *)
Theorem unloadAllForClient_destroys_what_it_removes clientId pm :
  registry_ok pm ->
  let pm' := unloadAllForClient clientId pm in
  ∃ removed,
    destroyed pm' = destroyed pm ++ removed
    ∧ NoDup removed
    ∧ (∀ h, h ∈ removed
            ↔ ∃ k, startsWith k (clientId +:+ "_") = true
                   ∧ activeInstances pm !! k = Some h)
    ∧ (∀ h, h ∈ removed -> h ∉ destroyed pm)
    ∧ (∀ h, objects pm' !! h = if bool_decide (h ∈ removed) then None else objects pm !! h).
Proof.
  intros Hok pm'.
  set (P := λ k, startsWith k (clientId +:+ "_")).
  assert (Hf : ∀ pm e, unload_step (clientId +:+ "_") pm e
                       = if P e.1 then erase e.1 pm else pm) by done.
  destruct (erase_loop P _ (map_to_list (activeInstances pm)) pm Hf)
    as (Hd & Ho & _ & _);
    [apply NoDup_fst_map_to_list|intros k h; apply elem_of_map_to_list|].
  destruct (erased_handles P pm Hok) as [Hnd Hin].
  eexists. split; [exact Hd|]. split; [done|]. split; [exact Hin|]. split; [|exact Ho].
  intros h Hh Hdead. apply Hin in Hh as (k & _ & Hk).
  destruct (ok_live _ Hok _ _ Hk) as [inst Hinst].
  destruct (ok_dead _ Hok _ Hdead). congruence.
Qed.

End RegistryResults.

Section FrameResults.

Context `{Host : PluginHost}.

(** X18.  On a timer tick a session gets a [UI_FRAME] exactly when its
    instance has an editor.  The recipient and the slot-id of the frame are
    the parts of the key before and after its first underscore: together
    they always give the key back, and they are the client-id and the slot-id
    of the session exactly when the client-id has no underscore. *)
Theorem ui_frame_of_a_session pm clientId slotId h inst :
  activeInstances pm !! makeKey clientId slotId = Some h ->
  objects pm !! h = Some inst ->
  match pluginEditor inst with
  | None => captureAndSendUI_entry pm (makeKey clientId slotId) h = None
  | Some editor =>
      ∃ recipient slot,
        let sent := (recipient, ui_frame (jpegBase64 (paintEntireComponent editor)) slot) in
        captureAndSendUI_entry pm (makeKey clientId slotId) h = Some sent
        ∧ sent ∈ captureAndSendUI pm
        ∧ makeKey recipient slot = makeKey clientId slotId
        ∧ (recipient = clientId ∧ slot = slotId ↔ no_underscore clientId = true)
  end.
Proof.
  intros Hk Hh.
  assert (∃ a rest, makeKey clientId slotId = a +:+ "_" +:+ rest
                    ∧ no_underscore a = true
                    ∧ (a = clientId ∧ rest = slotId ↔ no_underscore clientId = true))
    as (a & rest & Hkey & Ha & Hiff).
  { destruct (split_at_underscore clientId) as [Hc|(a & c' & -> & Ha)].
    - exists clientId, slotId. split; [done|]. split; [done|]. tauto.
    - exists a, (c' +:+ "_" +:+ slotId). split.
      + unfold makeKey. by rewrite !string_app_assoc.
      + split; [done|]. rewrite no_underscore_app_underscore. split; [|done].
        intros [E _]. rewrite E in Ha.
        by rewrite no_underscore_app_underscore in Ha. }
  pose proof (captureAndSendUI_entry_split pm a rest h inst Ha Hh) as Hentry.
  rewrite <- Hkey in Hentry.
  destruct (pluginEditor inst) as [editor|]; [|done].
  exists a, rest. cbv zeta. split; [done|]. split; [by eapply captureAndSendUI_elem|].
  split; [by rewrite Hkey|done].
Qed.

End FrameResults.

Section HandlerResults.

Context `{Host : PluginHost}.
Variable describe : var -> string.
Variable var_to_double : var -> Double.
Variable double_le_zero : Double -> bool.
Variable rate_44100 : Double.
Variable getParameter : Processor -> Z -> Float.

(** X19.  [handleLoadPlugin] always sends one [LOAD_PLUGIN] reply to the
    sender, and the registry afterwards is the one [loadPlugin] leaves, called
    with the requested rate, or 44100 when that is not positive.  When the
    load fails the registry is as before and the reply carries [success]
    false and an [error] text.  When it succeeds the reply carries [success]
    true, the name of the new instance and one entry per parameter of its
    processor, in index order. *)
Theorem load_request_is_answered clientId data pm :
  registry_ok pm ->
  let path := toString describe (property data "path") in
  let slotId := toString describe (property data "slot_id") in
  let requested := var_to_double (property data "sample_rate") in
  let sampleRate := if double_le_zero requested then rate_44100 else requested in
  let result := loadPlugin clientId slotId path sampleRate pm in
  ∃ reply,
    MainComponent.handleLoadPlugin describe var_to_double double_le_zero rate_44100
      getParameter clientId data pm
    = Some (result.2, [(clientId, VObject reply)])
    ∧ if result.1 then
        ∃ inst,
          getInstance clientId slotId result.2 = Some (nextHandle pm)
          ∧ objects result.2 !! nextHandle pm = Some inst
          ∧ reply
            = [("action", VString "LOAD_PLUGIN"); ("success", VBool true);
               ("slot_id", VString slotId); ("name", VString (pluginName inst));
               ("parameters",
                VArray (map (MainComponent.parameter_entry getParameter (audioProcessor inst))
                            (map Z.of_nat
                                 (seq 0 (Z.to_nat (getNumParameters (audioProcessor inst)))))))]
      else
        result.2 = pm
        ∧ reply
          = [("action", VString "LOAD_PLUGIN"); ("success", VBool false);
             ("slot_id", VString slotId); ("error", VString "Failed to load plugin")].
Proof.
  intros Hok path slotId requested sampleRate result.
  unfold MainComponent.handleLoadPlugin.
  fold path slotId requested. fold sampleRate. subst result.
  destruct (loadPlugin clientId slotId path sampleRate pm) as [[] pm'] eqn:E; cbn [fst snd].
  - destruct (loadPlugin_stores _ _ _ _ _ _ Hok E) as [Hget [inst Hinst]].
    rewrite Hget, Hinst. cbn [mbind option_bind].
    eexists. split; [reflexivity|]. exists inst. split; [done|]. split; [done|]. reflexivity.
  - cbn [mbind option_bind]. eexists. split; [reflexivity|].
    split; [by apply loadPlugin_failure in E|reflexivity].
Qed.

(** X20.  The reply to [GET_PLUGIN_LIST] lists the available plug-ins in
    order, the one at index [i] with [id] [i] and its file path as [path].  A
    load of a listed path uses the first listed plug-in with that path, which
    need not be the one at index [i], and does not ask the format to scan the
    file. *)
Theorem listed_plugin_is_loaded_by_its_path clientId pm i plugin :
  availablePlugins pm !! i = Some plugin ->
  ∃ entries,
    MainComponent.sendPluginList clientId pm
    = [(clientId, VObject [("action", VString "GET_PLUGIN_LIST");
                           ("plugins", VArray entries)])]
    ∧ List.length entries = List.length (availablePlugins pm)
    ∧ entries !! i
      = Some (VObject [("id", VInt (Z.of_nat i)); ("name", VString (name plugin));
                       ("vendor", VString (manufacturerName plugin));
                       ("category", VString (category plugin));
                       ("path", VString (fileOrIdentifier plugin))])
    ∧ ∃ j first,
        (j <= i)%nat
        ∧ availablePlugins pm !! j = Some first
        ∧ fileOrIdentifier first = fileOrIdentifier plugin
        ∧ (∀ j' other, (j' < j)%nat -> availablePlugins pm !! j' = Some other ->
                       fileOrIdentifier other ≠ fileOrIdentifier plugin)
        ∧ ∀ client slotId sampleRate,
            loadPlugin client slotId (fileOrIdentifier plugin) sampleRate pm
            = match createPluginInstance first sampleRate with
              | None => (false, pm)
              | Some instance =>
                  (true,
                   assign (makeKey client slotId) (nextHandle pm)
                     (make_unique
                        (new_PluginInstance
                           (setNonRealtime (prepareToPlay instance sampleRate 512) false)
                           (name first)) pm).2)
              end.
Proof.
  intros Hi. eexists. split; [reflexivity|]. split; [apply length_imap|].
  split; [by rewrite list_lookup_imap, Hi|].
  destruct (find_first_listed _ _ _ Hi) as (j & first & Hj & Hfirst & Hpath & Hbefore & Hfind).
  exists j, first. do 4 (split; [done|]).
  intros client slotId sampleRate. unfold loadPlugin. rewrite Hfind.
  by destruct (createPluginInstance first sampleRate).
Qed.

(** X21.  For a session that exists and a [channels] field that is an
    array, [handleProcessAudio] has a defined result exactly when the first
    channel is an array and, unless that one is empty, every channel is an
    array.  With an empty [channels] array, or a first channel that is not an
    array, it calls [size] through a null pointer. *)
Theorem process_audio_is_defined_iff clientId data pm h channels :
  registry_ok pm ->
  getInstance clientId (toString describe (property data "slot_id")) pm = Some h ->
  property data "channels" = VArray channels ->
  (is_Some (handleProcessAudio describe var_to_double clientId data pm)
   ↔ ∃ first, getArray (element channels 0) = Some first
              ∧ (first = [] ∨ Forall (λ ch, isArray ch = true) channels))
  ∧ (channels = [] -> handleProcessAudio describe var_to_double clientId data pm = None).
Proof.
  intros Hok Hget Hch.
  destruct (ok_live _ Hok _ _ Hget) as [inst Hinst].
  rewrite (handleProcessAudio_session _ _ _ _ _ _ _ _ Hget Hinst Hch). split.
  - destruct (getArray (element channels 0)) as [first|] eqn:Hfirst; cbn [mbind option_bind].
    2:{ split; [by intros [? ?]|by intros (? & ? & _)]. }
    assert (Hbuf : is_Some (mapM (λ ch, read_channel var_to_double (getArray ch)
                                                     (List.length first)) channels)
                   ↔ first = [] ∨ Forall (λ ch, isArray ch = true) channels).
    { rewrite mapM_is_Some. split.
      - intros H. destruct first as [|x first]; [by left|]. right.
        eapply Forall_impl; [exact H|]. intros ch Hc. unfold compose in Hc.
        apply read_channel_Some in Hc as [E|[a Ha]]; [done|]. by destruct ch.
      - intros [->|H]; apply Forall_forall; intros ch Hin; unfold compose;
          apply read_channel_Some; [by left|right].
        rewrite Forall_forall in H. specialize (H ch Hin). by destruct ch. }
    split.
    + intros Hsome. exists first. split; [done|]. apply Hbuf.
      destruct (mapM _ _); [by eexists|by destruct Hsome].
    + intros (first' & [= <-] & H). apply Hbuf in H as [buffer ->].
      cbn [mbind option_bind]. destruct (processBlock _ _). by eexists.
  - intros ->. reflexivity.
Qed.

(** X22.  When [handleProcessAudio] processes, the block it hands to the
    plug-in has one row per channel of the request and as many samples per
    row as the first channel has: a longer channel is cut, a shorter one is
    filled with the number the void value converts to.  The reply has the
    same shape, read from the processed block; the keys of the registry stay,
    and only the object of the addressed session is replaced. *)
Theorem process_audio_reply_shape clientId data pm h channels pm' sends :
  registry_ok pm ->
  let slotId := toString describe (property data "slot_id") in
  getInstance clientId slotId pm = Some h ->
  property data "channels" = VArray channels ->
  handleProcessAudio describe var_to_double clientId data pm = Some (pm', sends) ->
  ∃ inst first processor output out,
    objects pm !! h = Some inst
    ∧ getArray (element channels 0) = Some first
    ∧ processBlock (audioProcessor inst)
        (map (λ ch, map (λ s, double_to_float
                                (var_to_double (element (default [] (getArray ch)) s)))
                        (seq 0 (List.length first))) channels)
      = (processor, output)
    ∧ pm' = {| availablePlugins := availablePlugins pm;
               activeInstances := activeInstances pm;
               objects := <[h := {| audioProcessor := processor;
                                    pluginEditor := pluginEditor inst;
                                    pluginName := pluginName inst |}]> (objects pm);
               destroyed := destroyed pm;
               nextHandle := nextHandle pm |}
    ∧ sends = [(clientId, VObject [("action", VString "AUDIO_PROCESSED");
                                   ("channels", VArray out);
                                   ("slot_id", VString slotId)])]
    ∧ List.length out = List.length channels
    ∧ ∀ ch samples, out !! ch = Some samples ->
        ∃ values,
          samples = VArray values
          ∧ List.length values = List.length first
          ∧ ∀ s v, values !! s = Some v ->
                   v = VDouble (float_to_double
                                  (nth s (nth ch output [])
                                       (double_to_float (var_to_double VVoid)))).
Proof.
  intros Hok slotId Hget Hch.
  destruct (ok_live _ Hok _ _ Hget) as [inst Hinst].
  rewrite (handleProcessAudio_session _ _ _ _ _ _ _ _ Hget Hinst Hch).
  destruct (getArray (element channels 0)) as [first|]; [|done]. cbn [mbind option_bind].
  destruct (mapM _ channels) as [buffer|] eqn:Hbuf; [|done]. cbn [mbind option_bind].
  apply read_channels_rows in Hbuf as ->.
  destruct (processBlock _ _) as [processor output] eqn:Hblock.
  intros [= <- <-]. exists inst, first, processor, output. eexists.
  do 4 (split; [done|]). split; [reflexivity|].
  split; [by rewrite length_map, length_seq|].
  intros ch samples Hs. apply list_lookup_fmap_Some in Hs as (i & -> & Hi).
  apply lookup_seq in Hi as [-> _]. eexists. split; [reflexivity|].
  split; [by rewrite length_map, length_seq|].
  intros s v Hv. apply list_lookup_fmap_Some in Hv as (j & -> & Hj).
  apply lookup_seq in Hj as [-> _]. reflexivity.
Qed.

End HandlerResults.

Section DispatchResults.

Context `{Host : PluginHost}.
Variable describe : var -> string.
Variable var_to_double : var -> Double.
Variable double_le_zero : Double -> bool.
Variable rate_44100 : Double.
Variable getParameter : Processor -> Z -> Float.
Variable var_to_int : var -> Z.
Variable int_to_float : Z -> Float.
Variable wheel_deltaY : Z -> Float.
Variable editor_call : MainComponent.MouseCall -> PluginInstance -> PluginInstance.

(** X23.  Whatever a client asks, the request is answered to that client
    only, the registry stays in order, and no session under another key than
    the one the request names is touched: same handle, same object, not
    destroyed.  A request of one client that the server gave its id therefore
    never reaches a session of another such client. *)
Theorem request_touches_only_its_session now clientId message pm pm' sends :
  registry_ok pm ->
  MainComponent.onMessageReceived describe var_to_double double_le_zero rate_44100
    getParameter var_to_int int_to_float wheel_deltaY editor_call
    now clientId message pm = Some (pm', sends) ->
  let slotId := toString describe (property message "slot_id") in
  registry_ok pm'
  ∧ Forall (λ send, send.1 = clientId) sends
  ∧ others_kept (makeKey clientId slotId) pm pm'
  ∧ ∀ t t' slot, clientId = assigned_id t -> t' ≠ t ->
      getInstance (assigned_id t') slot pm' = getInstance (assigned_id t') slot pm
      ∧ ∀ h, getInstance (assigned_id t') slot pm = Some h ->
             objects pm' !! h = objects pm !! h.
Proof.
  intros Hok Hrun slotId.
  assert (Hmain : registry_ok pm'
                  ∧ Forall (λ send : Send, send.1 = clientId) sends
                  ∧ others_kept (makeKey clientId slotId) pm pm').
  { revert Hrun. unfold MainComponent.onMessageReceived.
    repeat case_match.
    - intros [= <- <-]. split; [done|]. split; [by repeat constructor|by apply others_kept_refl].
    - intros [= <- <-]. split; [done|]. split; [by repeat constructor|by apply others_kept_refl].
    - intros Hrun. destruct (handleLoadPlugin_frame _ _ _ _ _ _ _ _ _ _ Hok Hrun)
        as (Hok' & Hkept & reply & -> & _).
      split; [done|]. split; [by repeat constructor|done].
    - intros [= <- <-]. unfold MainComponent.handleUnloadPlugin. cbn [fst snd].
      split; [by apply registry_ok_unloadPlugin|].
      split; [by repeat constructor|by apply others_kept_erase].
    - intros Hrun. destruct (handleProcessAudio_frame _ _ _ _ _ _ _ Hok Hrun)
        as (Hkept & reply & -> & _).
      split; [by eapply registry_ok_handleProcessAudio|].
      split; [by repeat constructor|done].
    - intros Hrun. destruct (handleSetParam_frame _ _ _ _ _ _ _ Hok Hrun)
        as (Hkept & reply & -> & _).
      split; [by eapply registry_ok_handleSetParam|].
      split; [by repeat constructor|done].
    - destruct (MainComponent.handleMouseEvent _ _ _ _ _ _ _ _ _) as [pm1|] eqn:E; [|done].
      cbn [mbind option_bind]. intros [= <- <-].
      destruct (handleMouseEvent_frame _ _ _ _ _ _ _ _ _ _ Hok E).
      split; [done|]. split; [constructor|done].
    - destruct (MainComponent.handleMouseEvent _ _ _ _ _ _ _ _ _) as [pm1|] eqn:E; [|done].
      cbn [mbind option_bind]. intros [= <- <-].
      destruct (handleMouseEvent_frame _ _ _ _ _ _ _ _ _ _ Hok E).
      split; [done|]. split; [constructor|done].
    - destruct (MainComponent.handleMouseEvent _ _ _ _ _ _ _ _ _) as [pm1|] eqn:E; [|done].
      cbn [mbind option_bind]. intros [= <- <-].
      destruct (handleMouseEvent_frame _ _ _ _ _ _ _ _ _ _ Hok E).
      split; [done|]. split; [constructor|done].
    - intros [= <- <-]. split; [done|]. split; [by repeat constructor|by apply others_kept_refl]. }
  destruct Hmain as (Hok' & Hsends & Hkept). do 3 (split; [done|]).
  intros t t' slot -> Hne.
  assert (Hkey : makeKey (assigned_id t') slot ≠ makeKey (assigned_id t) slotId).
  { intros E. apply makeKey_assigned_inj in E as [E _]. done. }
  destruct Hkept as [_ Hkept]. destruct (Hkept _ Hkey) as [Hk Hobj].
  split; [exact Hk|]. intros h Hh. by apply Hobj.
Qed.

(** X24.  The reply table of [onMessageReceived].  Every request but
    [PROCESS_AUDIO] has a defined result.  [PING], [GET_PLUGIN_LIST],
    [LOAD_PLUGIN], [UNLOAD_PLUGIN], [PROCESS_AUDIO] and [SET_PARAM] get exactly
    one reply, sent to the sender, whose [action] is [PONG], [AUDIO_PROCESSED],
    [PARAM_CHANGED], or else the action asked; [CLICK], [DRAG], [SCROLL] and
    every other action get none. *)
Theorem every_request_gets_at_most_one_reply now clientId message pm :
  registry_ok pm ->
  let action := toString describe (property message "action") in
  let result :=
    MainComponent.onMessageReceived describe var_to_double double_le_zero rate_44100
      getParameter var_to_int int_to_float wheel_deltaY editor_call
      now clientId message pm in
  (String.eqb action "PROCESS_AUDIO" = false -> is_Some result)
  ∧ ∀ pm' sends, result = Some (pm', sends) ->
      if existsb (String.eqb action)
           ["PING"; "GET_PLUGIN_LIST"; "LOAD_PLUGIN"; "UNLOAD_PLUGIN";
            "PROCESS_AUDIO"; "SET_PARAM"]
      then ∃ reply,
             sends = [(clientId, reply)]
             ∧ property reply "action"
               = VString (if String.eqb action "PING" then "PONG"
                          else if String.eqb action "PROCESS_AUDIO" then "AUDIO_PROCESSED"
                          else if String.eqb action "SET_PARAM" then "PARAM_CHANGED"
                          else action)
      else sends = [].
Proof.
  intros Hok action result. subst result.
  unfold MainComponent.onMessageReceived. fold action. cbn [existsb].
  destruct (String.eqb_spec action "PING") as [E1|E1];
    [rewrite ?E1; split; [by eexists|intros ? ? [= <- <-]; by eexists]|].
  destruct (String.eqb_spec action "GET_PLUGIN_LIST") as [E2|E2];
    [rewrite ?E2; split; [by eexists|intros ? ? [= <- <-]; by eexists]|].
  destruct (String.eqb_spec action "LOAD_PLUGIN") as [E3|E3].
  { rewrite ?E3. split; [intros _; by apply handleLoadPlugin_defined|].
    intros pm' sends Hrun. by apply handleLoadPlugin_reply in Hrun. }
  destruct (String.eqb_spec action "UNLOAD_PLUGIN") as [E4|E4];
    [rewrite ?E4; split; [by eexists|intros ? ? [= <- <-]; by eexists]|].
  destruct (String.eqb_spec action "PROCESS_AUDIO") as [E5|E5].
  { rewrite ?E5. split; [done|].
    intros pm' sends Hrun. by apply handleProcessAudio_reply in Hrun. }
  destruct (String.eqb_spec action "SET_PARAM") as [E6|E6].
  { rewrite ?E6. split; [intros _; by apply handleSetParam_defined|].
    intros pm' sends Hrun. by apply handleSetParam_reply in Hrun. }
  cbn [orb].
  destruct (String.eqb_spec action "CLICK") as [E7|E7];
    [|destruct (String.eqb_spec action "DRAG") as [E8|E8];
      [|destruct (String.eqb_spec action "SCROLL") as [E9|E9]]].
  4:{ split; [by eexists|by intros ? ? [= <- <-]]. }
  all: match goal with
       | |- context [MainComponent.handleMouseEvent ?d ?i ?f ?w ?e ?c ?m ?t ?p] =>
           destruct (handleMouseEvent_defined d i f w e c m t p Hok) as [pm1 ->]
       end; split; [by eexists|by intros ? ? [= <- <-]].
Qed.

(** X25.  [UNLOAD_PLUGIN] is always answered with [success] true, whether
    or not the session existed.  Afterwards the session is gone; its instance,
    if there was one, has been destroyed exactly once; every other session is
    as it was; and asking again changes nothing more. *)
Theorem unload_request_always_succeeds clientId data pm :
  registry_ok pm ->
  let slotId := toString describe (property data "slot_id") in
  let result := MainComponent.handleUnloadPlugin describe clientId data pm in
  result.2 = [(clientId, VObject [("action", VString "UNLOAD_PLUGIN");
                                  ("success", VBool true);
                                  ("slot_id", VString slotId)])]
  ∧ getInstance clientId slotId result.1 = None
  ∧ match getInstance clientId slotId pm with
    | Some h =>
        (destroyed result.1 = destroyed pm ++ [h])
        ∧ (h ∉ destroyed pm)
        ∧ objects result.1 = delete h (objects pm)
    | None => result.1 = pm
    end
  ∧ others_kept (makeKey clientId slotId) pm result.1
  ∧ registry_ok result.1
  ∧ MainComponent.handleUnloadPlugin describe clientId data result.1 = result.
Proof.
  intros Hok slotId result. subst result. unfold MainComponent.handleUnloadPlugin.
  fold slotId. cbn [fst snd]. unfold unloadPlugin.
  assert (Hgone : getInstance clientId slotId (erase (makeKey clientId slotId) pm) = None).
  { unfold getInstance. by rewrite activeInstances_erase, lookup_delete_eq. }
  split; [reflexivity|]. split; [exact Hgone|]. split; [|split; [|split]].
  - unfold getInstance.
    destruct (activeInstances pm !! makeKey clientId slotId) as [h|] eqn:Hk.
    + rewrite (erase_present _ _ _ Hk). cbn. split; [done|]. split; [|done].
      intros Hd. destruct (ok_dead _ Hok _ Hd) as [Hn _].
      destruct (ok_live _ Hok _ _ Hk) as [? ?]. congruence.
    + by apply erase_absent.
  - by apply others_kept_erase.
  - by apply registry_ok_erase.
  - by rewrite (erase_absent _ (erase (makeKey clientId slotId) pm)).
Qed.

End DispatchResults.

(** * Further concrete runs *)

Section FurtherRuns.

Lemma server_ok_two_clients : server_ok Samples.two_clients.
Proof.
  intros k c Hk. cbn [clients Samples.two_clients] in Hk.
  apply lookup_insert_Some in Hk as [[<- <-]|[_ Hk]];
    [split; [done|split; [done|by exists 1]]|].
  apply lookup_insert_Some in Hk as [[<- <-]|[_ Hk]];
    [split; [done|split; [done|by exists 2]]|].
  by rewrite lookup_empty in Hk.
Qed.

(** X1 at the frame 81 02 68 69, followed or not by one more byte. *)
Lemma decoder_reads_within_length_witness :
  decodeWebSocketFrame (map to_char [0x81; 2; 104; 105]) 4
  = decodeWebSocketFrame (map to_char [0x81; 2; 104; 105; 33]) 4.
Proof.
  apply (decoder_reads_within_length (map to_char [0x81; 2; 104; 105])
           (map to_char [0x81; 2; 104; 105; 33]) 4).
  reflexivity.
Defined.

(** X2 at the first bytes 81 and C1 (the same with the first reserved bit
    set). *)
Lemma decoder_ignores_reserved_bits_witness :
  decodeWebSocketFrame (to_char 0x81 :: map to_char [2; 104; 105]) 4
  = decodeWebSocketFrame (to_char 0xC1 :: map to_char [2; 104; 105]) 4
  ∧ (data_opcode_ok (to_char 0x81) ↔ data_opcode_ok (to_char 0xC1)).
Proof.
  apply (decoder_ignores_reserved_bits (to_char 0x81) (to_char 0xC1)
           (map to_char [2; 104; 105]) 4).
  reflexivity.
Defined.

(** X3 at the first three bytes of the four-byte frame of [hi]. *)
Lemma incomplete_frame_is_dropped_witness :
  decodeWebSocketFrame
    (take (Z.to_nat 3) (wire_frame (to_char 0x81) None (list_ascii_of_string "hi"))) 3
  = Some "".
Proof.
  apply (incomplete_frame_is_dropped (to_char 0x81) None (list_ascii_of_string "hi") 3).
  - left. reflexivity.
  - exact I.
  - vm_compute. reflexivity.
  - vm_compute. reflexivity.
Defined.

(** X4 at a binary frame with the payload 68 00 69. *)
Lemma nul_bytes_of_a_payload_are_dropped_witness :
  let payload := map to_char [104; 0; 105] in
  let frame := wire_frame (to_char 0x82) None payload in
  let message := string_of_list_ascii (List.filter (λ c, negb (uchar c =? 0)) payload) in
  let nuls := List.filter (λ c, uchar c =? 0) payload in
  decodeWebSocketFrame frame (Z.of_nat (List.length frame)) = Some message
  ∧ is_text message = true
  ∧ (String.length message + List.length nuls = List.length payload)%nat.
Proof.
  apply (nul_bytes_of_a_payload_are_dropped (to_char 0x82) None (map to_char [104; 0; 105])).
  - right. reflexivity.
  - exact I.
  - vm_compute. reflexivity.
Defined.

(** X6 at two upgrade requests accepted at the same millisecond. *)
Lemma connections_of_one_millisecond_share_an_id_witness :
  let buffer := list_ascii_of_string Demo.request_without_key in
  let server1 := handleNewConnection (λ s, s) 5 1 97 buffer Demo.idle_server in
  let server2 := handleNewConnection (λ s, s) 5 1 97 buffer server1 in
  clients server2
  = <[assigned_id 5 :=
        set_isWebSocket
          (performWebSocketHandshake (λ s, s)
             {| socket_written := []; id := assigned_id 5; isWebSocket := false |}
             (fromBuffer buffer (Z.to_nat 97))) true]> (clients Demo.idle_server)
  ∧ notifications server2
    = notifications Demo.idle_server
      ++ map (λ listener, onClientConnected listener (assigned_id 5))
             (listeners Demo.idle_server)
      ++ map (λ listener, onClientConnected listener (assigned_id 5))
             (listeners Demo.idle_server).
Proof.
  apply (proj1 (connections_of_one_millisecond_share_an_id (λ s, s) 5 5 97 97
                  (list_ascii_of_string Demo.request_without_key)
                  (list_ascii_of_string Demo.request_without_key)
                  Demo.idle_server
                  ltac:(lia) ltac:(lia)
                  ltac:(vm_compute; reflexivity) ltac:(vm_compute; reflexivity))).
  reflexivity.
Defined.


(** X8 at a server with two clients. *)
Lemma server_ok_is_kept_witness :
  (∀ now ready bytesRead buffer,
     server_ok (handleNewConnection (λ s, s) now ready bytesRead buffer Samples.two_clients))
  ∧ (∀ clientId jsonStr server',
       send clientId jsonStr Samples.two_clients = Some server' -> server_ok server')
  ∧ (∀ jsonStr server',
       broadcast jsonStr Samples.two_clients = Some server' -> server_ok server')
  ∧ (∀ isConnected incoming server' deliveries,
       run_clients Samples.parse isConnected incoming Samples.two_clients
       = Some (server', deliveries) ->
       server_ok server')
  ∧ server_ok (stop Samples.two_clients).
Proof.
  apply (server_ok_is_kept (Host := Demo.host) (λ s, s) Samples.parse Samples.two_clients).
  exact server_ok_two_clients.
Defined.

(** X9 at the text of the empty array, sent to the first of two clients. *)
Lemma send_writes_one_frame_to_one_client_witness :
  ∃ server',
    send "client_1" "[]" Samples.two_clients = Some server'
    ∧ listeners server' = listeners Samples.two_clients
    ∧ notifications server' = notifications Samples.two_clients
    ∧ (∀ k, k ≠ "client_1" -> clients server' !! k = clients Samples.two_clients !! k)
    ∧ match clients Samples.two_clients !! "client_1" with
      | None => clients server' !! "client_1" = None
      | Some c =>
          if isWebSocket c then
            ∃ frame,
              clients server' !! "client_1" = Some (write c frame)
              ∧ sendWebSocketFrame "[]" = Some frame
              ∧ decodeWebSocketFrame frame (Z.of_nat (List.length frame)) = Some "[]"
          else clients server' !! "client_1" = Some c
      end.
Proof.
  apply (send_writes_one_frame_to_one_client "client_1" "[]" Samples.two_clients).
  - reflexivity.
  - vm_compute. discriminate.
Defined.

(** X10 at the same text, sent to both clients. *)
Lemma broadcast_sends_to_every_client_witness :
  ∃ frame server',
    sendWebSocketFrame "[]" = Some frame
    ∧ broadcast "[]" Samples.two_clients = Some server'
    ∧ listeners server' = listeners Samples.two_clients
    ∧ notifications server' = notifications Samples.two_clients
    ∧ (∀ k, clients server' !! k
            = (λ c, if isWebSocket c then write c frame else c)
                <$> clients Samples.two_clients !! k)
    ∧ (∀ k sent, send k "[]" Samples.two_clients = Some sent ->
                 clients server' !! k = clients sent !! k).
Proof.
  apply (broadcast_sends_to_every_client "[]" Samples.two_clients).
  - reflexivity.
  - vm_compute. discriminate.
Defined.

(** X12 at a read that holds the frame of the empty array and then the
    frame of [hi]. *)
Lemma first_frame_of_a_read_is_delivered_witness :
  let buffer := wire_frame (to_char 0x81) None (list_ascii_of_string "[]")
                ++ wire_frame (to_char 0x81) None (list_ascii_of_string "hi") in
  handleClientMessage Samples.parse [1%nat; 2%nat] Samples.client_1
    (Z.of_nat (List.length buffer)) buffer
  = Some (if isEmpty "[]" || isVoid (Samples.parse "[]") then []
          else map (λ listener, {| to_listener := listener;
                                   from_client := id Samples.client_1;
                                   json := Samples.parse "[]" |}) [1%nat; 2%nat]).
Proof.
  apply (first_frame_of_a_read_is_delivered (Host := Demo.host) Samples.parse
           [1%nat; 2%nat] Samples.client_1 (to_char 0x81) None "[]"
           (wire_frame (to_char 0x81) None (list_ascii_of_string "hi"))).
  - reflexivity.
  - left. reflexivity.
  - exact I.
  - reflexivity.
  - vm_compute. reflexivity.
Defined.

(** X13 at a ping frame. *)
Lemma control_frames_are_ignored_witness :
  decodeWebSocketFrame (to_char 0x89 :: map to_char [2; 104; 105]) 4 = Some ""
  ∧ handleClientMessage Samples.parse [1%nat; 2%nat] Samples.client_1 4
      (to_char 0x89 :: map to_char [2; 104; 105]) = Some [].
Proof.
  apply (control_frames_are_ignored (Host := Demo.host) Samples.parse [1%nat; 2%nat]
           Samples.client_1 4 (to_char 0x89) (map to_char [2; 104; 105])).
  intros [H|H]; vm_compute in H; discriminate.
Defined.

(** X14 at a load into slot [B] of the registry that holds slot [A]. *)
Lemma loadPlugin_touches_one_key_witness :
  let result := loadPlugin (Host := Demo.host) "client_1700000000000" "B" "/x.plugin" 48000
                  Demo.loaded in
  (result.1 = false -> result.2 = Demo.loaded)
  ∧ (Forall (λ plugin, fileOrIdentifier plugin ≠ "/x.plugin")
            (availablePlugins Demo.loaded) ->
     @findAllTypesForFile Demo.host "/x.plugin" = [] -> result.1 = false)
  ∧ registry_ok result.2
  ∧ others_kept (makeKey "client_1700000000000" "B") Demo.loaded result.2.
Proof.
  apply (loadPlugin_touches_one_key (Host := Demo.host)
           "client_1700000000000" "B" "/x.plugin" 48000 Demo.loaded).
  exact registry_ok_loaded.
Defined.

(** X16 at the registry that holds slot [A]. *)
Lemma destructor_destroys_every_instance_once_witness :
  let pm' := PluginManager_destructor Demo.loaded in
  activeInstances pm' = ∅
  ∧ objects pm' = ∅
  ∧ NoDup (destroyed pm')
  ∧ ∃ handles,
      destroyed pm' = destroyed Demo.loaded ++ handles
      ∧ NoDup handles
      ∧ ∀ h, h ∈ handles ↔ is_Some (objects Demo.loaded !! h).
Proof.
  apply (destructor_destroys_every_instance_once (Host := Demo.host) Demo.loaded).
  exact registry_ok_loaded.
Defined.

(** X17 at the same registry, for the client that owns slot [A]. *)
Lemma unloadAllForClient_destroys_what_it_removes_witness :
  let pm' := unloadAllForClient "client_1700000000000" Demo.loaded in
  ∃ removed,
    destroyed pm' = destroyed Demo.loaded ++ removed
    ∧ NoDup removed
    ∧ (∀ h, h ∈ removed
            ↔ ∃ k, startsWith k ("client_1700000000000" +:+ "_") = true
                   ∧ activeInstances Demo.loaded !! k = Some h)
    ∧ (∀ h, h ∈ removed -> h ∉ destroyed Demo.loaded)
    ∧ (∀ h, objects pm' !! h
            = if bool_decide (h ∈ removed) then None else objects Demo.loaded !! h).
Proof.
  apply (unloadAllForClient_destroys_what_it_removes (Host := Demo.host)
           "client_1700000000000" Demo.loaded).
  exact registry_ok_loaded.
Defined.

(** X18 at the session [A] of [client_1700000000000]. *)
Lemma ui_frame_of_a_session_witness :
  ∃ recipient slot,
    let sent := (recipient, ui_frame (Host := Demo.host) "/9j/4AAQ" slot) in
    captureAndSendUI_entry Demo.loaded (makeKey "client_1700000000000" "A") 0 = Some sent
    ∧ sent ∈ captureAndSendUI Demo.loaded
    ∧ makeKey recipient slot = makeKey "client_1700000000000" "A"
    ∧ (recipient = "client_1700000000000" ∧ slot = "A"
       ↔ no_underscore "client_1700000000000" = true).
Proof.
  exact (ui_frame_of_a_session (Host := Demo.host) Demo.loaded "client_1700000000000" "A"
           0%nat Demo.X_instance
           ltac:(vm_compute; reflexivity) ltac:(vm_compute; reflexivity)).
Defined.

(** X19 at a request to load [/x.plugin] into slot [A] at rate 0. *)
Lemma load_request_is_answered_witness :
  let data := VObject (Host := Demo.host)
                [("action", VString "LOAD_PLUGIN"); ("path", VString "/x.plugin");
                 ("slot_id", VString "A"); ("sample_rate", VInt 0)] in
  let result := loadPlugin (Host := Demo.host) "client_1700000000000" "A" "/x.plugin" 44100
                  Demo.empty in
  ∃ reply,
    MainComponent.handleLoadPlugin Demo.describe Demo.var_to_double Samples.double_le_zero
      Samples.rate_44100 Samples.getParameter "client_1700000000000" data Demo.empty
    = Some (result.2, [("client_1700000000000", VObject reply)])
    ∧ ∃ inst,
        getInstance "client_1700000000000" "A" result.2 = Some (nextHandle Demo.empty)
        ∧ objects result.2 !! nextHandle Demo.empty = Some inst
        ∧ reply
          = [("action", VString "LOAD_PLUGIN"); ("success", VBool true);
             ("slot_id", VString "A"); ("name", VString (pluginName inst));
             ("parameters",
              VArray (map (MainComponent.parameter_entry (Host := Demo.host) Samples.getParameter
                             (audioProcessor inst))
                          (map Z.of_nat
                               (seq 0 (Z.to_nat (getNumParameters (audioProcessor inst)))))))].
Proof.
  exact (load_request_is_answered (Host := Demo.host) Demo.describe Demo.var_to_double
           Samples.double_le_zero Samples.rate_44100 Samples.getParameter
           "client_1700000000000"
           (VObject [("action", VString "LOAD_PLUGIN"); ("path", VString "/x.plugin");
                     ("slot_id", VString "A"); ("sample_rate", VInt 0)])
           Demo.empty registry_ok_empty).
Defined.

(** X20 at the second entry of a list that names one path twice: a load of
    its path gives the first entry. *)
Lemma listed_plugin_is_loaded_by_its_path_witness :
  ∃ entries,
    MainComponent.sendPluginList "client_1" Samples.listed_twice
    = [("client_1", VObject [("action", VString "GET_PLUGIN_LIST");
                             ("plugins", VArray entries)])]
    ∧ List.length entries = List.length (availablePlugins Samples.listed_twice)
    ∧ entries !! 1%nat
      = Some (VObject [("id", VInt 1); ("name", VString "Y");
                       ("vendor", VString "Nova"); ("category", VString "Fx");
                       ("path", VString "/x.plugin")])
    ∧ ∃ j first,
        (j <= 1)%nat
        ∧ availablePlugins Samples.listed_twice !! j = Some first
        ∧ fileOrIdentifier first = "/x.plugin"
        ∧ (∀ j' other, (j' < j)%nat ->
             availablePlugins Samples.listed_twice !! j' = Some other ->
             fileOrIdentifier other ≠ "/x.plugin")
        ∧ ∀ client slotId sampleRate,
            loadPlugin client slotId "/x.plugin" sampleRate Samples.listed_twice
            = match createPluginInstance first sampleRate with
              | None => (false, Samples.listed_twice)
              | Some instance =>
                  (true,
                   assign (makeKey client slotId) (nextHandle Samples.listed_twice)
                     (make_unique
                        (new_PluginInstance
                           (setNonRealtime (prepareToPlay instance sampleRate 512) false)
                           (name first)) Samples.listed_twice).2)
              end.
Proof.
  exact (listed_plugin_is_loaded_by_its_path (Host := Demo.host) "client_1"
           Samples.listed_twice 1%nat
           {| name := "Y"; manufacturerName := "Nova"; category := "Fx";
              fileOrIdentifier := "/x.plugin" |}
           eq_refl).
Defined.

(** X21 at a request for slot [A] with an empty array of channels. *)
Lemma process_audio_is_defined_iff_witness :
  let data := VObject (Host := Demo.host)
                [("action", VString "PROCESS_AUDIO"); ("slot_id", VString "A");
                 ("channels", VArray [])] in
  (is_Some (handleProcessAudio Demo.describe Demo.var_to_double
              "client_1700000000000" data Demo.loaded)
   ↔ ∃ first : list (@var Demo.host),
       getArray (element (Host := Demo.host) [] 0) = Some first
       ∧ (first = [] ∨ Forall (λ ch : @var Demo.host, isArray ch = true) []))
  ∧ (@nil (@var Demo.host) = [] ->
     handleProcessAudio Demo.describe Demo.var_to_double
       "client_1700000000000" data Demo.loaded = None).
Proof.
  apply (process_audio_is_defined_iff (Host := Demo.host) Demo.describe Demo.var_to_double
           "client_1700000000000"
           (VObject [("action", VString "PROCESS_AUDIO"); ("slot_id", VString "A");
                     ("channels", VArray [])])
           Demo.loaded 0%nat []).
  - exact registry_ok_loaded.
  - vm_compute. reflexivity.
  - reflexivity.
Defined.

(** X22 at a request with the channels 1 2 and 3: the reply has two
    channels of two samples each. *)
Lemma process_audio_reply_shape_witness :
  let result := default (Demo.loaded, [])
                  (handleProcessAudio (Host := Demo.host) Demo.describe Demo.var_to_double
                     "client_1700000000000" Samples.audio_request Demo.loaded) in
  ∃ out,
    result.2 = [("client_1700000000000",
                 VObject [("action", VString "AUDIO_PROCESSED");
                          ("channels", VArray out);
                          ("slot_id", VString "A")])]
    ∧ List.length out = 2%nat
    ∧ ∀ ch samples, out !! ch = Some samples ->
        ∃ values, samples = VArray values ∧ List.length values = 2%nat.
Proof.
  destruct (process_audio_reply_shape (Host := Demo.host) Demo.describe Demo.var_to_double
              "client_1700000000000" Samples.audio_request Demo.loaded 0%nat
              [VArray [VInt 1; VInt 2]; VArray [VInt 3]]
              (default (Demo.loaded, [])
                 (handleProcessAudio (Host := Demo.host) Demo.describe Demo.var_to_double
                    "client_1700000000000" Samples.audio_request Demo.loaded)).1
              (default (Demo.loaded, [])
                 (handleProcessAudio (Host := Demo.host) Demo.describe Demo.var_to_double
                    "client_1700000000000" Samples.audio_request Demo.loaded)).2
              registry_ok_loaded
              ltac:(vm_compute; reflexivity) ltac:(reflexivity)
              ltac:(vm_compute; reflexivity))
    as (inst & first & processor & output & out & _ & Hfirst & _ & _ & Hsends & Hlen & Hrows).
  exists out. split; [exact Hsends|]. split; [exact Hlen|].
  intros ch samples Hs. destruct (Hrows ch samples Hs) as (values & Hv & Hl & _).
  exists values. split; [exact Hv|]. injection Hfirst as <-. exact Hl.
Defined.

(** X23 at a request of [client_1700000000000] to set [gain] on slot [A]. *)
Lemma request_touches_only_its_session_witness :
  let message := VObject (Host := Demo.host)
                   [("action", VString "SET_PARAM"); ("slot_id", VString "A");
                    ("name", VString "gain"); ("value", VInt 5)] in
  let result := default (Demo.loaded, [])
                  (MainComponent.onMessageReceived Demo.describe Demo.var_to_double
                     Samples.double_le_zero Samples.rate_44100 Samples.getParameter
                     Samples.var_to_int Samples.int_to_float Samples.wheel_deltaY
                     Samples.editor_call 7 "client_1700000000000" message Demo.loaded) in
  registry_ok result.1
  ∧ Forall (λ send, send.1 = "client_1700000000000") result.2
  ∧ others_kept (makeKey "client_1700000000000" "A") Demo.loaded result.1
  ∧ ∀ t t' slot, "client_1700000000000" = assigned_id t -> t' ≠ t ->
      getInstance (assigned_id t') slot result.1 = getInstance (assigned_id t') slot Demo.loaded
      ∧ ∀ h, getInstance (assigned_id t') slot Demo.loaded = Some h ->
             objects result.1 !! h = objects Demo.loaded !! h.
Proof.
  apply (request_touches_only_its_session (Host := Demo.host) Demo.describe
           Demo.var_to_double Samples.double_le_zero Samples.rate_44100 Samples.getParameter
           Samples.var_to_int Samples.int_to_float Samples.wheel_deltaY Samples.editor_call
           7 "client_1700000000000"
           (VObject [("action", VString "SET_PARAM"); ("slot_id", VString "A");
                     ("name", VString "gain"); ("value", VInt 5)])
           Demo.loaded).
  - exact registry_ok_loaded.
  - vm_compute. reflexivity.
Defined.

(** X24 at a [PING]. *)
Lemma every_request_gets_at_most_one_reply_witness :
  let message := VObject (Host := Demo.host) [("action", VString "PING")] in
  let action := toString Demo.describe (property message "action") in
  let result :=
    MainComponent.onMessageReceived Demo.describe Demo.var_to_double
      Samples.double_le_zero Samples.rate_44100 Samples.getParameter
      Samples.var_to_int Samples.int_to_float Samples.wheel_deltaY Samples.editor_call
      7 "client_1700000000000" message Demo.loaded in
  (String.eqb action "PROCESS_AUDIO" = false -> is_Some result)
  ∧ ∀ pm' sends, result = Some (pm', sends) ->
      if existsb (String.eqb action)
           ["PING"; "GET_PLUGIN_LIST"; "LOAD_PLUGIN"; "UNLOAD_PLUGIN";
            "PROCESS_AUDIO"; "SET_PARAM"]
      then ∃ reply,
             sends = [("client_1700000000000", reply)]
             ∧ property reply "action"
               = VString (if String.eqb action "PING" then "PONG"
                          else if String.eqb action "PROCESS_AUDIO" then "AUDIO_PROCESSED"
                          else if String.eqb action "SET_PARAM" then "PARAM_CHANGED"
                          else action)
      else sends = [].
Proof.
  apply (every_request_gets_at_most_one_reply (Host := Demo.host) Demo.describe
           Demo.var_to_double Samples.double_le_zero Samples.rate_44100 Samples.getParameter
           Samples.var_to_int Samples.int_to_float Samples.wheel_deltaY Samples.editor_call
           7 "client_1700000000000" (VObject [("action", VString "PING")]) Demo.loaded).
  exact registry_ok_loaded.
Defined.

(** X25 at a request to unload slot [A]. *)
Lemma unload_request_always_succeeds_witness :
  let data := VObject (Host := Demo.host)
                [("action", VString "UNLOAD_PLUGIN"); ("slot_id", VString "A")] in
  let result := MainComponent.handleUnloadPlugin Demo.describe "client_1700000000000" data
                  Demo.loaded in
  result.2 = [("client_1700000000000",
               VObject [("action", VString "UNLOAD_PLUGIN");
                        ("success", VBool true);
                        ("slot_id", VString "A")])]
  ∧ getInstance "client_1700000000000" "A" result.1 = None
  ∧ match getInstance "client_1700000000000" "A" Demo.loaded with
    | Some h =>
        (destroyed result.1 = destroyed Demo.loaded ++ [h])
        ∧ (h ∉ destroyed Demo.loaded)
        ∧ objects result.1 = delete h (objects Demo.loaded)
    | None => result.1 = Demo.loaded
    end
  ∧ others_kept (makeKey "client_1700000000000" "A") Demo.loaded result.1
  ∧ registry_ok result.1
  ∧ MainComponent.handleUnloadPlugin Demo.describe "client_1700000000000" data result.1
    = result.
Proof.
  apply (unload_request_always_succeeds (Host := Demo.host) Demo.describe
           "client_1700000000000"
           (VObject [("action", VString "UNLOAD_PLUGIN"); ("slot_id", VString "A")])
           Demo.loaded).
  exact registry_ok_loaded.
Defined.

End FurtherRuns.
